(** * GearX spam guard: message history, strike tracker and rule engine

    A shallow embedding of
      - [bot/utils/message_analysis.py],
      - [bot/services/violation_tracker.py],
      - [bot/services/spam_detector.py],
      - the callers of the detector in [bot/events/message_events.py],
        [bot/utils/permissions.py] and [bot/bot.py], the keyword storage of
        [bot/services/config_service.py], and [bot/utils/schedule.py],
    followed by the properties of the detector that the design document
    states and by further properties of the code.

    Conventions.
      - A Python [str] is the list of its code points ([str]); literals of
        the source are written as Rocq strings and decoded from UTF-8 by
        [u8].
      - A naive [datetime] is the number of microseconds since the epoch and
        a [timedelta] a number of microseconds, both in [Z].  The
        constructor [dt.timedelta(...)] raises [OverflowError] outside its
        range of 999999999 days either way, and so does the constructor
        here; the difference of two [datetime]s is always in that range.
      - A Python [float] is a binary64 primitive float.
      - A [dict] is a [gmap]; a [deque] is the list of its items, left end
        first, with its [maxlen].
      - The mutable objects [SpamDetector] and [ViolationTracker] are passed
        and returned explicitly: a method takes [self] and returns the new
        [self] next to its result.  An exception is an [outcome].
      - [dt.datetime.utcnow()] is an input: each call receives the values the
        clock shows at the places where the source reads it. *)

From Stdlib Require Import ZArith NArith String Ascii List Bool Lia Floats Sorted.
From stdpp Require Import gmap list.

Open Scope Z_scope.

(* ===================================================================== *)
(** ** Python values *)
(* ===================================================================== *)

Module Py.

(** A [str]: the sequence of its code points. *)
Definition str := list N.

(** Decoder for the UTF-8 bytes of a source literal: [need] continuation
    bytes are still expected for the code point accumulated in [acc]. *)
Fixpoint utf8_decode (bs : list N) (need : nat) (acc : N) : str :=
  match bs with
  | [] => []
  | b :: bs' =>
      match need with
      | O =>
          if (b <? 128)%N then b :: utf8_decode bs' 0 0%N
          else if (b <? 224)%N then utf8_decode bs' 1 (b mod 32)%N
          else if (b <? 240)%N then utf8_decode bs' 2 (b mod 16)%N
          else utf8_decode bs' 3 (b mod 8)%N
      | S O => (acc * 64 + b mod 64)%N :: utf8_decode bs' 0 0%N
      | S k => utf8_decode bs' k (acc * 64 + b mod 64)%N
      end
  end.

Definition u8 (s : string) : str :=
  utf8_decode (map N_of_ascii (list_ascii_of_string s)) 0 0%N.
Arguments u8 s : simpl never.

(** [len(x)] as a Python integer. *)
Definition len {A} (l : list A) : Z := Z.of_nat (length l).

Fixpoint startswith (s p : str) : bool :=
  match p, s with
  | [], _ => true
  | _ :: _, [] => false
  | a :: p', b :: s' => (a =? b)%N && startswith s' p'
  end.

(** [needle in hay] for strings. *)
Fixpoint str_in (needle hay : str) : bool :=
  startswith hay needle ||
  match hay with
  | [] => false
  | _ :: hay' => str_in needle hay'
  end.

(** [hay.count(needle)]: occurrences that do not overlap, scanning from
    the left; [skip] characters of the last occurrence remain to be
    passed. *)
Fixpoint count_from (needle hay : str) (skip : nat) : Z :=
  match hay with
  | [] => match needle, skip with [], O => 1 | _, _ => 0 end
  | _ :: hay' =>
      match skip with
      | S k => count_from needle hay' k
      | O =>
          if startswith hay needle
          then 1 + count_from needle hay' (length needle - 1)
          else count_from needle hay' 0
      end
  end.

Definition str_count (hay needle : str) : Z := count_from needle hay 0.

(** [l[-n:]] for [n > 0] and [l[:-1]], [l[-1]]. *)
Definition last_n {A} (n : nat) (l : list A) : list A :=
  drop (length l - n) l.

Definition but_last {A} (l : list A) : list A :=
  take (length l - 1) l.

(** Truth value of an [int]. *)
Definition truthy (n : Z) : bool := negb (n =? 0).

(** Exceptions that the modelled code can raise; [OSError], with its
    subclasses, is one that a lookup in the time zone database can end
    with. *)
Inductive exn : Type :=
| ZeroDivisionError
| OverflowError
| ValueError
| OSError.

Inductive outcome (A : Type) : Type :=
| Returned (a : A)
| Raised (e : exn).
Arguments Returned {A} a.
Arguments Raised {A} e.

(** [datetime] and [timedelta], in microseconds. *)
Definition datetime := Z.
Definition timedelta := Z.

(** The constructor [dt.timedelta(...)], for a whole number of
    microseconds: the value is normalised to days, seconds and
    microseconds, and the days must lie between -999999999 and 999999999;
    otherwise the constructor raises [OverflowError]. *)
Definition timedelta_of_microseconds (microseconds : Z) : outcome timedelta :=
  let days := microseconds / 86400000000 in
  if (-999999999 <=? days) && (days <=? 999999999)
  then Returned microseconds
  else Raised OverflowError.

(** [dt.timedelta(seconds=s)], [dt.timedelta(minutes=m)] and
    [dt.timedelta(hours=h)] for [int] arguments. *)
Definition timedelta_seconds (s : Z) : outcome timedelta :=
  timedelta_of_microseconds (s * 1000000).
Definition timedelta_minutes (m : Z) : outcome timedelta :=
  timedelta_of_microseconds (m * 60000000).
Definition timedelta_hours (h : Z) : outcome timedelta :=
  timedelta_of_microseconds (h * 3600000000).

(** [sys.maxsize] of a 64-bit build of CPython: the largest [Py_ssize_t]. *)
Definition sys_maxsize : Z := 9223372036854775807.

(** The library functions the analysis module calls.  Their tables
    (Unicode data, the regular-expression engine, [difflib]) are not part
    of the repository; every result below holds for all of them. *)
Record Runtime : Type := {
  unicodedata_normalize_NFKD : str -> str;
  unicodedata_category : N -> str;
  str_lower : str -> str;
  str_strip : str -> str;
  (** [re.sub(r"\s+", " ", text)] *)
  re_sub_spaces : str -> str;
  (** [bool(URL_PATTERN.search(content))] *)
  URL_PATTERN_search : str -> bool;
  (** [SequenceMatcher(None, a, b).ratio()] *)
  SequenceMatcher_ratio : str -> str -> float
}.

End Py.
Import Py.

(* ===================================================================== *)
(** ** bot/utils/message_analysis.py *)
(* ===================================================================== *)

(** What the detector reads of a [discord.Member]. *)
Record Member : Type := {
  member_id : Z;
  created_at : datetime;
  joined_at : option datetime
}.

(** [message.author] is a [discord.Member] or a plain [discord.User]. *)
Inductive Author : Type :=
| AuthorMember (m : Member)
| AuthorUser (user_id : Z).

(** What the detector reads of a [discord.Message]; [guild] holds
  [message.guild.id] when the message has a guild. *)
Record Message : Type := {
  guild : option Z;
  author : Author;
  content : str;
  mention_everyone : bool;
  mentions : list Z;
  role_mentions : list Z
}.

Section MessageAnalysis.

Context (rt : Runtime).

Definition normalize_content (content : str) : str :=
  let text := unicodedata_normalize_NFKD rt content in
  let text :=
    List.filter (fun ch => negb (startswith (unicodedata_category rt ch) (u8 "C"))) text in
  let text := str_strip rt (str_lower rt text) in
  let text := re_sub_spaces rt text in
  text.

Definition contains_link (content : str) : bool :=
  URL_PATTERN_search rt content.

Definition count_mentions (message : Message) : Z :=
  let count := len (mentions message) + len (role_mentions message) in
  let count := if mention_everyone message then count + 1 else count in
  let count :=
    count + (str_count (content message) (u8 "@everyone")
             + str_count (content message) (u8 "@here")) in
  count.

Definition is_similar (a b : str) (threshold : float) : bool :=
  PrimFloat.leb threshold (SequenceMatcher_ratio rt a b).

End MessageAnalysis.

(** The default [threshold=0.9] of [is_similar] and the [threshold=0.85]
    the detector passes: the binary64 values of the two literals. *)
Definition threshold_0_9 : float := 0x1.ccccccccccccdp-1%float.
Definition threshold_0_85 : float := 0x1.b333333333333p-1%float.

(* ===================================================================== *)
(** ** bot/services/violation_tracker.py *)
(* ===================================================================== *)

Record ViolationRecord : Type := {
  count : Z;
  last_triggered : datetime;
  last_decay_check : datetime
}.

Record ViolationTracker : Type := {
  _records : gmap (Z * Z) ViolationRecord;
  _decay_after : timedelta
}.

Module ViolationTracker.

(** [__init__(self, decay_hours=24)]: no tracker comes to be when the
    constructor of the decay period raises. *)
Definition init (decay_hours : Z) : outcome ViolationTracker :=
  match timedelta_hours decay_hours with
  | Returned decay_after =>
      Returned {| _records := ∅; _decay_after := decay_after |}
  | Raised e => Raised e
  end.

Definition default_decay_hours : Z := 24.

(** The first [if record:] block: the strikes decay in place.  A dataclass
    instance is always true, so the test is [record is not None].  The
    floor division of two [timedelta]s raises when the divisor is zero. *)
Definition decay (self : ViolationTracker) (now : datetime)
    (record : option ViolationRecord) : outcome (option ViolationRecord) :=
  match record with
  | Some r =>
      let elapsed := now - last_decay_check r in
      if _decay_after self <=? elapsed then
        if _decay_after self =? 0 then Raised ZeroDivisionError
        else
          let decay_steps := elapsed / _decay_after self in
          Returned (Some {| count := Z.max 0 (count r - decay_steps);
                            last_triggered := last_triggered r;
                            last_decay_check := now |})
      else Returned (Some r)
  | None => Returned None
  end.

(** [increment(self, guild_id, user_id)]; [now] is what
    [dt.datetime.utcnow()] returns at its first line. *)
Definition increment (self : ViolationTracker) (guild_id user_id : Z)
    (now : datetime) : outcome Z * ViolationTracker :=
  let key := (guild_id, user_id) in
  let record := _records self !! key in
  match decay self now record with
  | Raised e => (Raised e, self)
  | Returned record =>
      let record :=
        match record with
        | None => {| count := 0; last_triggered := now; last_decay_check := now |}
        | Some r =>
            if count r <=? 0
            then {| count := 0; last_triggered := now; last_decay_check := now |}
            else r
        end in
      let record := {| count := count record + 1;
                       last_triggered := now;
                       last_decay_check := last_decay_check record |} in
      (Returned (count record),
       {| _records := <[key := record]> (_records self);
          _decay_after := _decay_after self |})
  end.

(** [reset(self, guild_id, user_id)]: [pop] with a default never raises. *)
Definition reset (self : ViolationTracker) (guild_id user_id : Z) : ViolationTracker :=
  {| _records := delete (guild_id, user_id) (_records self);
     _decay_after := _decay_after self |}.

End ViolationTracker.

(* ===================================================================== *)
(** ** bot/services/config_service.py: the settings snapshot *)
(* ===================================================================== *)

Record GuildSettings : Type := {
  guild_id : Z;
  enabled : bool;
  spam_limit : Z;
  time_window : Z;
  link_block : bool;
  mention_limit : Z;
  new_user_minutes : Z;
  exception_keywords : list str;
  currency_report_enabled : bool;
  currency_report_channel_id : option Z
}.

(* ===================================================================== *)
(** ** bot/services/spam_detector.py *)
(* ===================================================================== *)

Inductive SpamActionType : Type := NONE | WARN | DELETE | TIMEOUT | KICK.

(** The [str] value of each member of the enumeration. *)
Definition SpamActionType_value (a : SpamActionType) : str :=
  match a with
  | NONE => u8 "none"
  | WARN => u8 "warn"
  | DELETE => u8 "delete"
  | TIMEOUT => u8 "timeout"
  | KICK => u8 "kick"
  end.

(** A member of a [str]-mixed enumeration is true when its value is not the
    empty string. *)
Definition SpamActionType_bool (a : SpamActionType) : bool :=
  match SpamActionType_value a with [] => false | _ :: _ => true end.

(** [forced_action or other], with [forced_action : Optional[SpamActionType]]. *)
Definition forced_or (forced_action : option SpamActionType)
    (other : SpamActionType) : SpamActionType :=
  match forced_action with
  | Some a => if SpamActionType_bool a then a else other
  | None => other
  end.

Record SpamAction : Type := {
  action : SpamActionType;
  reason : str;
  details : option str;
  violation_count : Z
}.

Record MessageRecord : Type := {
  timestamp : datetime;
  rec_content : str;
  normalized : str
}.

(** [collections.deque] with a [maxlen]. *)
Record deque (A : Type) : Type := {
  items : list A;
  maxlen : Z
}.
Arguments items {A} d.
Arguments maxlen {A} d.

Module Deque.

(** [deque(maxlen=n)]: [n] is converted to a [Py_ssize_t], which raises
    [OverflowError] when it does not fit, and must not be negative. *)
Definition new {A} (n : Z) : outcome (deque A) :=
  if (n <? - sys_maxsize - 1) || (sys_maxsize <? n) then Raised OverflowError
  else if n <? 0 then Raised ValueError
  else Returned {| items := []; maxlen := n |}.

(** [d.append(x)]: the item is added on the right, and a deque that has
    grown past [maxlen] drops its leftmost item. *)
Definition append {A} (d : deque A) (x : A) : deque A :=
  let items' := items d ++ [x] in
  {| items := if maxlen d <? len items' then tail items' else items';
     maxlen := maxlen d |}.

(** [d.popleft()] on a deque that is not empty. *)
Definition popleft {A} (d : deque A) : deque A :=
  {| items := tail (items d); maxlen := maxlen d |}.

End Deque.

Record SpamDetector : Type := {
  _violation_tracker : ViolationTracker;
  _history : gmap (Z * Z) (deque MessageRecord)
}.

(** The values [dt.datetime.utcnow()] returns during one call of
    [register_message]: at its line 50, inside [_detect_violation] and
    inside [ViolationTracker.increment]. *)
Record Clock : Type := {
  utcnow_register : datetime;
  utcnow_detect : datetime;
  utcnow_increment : datetime
}.

(** The reasons, as the source spells them. *)
Definition REASON_MASS_MENTION : str := u8 "대량 멘션(@everyone/@here) 사용".
Definition REASON_FLOOD : str := u8 "메시지 도배 감지".
Definition REASON_MENTION_SPAM : str := u8 "멘션 스팸 감지".
Definition REASON_DUPLICATE : str := u8 "동일/유사 메시지 반복".
Definition REASON_AI_SIMILARITY : str := u8 "AI 유사도 스팸 감지".
Definition REASON_NEW_ACCOUNT : str := u8 "신규 계정 보호 정책 위반".

(** The loop [while history and now - history[0].timestamp > window:
    history.popleft()], on the items of the deque. *)
Fixpoint prune (now : datetime) (window : timedelta)
    (l : list MessageRecord) : list MessageRecord :=
  match l with
  | [] => []
  | head :: rest =>
      if window <? now - timestamp head then prune now window rest else l
  end.

Section Detector.

Context (rt : Runtime).

Definition _has_duplicate_content (history : deque MessageRecord) : bool :=
  if len (items history) <? 3 then false
  else
    let recent := last_n 3 (items history) in
    match last recent with
    | None => false (* not reached: [recent] has three items *)
    | Some newest =>
        let base := normalized newest in
        let duplicates :=
          len (List.filter
                 (fun record => is_similar rt base (normalized record) threshold_0_9)
                 (but_last recent)) in
        2 <=? duplicates
    end.

Definition _has_ai_like_similarity (history : deque MessageRecord) : bool :=
  if len (items history) <? 4 then false
  else
    let recent := last_n 4 (items history) in
    match last recent with
    | None => false (* not reached: [recent] has four items *)
    | Some newest =>
        let target := normalized newest in
        let similarity_hits :=
          fold_left
            (fun hits record =>
               if is_similar rt target (normalized record) threshold_0_85
               then hits + 1 else hits)
            (but_last recent) 0 in
        2 <=? similarity_hits
    end.

Fixpoint _is_ai_exempt_loop (base : str) (exception_keywords : list str) : bool :=
  match exception_keywords with
  | [] => false
  | keyword :: rest =>
      if str_in (str_lower rt keyword) base then true
      else _is_ai_exempt_loop base rest
  end.

Definition _is_ai_exempt (content : str) (exception_keywords : list str) : bool :=
  let base := str_lower rt content in
  _is_ai_exempt_loop base exception_keywords.

Definition _action_for_count (count : Z) : SpamActionType :=
  if count <=? 1 then WARN
  else if count =? 2 then DELETE
  else if count =? 3 then TIMEOUT
  else KICK.

(** [_detect_violation(self, message, history, config)]; [now] is the value
    of [dt.datetime.utcnow()] at its line 103.  The only line that can
    raise is line 110, the constructor of [min_age]. *)
Definition _detect_violation (message : Message) (history : deque MessageRecord)
    (config : GuildSettings) (now : datetime)
    : outcome (option str * option SpamActionType) :=
  if negb (enabled config) then Returned (None, None)
  else if mention_everyone message
          || str_in (u8 "@everyone") (content message)
          || str_in (u8 "@here") (content message)
  then Returned (Some REASON_MASS_MENTION, Some TIMEOUT)
  else if spam_limit config <? len (items history)
  then Returned (Some REASON_FLOOD, None)
  else
    let has_link := contains_link rt (content message) in
    let mentions := count_mentions message in
    if truthy (mention_limit config) && (mention_limit config <=? mentions)
    then Returned (Some REASON_MENTION_SPAM, None)
    else if _has_duplicate_content history
    then Returned (Some REASON_DUPLICATE, None)
    else if negb (_is_ai_exempt (content message) (exception_keywords config))
            && _has_ai_like_similarity history
    then Returned (Some REASON_AI_SIMILARITY, None)
    else
      match author message with
      | AuthorMember member =>
          let account_age := now - created_at member in
          let join_age :=
            match joined_at member with
            | Some joined => now - joined
            | None => account_age
            end in
          match timedelta_minutes (new_user_minutes config) with
          | Raised e => Raised e
          | Returned min_age =>
              let is_new := (account_age <? min_age) || (join_age <? min_age) in
              if is_new && (has_link || (2 <=? mentions)
                            || (spam_limit config <=? len (items history)))
              then Returned (Some REASON_NEW_ACCOUNT, None)
              else Returned (None, None)
          end
      | AuthorUser _ => Returned (None, None)
      end.

(** Lines 53 to 58 of [register_message], on the entry [existing] that
    [self._history] has for the key.  The argument of [setdefault] is
    evaluated in every call, so the constructor of the deque can raise
    also when the key has a deque; the record is appended to the deque of
    the key (the new one on first use); the constructor of [window] can
    raise after that; then the expired records are dropped from the left.
    The result is the history handed to the rules, or the exception, and
    next to it the entry that [self._history] has for the key afterwards. *)
Definition update_history (existing : option (deque MessageRecord))
    (config : GuildSettings) (now : datetime) (record : MessageRecord)
    : outcome (deque MessageRecord) * option (deque MessageRecord) :=
  match Deque.new (Z.max (spam_limit config * 2) 20) with
  | Raised e => (Raised e, existing)
  | Returned default =>
      let history :=
        match existing with
        | Some d => d
        | None => default
        end in
      let history := Deque.append history record in
      match timedelta_seconds (time_window config) with
      | Raised e => (Raised e, Some history)
      | Returned window =>
          let history :=
            {| items := prune now window (items history);
               maxlen := maxlen history |} in
          (Returned history, Some history)
      end
  end.

Definition register_message (self : SpamDetector) (message : Message)
    (config : GuildSettings) (clock : Clock)
    : outcome (option SpamAction) * SpamDetector :=
  match guild message, author message with
  | Some guild_id, AuthorMember author =>
      let key := (guild_id, member_id author) in
      let now := utcnow_register clock in
      let normalized := normalize_content rt (content message) in
      let '(history, stored) :=
        update_history (_history self !! key) config now
          {| timestamp := now; rec_content := content message;
             normalized := normalized |} in
      let histories :=
        match stored with
        | Some d => <[key := d]> (_history self)
        | None => _history self
        end in
      match history with
      | Raised e =>
          (Raised e,
           {| _violation_tracker := _violation_tracker self;
              _history := histories |})
      | Returned history =>
          match _detect_violation message history config (utcnow_detect clock) with
          | Raised e =>
              (Raised e,
               {| _violation_tracker := _violation_tracker self;
                  _history := histories |})
          | Returned (None, _) =>
              (Returned None,
               {| _violation_tracker := _violation_tracker self;
                  _history := histories |})
          | Returned (Some violation_reason, forced_action) =>
              match ViolationTracker.increment (_violation_tracker self)
                      guild_id (member_id author) (utcnow_increment clock) with
              | (Raised e, tracker) =>
                  (Raised e,
                   {| _violation_tracker := tracker; _history := histories |})
              | (Returned count, tracker) =>
                  let action_type :=
                    forced_or forced_action (_action_for_count count) in
                  (Returned (Some {| action := action_type;
                                     reason := violation_reason;
                                     details := Some (take 200 (content message));
                                     violation_count := count |}),
                   {| _violation_tracker := tracker; _history := histories |})
              end
          end
      end
  | _, _ => (Returned None, self)
  end.

Definition reset_user (self : SpamDetector) (guild_id user_id : Z) : SpamDetector :=
  {| _violation_tracker :=
       ViolationTracker.reset (_violation_tracker self) guild_id user_id;
     _history := _history self |}.

End Detector.

(** [SpamDetector.__init__] *)
Definition SpamDetector_init (violation_tracker : ViolationTracker) : SpamDetector :=
  {| _violation_tracker := violation_tracker; _history := ∅ |}.

(* ===================================================================== *)
(** ** A runtime for ASCII text, to evaluate the detector on examples *)
(* ===================================================================== *)

Module AsciiRuntime.

Definition is_space (c : N) : bool :=
  ((9 <=? c) && (c <=? 13) || (28 <=? c) && (c <=? 32))%N.

Definition is_control (c : N) : bool := ((c <? 32) || (c =? 127))%N.

Definition category (c : N) : str :=
  if is_control c then u8 "Cc"
  else if (c =? 32)%N then u8 "Zs"
  else if ((48 <=? c) && (c <=? 57))%N then u8 "Nd"
  else if ((65 <=? c) && (c <=? 90))%N then u8 "Lu"
  else if ((97 <=? c) && (c <=? 122))%N then u8 "Ll"
  else u8 "Po".

Definition lower_char (c : N) : N :=
  if ((65 <=? c) && (c <=? 90))%N then (c + 32)%N else c.

Definition lower (s : str) : str := map lower_char s.

Fixpoint lstrip (s : str) : str :=
  match s with
  | c :: s' => if is_space c then lstrip s' else s
  | [] => []
  end.

Definition strip (s : str) : str := rev (lstrip (rev (lstrip s))).

(** Every run of white space becomes one space; [in_run] tells that the
    previous character was white space. *)
Fixpoint collapse (s : str) (in_run : bool) : str :=
  match s with
  | [] => []
  | c :: s' =>
      if is_space c
      then if in_run then collapse s' true else 32%N :: collapse s' true
      else c :: collapse s' false
  end.

(** A prefix of the pattern followed by one character that is not white
    space, at some position, ignoring case. *)
Definition link_at (s : str) : bool :=
  existsb
    (fun p =>
       startswith s p &&
       match drop (length p) s with
       | c :: _ => negb (is_space c)
       | [] => false
       end)
    [u8 "http://"; u8 "https://"; u8 "www."; u8 "discord.gg/"].

Fixpoint search (s : str) : bool :=
  link_at s || match s with [] => false | _ :: s' => search s' end.

(** The ratio of two equal strings is [1.0]; that of two strings without a
    common character is [0.0].  Other pairs are outside this runtime. *)
Definition ratio (a b : str) : float :=
  if decide (a = b) then 1%float else 0%float.

Definition runtime : Runtime :=
  {| unicodedata_normalize_NFKD := fun s => s;
     unicodedata_category := category;
     str_lower := lower;
     str_strip := strip;
     re_sub_spaces := fun s => collapse s false;
     URL_PATTERN_search := fun s => search (lower s);
     SequenceMatcher_ratio := ratio |}.

End AsciiRuntime.

(* ===================================================================== *)
(** ** Sequences of calls *)
(* ===================================================================== *)

(** What reaches the detector: a message with the settings fetched for it,
    or a moderator's pardon. *)
Inductive event : Type :=
| Register (message : Message) (config : GuildSettings) (clock : Clock)
| Reset (guild_id user_id : Z).

(** The key [(guild.id, author.id)] of a message that passes the guard of
    [register_message]. *)
Definition call_key (message : Message) : option (Z * Z) :=
  match guild message, author message with
  | Some guild_id, AuthorMember author => Some (guild_id, member_id author)
  | _, _ => None
  end.

(** The capacity a buffer gets from the settings that create it, and
    whether the constructor of the deque accepts it (it is at least 20, so
    only [sys.maxsize] matters). *)
Definition capacity (config : GuildSettings) : Z :=
  Z.max (spam_limit config * 2) 20.

Definition capacity_fits (config : GuildSettings) : bool :=
  capacity config <=? sys_maxsize.

Section Runs.

Context (rt : Runtime).

(** The record [register_message] appends for a message. *)
Definition new_record (message : Message) (clock : Clock) : MessageRecord :=
  {| timestamp := utcnow_register clock;
     rec_content := content message;
     normalized := normalize_content rt (content message) |}.

(** The history that the rules of one call see, when lines 53 to 58 get
    that far, and the entry of the key after these lines. *)
Definition history_seen (self : SpamDetector) (key : Z * Z) (message : Message)
    (config : GuildSettings) (clock : Clock) : outcome (deque MessageRecord) :=
  fst (update_history (_history self !! key) config (utcnow_register clock)
         (new_record message clock)).

Definition history_stored (self : SpamDetector) (key : Z * Z) (message : Message)
    (config : GuildSettings) (clock : Clock) : option (deque MessageRecord) :=
  snd (update_history (_history self !! key) config (utcnow_register clock)
         (new_record message clock)).

(** The deque that line 54 appends to: the one of the key, or a new one
    with the capacity of the settings. *)
Definition working_deque (self : SpamDetector) (key : Z * Z)
    (config : GuildSettings) : deque MessageRecord :=
  match _history self !! key with
  | Some d => d
  | None => {| items := []; maxlen := capacity config |}
  end.

Definition step (self : SpamDetector) (e : event) : SpamDetector :=
  match e with
  | Register message config clock =>
      snd (register_message rt self message config clock)
  | Reset guild_id user_id => reset_user self guild_id user_id
  end.

Definition run (self : SpamDetector) (events : list event) : SpamDetector :=
  fold_left step events self.

(** The records appended to the buffer of [key], oldest first: one for
    each call for the key that gets past line 53. *)
Fixpoint appended (key : Z * Z) (events : list event) : list MessageRecord :=
  match events with
  | [] => []
  | Register message config clock :: rest =>
      if decide (call_key message = Some key)
      then if capacity_fits config
           then new_record message clock :: appended key rest
           else appended key rest
      else appended key rest
  | Reset _ _ :: rest => appended key rest
  end.

(** The settings of the first call for [key] that gets past line 53: the
    call that creates the buffer of the key. *)
Fixpoint first_config (key : Z * Z) (events : list event) : option GuildSettings :=
  match events with
  | [] => None
  | Register message config _ :: rest =>
      if decide (call_key message = Some key)
      then if capacity_fits config then Some config else first_config key rest
      else first_config key rest
  | Reset _ _ :: rest => first_config key rest
  end.

(** The items of an entry of [self._history], and of the buffer of [key];
    a key without a buffer has none. *)
Definition entry_items (entry : option (deque MessageRecord)) : list MessageRecord :=
  match entry with
  | Some d => items d
  | None => []
  end.

Definition buffer (self : SpamDetector) (key : Z * Z) : list MessageRecord :=
  match _history self !! key with
  | Some d => items d
  | None => []
  end.

(** No call for [key] among the events is answered with an action: the
    key's messages trigger nothing while the events run from [self]. *)
Fixpoint quiet (key : Z * Z) (self : SpamDetector) (events : list event) : bool :=
  match events with
  | [] => true
  | e :: rest =>
      match e with
      | Register message config clock =>
          if decide (call_key message = Some key)
          then match fst (register_message rt self message config clock) with
               | Returned (Some _) => false
               | _ => true
               end
          else true
      | Reset _ _ => true
      end
      && quiet key (step self e) rest
  end.

End Runs.

(* ===================================================================== *)
(** ** Notions used by the statements *)
(* ===================================================================== *)

(** The count the decay step of the design leaves: [floor(elapsed /
    decayPeriod)] strikes fewer, never below zero, once a whole period has
    passed since the last check. *)
Definition decayed_count (decayPeriod : timedelta) (now : datetime)
    (r : ViolationRecord) : Z :=
  let elapsed := now - last_decay_check r in
  if decayPeriod <=? elapsed
  then Z.max 0 (count r - elapsed / decayPeriod)
  else count r.

Definition decay_check_after (decayPeriod : timedelta) (now : datetime)
    (r : ViolationRecord) : datetime :=
  if decayPeriod <=? now - last_decay_check r then now else last_decay_check r.

(** The invariant of the map of records: no stored count is below one. *)
Definition counts_positive (T : ViolationTracker) : Prop :=
  ∀ k r, _records T !! k = Some r → 1 ≤ count r.

Section Rules.

Context (rt : Runtime).

(** The conditions of the six rules, as [_detect_violation] tests them. *)
Definition mass_mention_rule (message : Message) : bool :=
  mention_everyone message
  || str_in (u8 "@everyone") (content message)
  || str_in (u8 "@here") (content message).

Definition flood_rule (history : deque MessageRecord) (config : GuildSettings) : bool :=
  spam_limit config <? len (items history).

Definition mention_spam_rule (message : Message) (config : GuildSettings) : bool :=
  truthy (mention_limit config) && (mention_limit config <=? count_mentions message).

Definition near_duplicate_rule (message : Message) (history : deque MessageRecord)
    (config : GuildSettings) : bool :=
  negb (_is_ai_exempt rt (content message) (exception_keywords config))
  && _has_ai_like_similarity rt history.

Definition account_age (now : datetime) (member : Member) : timedelta :=
  now - created_at member.

Definition join_age (now : datetime) (member : Member) : timedelta :=
  match joined_at member with
  | Some joined => now - joined
  | None => account_age now member
  end.

(** The second half of the new-member test: a link, two mentions or a
    history as long as the limit. *)
Definition new_member_offence (message : Message) (history : deque MessageRecord)
    (config : GuildSettings) : bool :=
  contains_link rt (content message)
  || (2 <=? count_mentions message)
  || (spam_limit config <=? len (items history)).

(** The member is new: the account or the membership is younger than
    [min_age]. *)
Definition is_new (now : datetime) (member : Member) (min_age : timedelta) : bool :=
  (account_age now member <? min_age) || (join_age now member <? min_age).

(** The new-member test; it is the one test that can raise, when
    [new_user_minutes] is outside the range of [dt.timedelta]. *)
Definition new_member_rule (message : Message) (history : deque MessageRecord)
    (config : GuildSettings) (now : datetime) : outcome bool :=
  match author message with
  | AuthorMember member =>
      match timedelta_minutes (new_user_minutes config) with
      | Raised e => Raised e
      | Returned min_age =>
          Returned (is_new now member min_age
                    && new_member_offence message history config)
      end
  | AuthorUser _ => Returned false
  end.

(** The design's dispatch: the rules in their fixed order, each with its
    reason and the action it forces.  The tests are made in that order;
    the first one that holds gives the answer, and a test that raises ends
    the call. *)
Definition rule_table (message : Message) (history : deque MessageRecord)
    (config : GuildSettings) (now : datetime)
    : list (outcome bool * (str * option SpamActionType)) :=
  [ (Returned (mass_mention_rule message), (REASON_MASS_MENTION, Some TIMEOUT));
    (Returned (flood_rule history config), (REASON_FLOOD, None));
    (Returned (mention_spam_rule message config), (REASON_MENTION_SPAM, None));
    (Returned (_has_duplicate_content rt history), (REASON_DUPLICATE, None));
    (Returned (near_duplicate_rule message history config),
     (REASON_AI_SIMILARITY, None));
    (new_member_rule message history config now, (REASON_NEW_ACCOUNT, None)) ].

Fixpoint first_match (rules : list (outcome bool * (str * option SpamActionType)))
    : outcome (option str * option SpamActionType) :=
  match rules with
  | [] => Returned (None, None)
  | (Returned true, (reason, forced)) :: _ => Returned (Some reason, forced)
  | (Returned false, _) :: rest => first_match rest
  | (Raised e, _) :: _ => Raised e
  end.

(** The near-duplicate rule in the words of the design: [keyword] occurs in
    [content] when case is ignored; two records are similar at 0.85. *)
Definition contains_keyword (content keyword : str) : Prop :=
  str_in (str_lower rt keyword) (str_lower rt content) = true.



End Rules.

(** The timestamps of a list of records never decrease from left to
    right: each record is no later than its right neighbour. *)
Fixpoint timestamps_nondecreasing (l : list MessageRecord) : bool :=
  match l with
  | a :: rest =>
      match rest with
      | b :: _ => (timestamp a <=? timestamp b) && timestamps_nondecreasing rest
      | [] => true
      end
  | [] => true
  end.

(* ===================================================================== *)
(** ** Example data *)
(* ===================================================================== *)

Module Examples.

Definition rt : Runtime := AsciiRuntime.runtime.

Definition settings (on : bool) (limit : Z) : GuildSettings :=
  {| guild_id := 1;
     enabled := on;
     spam_limit := limit;
     time_window := 7;
     link_block := true;
     mention_limit := 5;
     new_user_minutes := 10;
     exception_keywords := [u8 "notice"];
     currency_report_enabled := false;
     currency_report_channel_id := None |}.

(** Member 7 of guild 1, with an old account; member 8 has no joined-at. *)
Definition veteran : Member :=
  {| member_id := 7; created_at := 0; joined_at := Some 0 |}.

Definition no_join_date : Member :=
  {| member_id := 8; created_at := 0; joined_at := None |}.

Definition text_from (m : Member) (s : string) : Message :=
  {| guild := Some 1;
     author := AuthorMember m;
     content := u8 s;
     mention_everyone := false;
     mentions := [];
     role_mentions := [] |}.

Definition text (s : string) : Message := text_from veteran s.

Definition key : Z * Z := (1, 7).

(** 2026-01-01 00:00:00 UTC, and a clock that reads [ms] milliseconds
    later at each of its three readings. *)
Definition t0 : datetime := 1767225600000000.

Definition at_ms (ms : Z) : Clock :=
  let t := t0 + ms * 1000 in
  {| utcnow_register := t; utcnow_detect := t; utcnow_increment := t |}.

(** The tracker that [ViolationTracker()] builds: no records and a decay
    period of 24 hours; and the detector that [create_bot] builds on it. *)
Definition default_tracker : ViolationTracker :=
  {| _records := ∅; _decay_after := 86400000000 |}.

Definition start : SpamDetector := SpamDetector_init default_tracker.

(** A deque without records, of capacity 20. *)
Definition empty_history : deque MessageRecord :=
  {| items := []; maxlen := 20 |}.

(** The value of an outcome that is known to be a return. *)
Definition returned {A} (default : A) (o : outcome A) : A :=
  match o with
  | Returned a => a
  | Raised _ => default
  end.

(** [n] messages of the veteran, 100 ms apart, with the one-letter texts
    "a", "b", ... and the given limit. *)
Definition burst (n : nat) (limit : Z) : list event :=
  map (fun i : nat =>
         Register (text (String (ascii_of_nat (97 + i)) EmptyString))
           (settings true limit) (at_ms (Z.of_nat i * 100)))
      (seq 0 n).

(** "aaa", "aaa", "bbb" and then "aaa" again. *)
Definition echo : list event :=
  [ Register (text "aaa") (settings true 5) (at_ms 0);
    Register (text "aaa") (settings true 5) (at_ms 100);
    Register (text "bbb") (settings true 5) (at_ms 200) ].

Definition echo_history : deque MessageRecord :=
  returned empty_history
    (history_seen rt (run rt start echo) key (text "aaa") (settings true 5)
       (at_ms 300)).

(** The buffer of the veteran after six messages under limit 5. *)
Definition six_deep : deque MessageRecord :=
  returned empty_history
    (history_seen rt (run rt start (burst 5 5)) key (text "f") (settings true 5)
       (at_ms 500)).

End Examples.

(* ===================================================================== *)
(** ** bot/bot.py: the points logged for an action *)
(* ===================================================================== *)

(** [SpamGuardBot._points_for_action] *)
Definition _points_for_action (action : SpamActionType) : Z :=
  match action with
  | WARN => 1
  | DELETE => 1
  | TIMEOUT => 3
  | KICK => 5
  | NONE => 0
  end.

(* ===================================================================== *)
(** ** bot/utils/permissions.py and bot/events/message_events.py *)
(* ===================================================================== *)

Record Permissions : Type := {
  administrator : bool;
  manage_guild : bool;
  manage_messages : bool;
  kick_members : bool
}.

(** What [is_privileged] and [_process_message] read of [message.author]
    beyond the fields of [Member]: the [bot] flag, the permissions in the
    guild, and [member.guild.owner_id] ([member_guild] is [None] when the
    member has no guild, [Some None] when the guild has no owner id). *)
Record AuthorContext : Type := {
  bot : bool;
  guild_permissions : Permissions;
  member_guild : option (option Z)
}.

Definition is_privileged (member : Member) (ctx : AuthorContext) : bool :=
  let perms := guild_permissions ctx in
  if match member_guild ctx with
     | Some owner_id => bool_decide (owner_id = Some (member_id member))
     | None => false
     end
  then true
  else administrator perms || manage_guild perms
       || manage_messages perms || kick_members perms.

(** [_process_message(bot, message)] up to the call of
    [bot.process_spam_action]: the result is the action handed to it, if
    any, and the detector afterwards.  [settings] is what
    [bot.fetch_guild_settings] returns for the guild. *)
Definition _process_message (rt : Runtime) (detector : SpamDetector)
    (message : Message) (ctx : AuthorContext) (settings : GuildSettings)
    (clock : Clock) : outcome (option SpamAction) * SpamDetector :=
  if match guild message with None => true | Some _ => false end || bot ctx
  then (Returned None, detector)
  else
    match author message with
    | AuthorUser _ => (Returned None, detector)
    | AuthorMember member =>
        if is_privileged member ctx then (Returned None, detector)
        else register_message rt detector message settings clock
    end.

(** A message as it is delivered to [on_message]. *)
Record delivery : Type := {
  d_message : Message;
  d_context : AuthorContext;
  d_settings : GuildSettings;
  d_clock : Clock
}.

Definition deliver (rt : Runtime) (detector : SpamDetector) (d : delivery)
    : SpamDetector :=
  snd (_process_message rt detector (d_message d) (d_context d)
         (d_settings d) (d_clock d)).

Definition deliver_all (rt : Runtime) (detector : SpamDetector)
    (ds : list delivery) : SpamDetector :=
  fold_left (deliver rt) ds detector.

(* ===================================================================== *)
(** ** bot/services/config_service.py: the exception keywords *)
(* ===================================================================== *)

(** [s.split(sep)] for a separator of one character; [part] holds the
    characters of the current part, last first. *)
Fixpoint split_from (sep : N) (s : str) (part : str) : list str :=
  match s with
  | [] => [rev part]
  | c :: s' =>
      if (c =? sep)%N then rev part :: split_from sep s' []
      else split_from sep s' (c :: part)
  end.

Definition str_split (s : str) (sep : N) : list str := split_from sep s [].

(** [sep.join(parts)] *)
Fixpoint str_join (sep : str) (parts : list str) : str :=
  match parts with
  | [] => []
  | [p] => p
  | p :: rest => p ++ sep ++ str_join sep rest
  end.

(** The comma. *)
Definition comma : N := 44%N.

(** Truth value of a [str]. *)
Definition str_bool (s : str) : bool :=
  match s with [] => false | _ :: _ => true end.

Definition _split_keywords (rt : Runtime) (raw : option str) : list str :=
  match raw with
  | None => []
  | Some raw =>
      if negb (str_bool raw) then []
      else
        map (str_strip rt)
          (List.filter (fun part => str_bool (str_strip rt part))
             (str_split raw comma))
  end.

(** The argument of [_join_keywords]: [None], a [str], or a list or tuple
    of keywords. *)
Inductive keywords_arg : Type :=
| KeywordsNone
| KeywordsStr (s : str)
| KeywordsSeq (l : list str).

Definition _join_keywords (rt : Runtime) (keywords : keywords_arg) : str :=
  match keywords with
  | KeywordsNone => []
  | KeywordsStr s => s
  | KeywordsSeq l =>
      str_join [comma]
        (map (str_strip rt)
           (List.filter (fun k => str_bool (str_strip rt k)) l))
  end.

(** The row of [db/models.py] that [GuildSettings.from_model] reads. *)
Module Model.

Record GuildConfig : Type := {
  guild_id : Z;
  enabled : bool;
  spam_limit : Z;
  time_window : Z;
  link_block : bool;
  mention_limit : Z;
  new_user_minutes : Z;
  exception_keywords : option str;
  currency_report_enabled : bool;
  currency_report_channel_id : option Z
}.

End Model.

(** [GuildSettings.from_model] *)
Definition from_model (rt : Runtime) (model : Model.GuildConfig) : GuildSettings :=
  {| guild_id := Model.guild_id model;
     enabled := Model.enabled model;
     spam_limit := Model.spam_limit model;
     time_window := Model.time_window model;
     link_block := Model.link_block model;
     mention_limit := Model.mention_limit model;
     new_user_minutes := Model.new_user_minutes model;
     exception_keywords := _split_keywords rt (Model.exception_keywords model);
     currency_report_enabled := Model.currency_report_enabled model;
     currency_report_channel_id := Model.currency_report_channel_id model |}.

(* ===================================================================== *)
(** ** Further notions used by the statements *)
(* ===================================================================== *)

(** Successive calls of [increment] for one key, at the given times. *)
Fixpoint increments (self : ViolationTracker) (guild_id user_id : Z)
    (times : list datetime) : list (outcome Z) * ViolationTracker :=
  match times with
  | [] => ([], self)
  | now :: rest =>
      let '(result, self) := ViolationTracker.increment self guild_id user_id now in
      let '(results, self) := increments self guild_id user_id rest in
      (result :: results, self)
  end.

(** A record lies in the window that ends at [now]. *)
Definition in_window (now : datetime) (window : timedelta)
    (r : MessageRecord) : bool :=
  now - timestamp r <=? window.

(** The records of a log that lie in the window ending at the newest
    record, cut down to the [cap] most recent ones. *)
Definition window_view (cap : Z) (window : timedelta)
    (log : list MessageRecord) : list MessageRecord :=
  match last log with
  | None => []
  | Some newest =>
      last_n (Z.to_nat cap)
        (List.filter (in_window (timestamp newest) window) log)
  end.

(** Every call for [key] among the events comes with the same
    [time_window]. *)
Fixpoint constant_window (key : Z * Z) (seconds : Z) (events : list event) : bool :=
  match events with
  | [] => true
  | Register message config _ :: rest =>
      (if decide (call_key message = Some key)
       then time_window config =? seconds else true)
      && constant_window key seconds rest
  | Reset _ _ :: rest => constant_window key seconds rest
  end.

(** Two records are similar at the default threshold 0.9. *)
Definition similar_0_9 (rt : Runtime) (newest other : MessageRecord) : bool :=
  PrimFloat.leb threshold_0_9
    (SequenceMatcher_ratio rt (normalized newest) (normalized other)).

(** The number of records at the left of a list that have left the window
    ending at [now]: what the pruning loop pops. *)
Fixpoint expired_prefix (now : datetime) (window : timedelta)
    (l : list MessageRecord) : nat :=
  match l with
  | [] => 0
  | head :: rest =>
      if window <? now - timestamp head
      then S (expired_prefix now window rest)
      else 0
  end.

(** The time of the newest record of a log. *)
Definition newest_time (log : list MessageRecord) : datetime :=
  match last log with
  | Some newest => timestamp newest
  | None => 0
  end.

(* ===================================================================== *)
(** ** More example data *)
(* ===================================================================== *)

Module MoreExamples.

Import Examples.

(** One hour, in microseconds. *)
Definition hour : timedelta := 3600000000.

(** The default tracker after one strike of the veteran at [t0]. *)
Definition one_strike : ViolationTracker :=
  snd (ViolationTracker.increment default_tracker 1 7 t0).

(** A detector whose tracker has decay period zero, as
    [ViolationTracker(decay_hours=0)] builds it, after a flood of six
    messages of the veteran. *)
Definition zero_tracker : ViolationTracker :=
  {| _records := ∅; _decay_after := 0 |}.

Definition zero_period : SpamDetector :=
  run rt (SpamDetector_init zero_tracker) (burst 6 5).

(** The state after five quiet messages, and the answer to a sixth. *)
Definition five_deep : SpamDetector := run rt start (burst 5 5).

Definition flood_answer : SpamAction :=
  {| action := WARN; reason := REASON_FLOOD;
     details := Some (u8 "f"); violation_count := 1 |}.

(** Settings like [settings], with another mention limit, window length
    or list of exception keywords. *)
Definition settings_with (mentions_allowed window : Z) (keywords : list str)
    : GuildSettings :=
  {| guild_id := 1;
     enabled := true;
     spam_limit := 5;
     time_window := window;
     link_block := true;
     mention_limit := mentions_allowed;
     new_user_minutes := 10;
     exception_keywords := keywords;
     currency_report_enabled := false;
     currency_report_channel_id := None |}.

(** A broadcast: the flag is set and the text holds the token. *)
Definition shout : Message :=
  {| guild := Some 1;
     author := AuthorMember veteran;
     content := u8 "@everyone hi";
     mention_everyone := true;
     mentions := [];
     role_mentions := [] |}.

(** A moderator's context and an ordinary one. *)
Definition moderator : AuthorContext :=
  {| bot := false;
     guild_permissions :=
       {| administrator := false; manage_guild := false;
          manage_messages := true; kick_members := false |};
     member_guild := Some (Some 99) |}.

Definition ordinary : AuthorContext :=
  {| bot := false;
     guild_permissions :=
       {| administrator := false; manage_guild := false;
          manage_messages := false; kick_members := false |};
     member_guild := Some (Some 99) |}.

(** Six messages of the veteran, who moderates, and one of member 8. *)
Definition moderated : list delivery :=
  map (fun i : nat =>
         {| d_message := text (String (ascii_of_nat (97 + i)) EmptyString);
            d_context := moderator;
            d_settings := settings true 5;
            d_clock := at_ms (Z.of_nat i * 100) |})
      (seq 0 6)
  ++ [ {| d_message := text_from no_join_date "hello";
          d_context := ordinary;
          d_settings := settings true 5;
          d_clock := at_ms 700 |} ].

(** A row whose keywords were stored from the list ["notice"; "event"]. *)
Definition two_keywords : list str := [u8 "notice"; u8 "event"].

Definition stored_row : Model.GuildConfig :=
  {| Model.guild_id := 1;
     Model.enabled := true;
     Model.spam_limit := 5;
     Model.time_window := 7;
     Model.link_block := true;
     Model.mention_limit := 5;
     Model.new_user_minutes := 10;
     Model.exception_keywords :=
       Some (_join_keywords rt (KeywordsSeq two_keywords));
     Model.currency_report_enabled := false;
     Model.currency_report_channel_id := None |}.

(** After the six messages of [burst 6 5]: a message of the veteran under
    limit 50, which triggers nothing, and one of member 8. *)
Definition calm : list event :=
  [ Register (text "g") (settings true 50) (at_ms 600);
    Register (text_from no_join_date "hello") (settings true 5) (at_ms 700) ].

(** A member who joined a minute before [t0], with an old account; and
    an account created a minute before [t0], without a joined-at. *)
Definition newcomer : Member :=
  {| member_id := 9; created_at := 0; joined_at := Some (t0 - 60000000) |}.

Definition new_account : Member :=
  {| member_id := 10; created_at := t0 - 60000000; joined_at := None |}.

(** Settings of a disabled guild, with the given limit and window
    length. *)
Definition settings_sized (limit window : Z) : GuildSettings :=
  {| guild_id := 1;
     enabled := false;
     spam_limit := limit;
     time_window := window;
     link_block := true;
     mention_limit := 5;
     new_user_minutes := 10;
     exception_keywords := [];
     currency_report_enabled := false;
     currency_report_channel_id := None |}.

End MoreExamples.

(* ===================================================================== *)
(** ** bot/utils/schedule.py *)
(* ===================================================================== *)

Module Schedule.

(** [config.CurrencyReportConfig] *)
Record CurrencyReportConfig : Type := {
  enabled : bool;
  guild_id : option Z;
  channel_id : option Z;
  hour : Z;
  minute : Z;
  timezone : str;
  interval_minutes : Z;
  quote_currency : str;
  currencies : list str;
  api_url : str;
  api_key : option str
}.

(** What a function of this module can end with: a value, an exception,
    or the end of the fuel that bounds the [while] loop here. *)
Inductive result (A : Type) : Type :=
| Done (a : A)
| Failed (e : exn)
| OutOfFuel.
Arguments Done {A} a.
Arguments Failed {A} e.
Arguments OutOfFuel {A}.

(** One statement after the other: what follows runs on the value of what
    came before, and an exception ends the function. *)
#[export] Instance result_bind : MBind result := fun A B f r =>
  match r with
  | Done a => f a
  | Failed e => Failed e
  | OutOfFuel => OutOfFuel
  end.

(** [date.max.toordinal()]: the day 9999-12-31. *)
Definition date_max : Z := 3652059.

(** [date + dt.timedelta(days=n)], on the ordinals of the dates. *)
Definition date_add_days (date days : Z) : result Z :=
  let ordinal := date + days in
  if (0 <? ordinal) && (ordinal <=? date_max) then Done ordinal
  else Failed OverflowError.

Section WithTimezone.

(** The [tzinfo] objects. *)
Context {tzinfo : Type}.

(** [dt.time] with hour, minute and time zone (seconds are zero). *)
Record time : Type := {
  t_hour : Z;
  t_minute : Z;
  t_tzinfo : tzinfo
}.

(** An aware [datetime] by its fields: the date as its ordinal, the wall
    clock, [fold] and the time zone. *)
Record wall : Type := {
  w_date : Z;
  w_hour : Z;
  w_minute : Z;
  w_second : Z;
  w_microsecond : Z;
  w_fold : Z;
  w_tzinfo : tzinfo
}.

(** What [ZoneInfo(key)] ends with: a zone, the [ZoneInfoNotFoundError]
    that [_resolve_timezone] catches, or another exception, which it does
    not catch: [ValueError] for a key that is empty, absolute or not
    normalised. *)
Inductive zone_lookup : Type :=
| Zone (tz : tzinfo)
| ZoneInfoNotFoundError
| ZoneInfoRaised (e : exn).

(** The time zone library: [ZoneInfo(key)], the object that
    [dt.timezone(offset)] builds, and [aware.utcoffset()]. *)
Record TimezoneLibrary : Type := {
  ZoneInfo : str -> zone_lookup;
  fixed_offset : timedelta -> tzinfo;
  utcoffset : wall -> timedelta
}.

Context (library : TimezoneLibrary).

(** [dt.timezone(offset)]: the offset must lie strictly between minus and
    plus 24 hours. *)
Definition dt_timezone (offset : timedelta) : result tzinfo :=
  if (-86400000000 <? offset) && (offset <? 86400000000)
  then Done (fixed_offset library offset)
  else Failed ValueError.

(** [_resolve_timezone(tz_name)]; the warning it logs is left out. *)
Definition _resolve_timezone (tz_name : str) : result tzinfo :=
  match ZoneInfo library tz_name with
  | Zone tz => Done tz
  | ZoneInfoNotFoundError =>
      let fallback_hours :=
        if bool_decide (tz_name ∈ [u8 "Asia/Seoul"; u8 "KST"]) then 9 else 0 in
      match timedelta_hours fallback_hours with
      | Returned offset => dt_timezone offset
      | Raised e => Failed e
      end
  | ZoneInfoRaised e => Failed e
  end.

(** [dt.time(hour=.., minute=.., tzinfo=..)] *)
Definition dt_time (hour minute : Z) (tz : tzinfo) : result time :=
  if (0 <=? hour) && (hour <? 24) && (0 <=? minute) && (minute <? 60)
  then Done {| t_hour := hour; t_minute := minute; t_tzinfo := tz |}
  else Failed ValueError.

Definition _normalize_minutes (hour minute : Z) : Z :=
  let hour := hour mod 24 in
  let minute := minute mod 60 in
  hour * 60 + minute.

(** The key [(t.hour, t.minute)] and the order of such tuples. *)
Definition time_key (t : time) : Z * Z := (t_hour t, t_minute t).

Definition key_lt (a b : Z * Z) : bool :=
  (a.1 <? b.1) || ((a.1 =? b.1) && (a.2 <? b.2)).

(** [times.sort(key=...)]: a stable sort, here by insertion from the
    left, a new item going behind the items with the same key. *)
Fixpoint insert_time (x : time) (sorted : list time) : list time :=
  match sorted with
  | [] => [x]
  | y :: rest =>
      if key_lt (time_key x) (time_key y) then x :: sorted
      else y :: insert_time x rest
  end.

Definition sort_times (times : list time) : list time :=
  fold_left (fun sorted t => insert_time t sorted) times [].

(** The [while minutes not in seen] loop; one unit of [fuel] per
    iteration. *)
Fixpoint schedule_loop (fuel : nat) (tz : tzinfo) (interval minutes : Z)
    (seen : gset Z) (times : list time) : result (list time) :=
  if decide (minutes ∈ seen) then Done times
  else
    match fuel with
    | O => OutOfFuel
    | S fuel =>
        let seen := seen ∪ {[minutes]} in
        let hour := minutes / 60 in
        let minute := minutes mod 60 in
        t ← dt_time hour minute tz;
        let times := times ++ [t] in
        let minutes := (minutes + interval) mod (24 * 60) in
        if 24 * 60 <=? interval then Done times
        else schedule_loop fuel tz interval minutes seen times
    end.

Definition generate_schedule_times (fuel : nat) (config : CurrencyReportConfig)
    : result (list time) :=
  tz ← _resolve_timezone (timezone config);
  let interval := Z.max 1 (interval_minutes config) in
  let start_minutes := _normalize_minutes (hour config) (minute config) in
  times ← schedule_loop fuel tz interval start_minutes ∅ [];
  times ←
    match times with
    | [] =>
        t ← dt_time (hour config mod 24) (minute config mod 60) tz;
        Done [t]
    | _ :: _ => Done times
    end;
  Done (sort_times times).

(** Fuel that is enough for every configuration: a day has 1440 minutes. *)
Definition enough_fuel : nat := 1441.

(** A [datetime] object keeps its fields in range. *)
Definition wall_valid (w : wall) : Prop :=
  0 < w_date w ≤ date_max
  ∧ 0 ≤ w_hour w < 24 ∧ 0 ≤ w_minute w < 60 ∧ 0 ≤ w_second w < 60
  ∧ 0 ≤ w_microsecond w < 1000000
  ∧ 0 ≤ w_fold w ≤ 1.

(** [a > b] for two aware datetimes that carry the same [tzinfo] object:
    Python then compares the naive datetimes, field by field, and looks
    neither at the [tzinfo] nor at [fold]. *)
Definition wall_gt (a b : wall) : bool :=
  (w_date b <? w_date a)
  || ((w_date b =? w_date a)
      && ((w_hour b <? w_hour a)
          || ((w_hour b =? w_hour a)
              && ((w_minute b <? w_minute a)
                  || ((w_minute b =? w_minute a)
                      && ((w_second b <? w_second a)
                          || ((w_second b =? w_second a)
                              && (w_microsecond b <? w_microsecond a)))))))).

(** [dt.datetime.combine(date, dt.time(hour, minute, tzinfo=tz))] *)
Definition combine (date : Z) (hour minute : Z) (tz : tzinfo) : result wall :=
  t ← dt_time hour minute tz;
  Done {| w_date := date; w_hour := t_hour t; w_minute := t_minute t;
          w_second := 0; w_microsecond := 0; w_fold := 0;
          w_tzinfo := t_tzinfo t |}.

(** The [for time_obj in times] loop of [compute_next_run]: [None] when it
    ends without a [return]. *)
Fixpoint first_candidate (now : wall) (tz : tzinfo) (times : list time)
    : result (option wall) :=
  match times with
  | [] => Done None
  | time_obj :: rest =>
      candidate ← combine (w_date now) (t_hour time_obj) (t_minute time_obj) tz;
      if wall_gt candidate now then Done (Some candidate)
      else first_candidate now tz rest
  end.

(** [min(times, key=...)]: the first item with the least key; [ValueError]
    for an empty list. *)
Fixpoint min_time (times : list time) : result time :=
  match times with
  | [] => Failed ValueError
  | t :: rest =>
      match rest with
      | [] => Done t
      | _ :: _ =>
          m ← min_time rest;
          if key_lt (time_key m) (time_key t) then Done m else Done t
      end
  end.

(** [compute_next_run(config, reference)].  [now_in tz] is what line 47
    comes to, [reference.astimezone(tz)] or [dt.datetime.now(tz)]: the
    reading of the wall clock of the zone [tz], with [tz] as its
    [tzinfo], or the exception of the conversion. *)
Definition compute_next_run (fuel : nat) (config : CurrencyReportConfig)
    (now_in : tzinfo -> outcome wall) : result wall :=
  tz ← _resolve_timezone (timezone config);
  now ← match now_in tz with
        | Returned now => Done now
        | Raised e => Failed e
        end;
  times ← generate_schedule_times fuel config;
  found ← first_candidate now tz times;
  match found with
  | Some candidate => Done candidate
  | None =>
      first_time ← min_time times;
      next_day ← date_add_days (w_date now) 1;
      combine next_day (t_hour first_time) (t_minute first_time) tz
  end.

(** The minute of the day of a time. *)
Definition minute_of_day (t : time) : Z := t_hour t * 60 + t_minute t.

(** The place of a datetime on its own wall clock: the microseconds of
    the naive datetime since the start of day 0.  For two datetimes of
    one zone this is the order that [>] tests; it is the order of the
    instants only where the zone keeps one UTC offset. *)
Definition wall_micros (w : wall) : Z :=
  (((w_date w * 24 + w_hour w) * 60 + w_minute w) * 60 + w_second w) * 1000000
  + w_microsecond w.

(** The instant of an aware datetime, in microseconds of UTC. *)
Definition instant (w : wall) : Z := wall_micros w - utcoffset library w.

(** The time at minute [m] of the day. *)
Definition time_at (tz : tzinfo) (m : Z) : time :=
  {| t_hour := m / 60; t_minute := m mod 60; t_tzinfo := tz |}.

(** The place on the wall clock at which minute [m] of day [date]
    begins. *)
Definition occurrence (date m : Z) : Z := (date * 1440 + m) * 60000000.

End WithTimezone.

Arguments time tzinfo : clear implicits.
Arguments wall tzinfo : clear implicits.
Arguments zone_lookup tzinfo : clear implicits.
Arguments TimezoneLibrary tzinfo : clear implicits.

End Schedule.

(** The minute of the day that the loop of [generate_schedule_times]
    reaches in its [k]-th iteration, and the first [n] of them. *)
Definition schedule_point (start interval : Z) (k : nat) : Z :=
  (start + Z.of_nat k * interval) mod 1440.

Definition schedule_orbit (start interval : Z) (n : nat) : list Z :=
  schedule_point start interval <$> seq 0 n.

(** A time with hour and minute in range. *)
Definition time_valid {tzinfo : Type} (t : Schedule.time tzinfo) : Prop :=
  0 ≤ Schedule.t_hour t < 24 ∧ 0 ≤ Schedule.t_minute t < 60.

(** The defaults of [CurrencyReportConfig]; a time zone is named here by
    its key. *)
Module ScheduleExamples.

Definition default_config : Schedule.CurrencyReportConfig :=
  {| Schedule.enabled := true;
     Schedule.guild_id := None;
     Schedule.channel_id := None;
     Schedule.hour := 9;
     Schedule.minute := 0;
     Schedule.timezone := u8 "Asia/Seoul";
     Schedule.interval_minutes := 120;
     Schedule.quote_currency := u8 "KRW";
     Schedule.currencies := [u8 "USD"; u8 "JPY"; u8 "CNY"];
     Schedule.api_url := u8 "https://open.er-api.com/v6/latest/{base}";
     Schedule.api_key := None |}.

Definition seoul : str := u8 "Asia/Seoul".

(** A library that knows Seoul, nine hours ahead of UTC, and no other
    zone; the empty key is malformed. *)
Definition library : Schedule.TimezoneLibrary str :=
  {| Schedule.ZoneInfo := fun key =>
       if decide (key = seoul) then Schedule.Zone key
       else if decide (key = []) then Schedule.ZoneInfoRaised ValueError
       else Schedule.ZoneInfoNotFoundError;
     Schedule.fixed_offset := fun offset =>
       if decide (offset = 0) then u8 "UTC" else u8 "UTC+09:00";
     Schedule.utcoffset := fun w =>
       if decide (Schedule.w_tzinfo w = u8 "UTC") then 0 else 32400000000 |}.

(** Every two hours from 09:00: the odd hours. *)
Definition odd_hours : list (Schedule.time str) :=
  map (fun h : Z =>
         {| Schedule.t_hour := h; Schedule.t_minute := 0;
            Schedule.t_tzinfo := seoul |})
      [1; 3; 5; 7; 9; 11; 13; 15; 17; 19; 21; 23].

(** 23:30:15 on 2026-01-01, on the wall clock of the zone asked for. *)
Definition late_evening (tz : str) : Schedule.wall str :=
  {| Schedule.w_date := 739617; Schedule.w_hour := 23; Schedule.w_minute := 30;
     Schedule.w_second := 15; Schedule.w_microsecond := 0;
     Schedule.w_fold := 0; Schedule.w_tzinfo := tz |}.

Definition clock_late_evening (tz : str) : outcome (Schedule.wall str) :=
  Returned (late_evening tz).

(** The configuration with another time zone key. *)
Definition config_in (key : str) : Schedule.CurrencyReportConfig :=
  {| Schedule.enabled := true;
     Schedule.guild_id := None;
     Schedule.channel_id := None;
     Schedule.hour := 9;
     Schedule.minute := 0;
     Schedule.timezone := key;
     Schedule.interval_minutes := 120;
     Schedule.quote_currency := u8 "KRW";
     Schedule.currencies := [u8 "USD"; u8 "JPY"; u8 "CNY"];
     Schedule.api_url := u8 "https://open.er-api.com/v6/latest/{base}";
     Schedule.api_key := None |}.

End ScheduleExamples.

(* ===================================================================== *)
(** ** The constructors that can raise *)
(* ===================================================================== *)

Section ConstructorFacts.

Lemma timedelta_of_microseconds_cases microseconds :
  (-86399999913600000000 ≤ microseconds ≤ 86399999999999999999
   ∧ timedelta_of_microseconds microseconds = Returned microseconds)
  ∨ ((microseconds < -86399999913600000000
      ∨ 86399999999999999999 < microseconds)
     ∧ timedelta_of_microseconds microseconds = Raised OverflowError).
Proof.
  unfold timedelta_of_microseconds. cbv zeta.
  pose proof (Z.div_mod microseconds 86400000000 ltac:(lia)) as Hdm.
  pose proof (Z.mod_pos_bound microseconds 86400000000 ltac:(lia)) as Hmod.
  destruct (Z.leb_spec (-999999999) (microseconds / 86400000000)),
    (Z.leb_spec (microseconds / 86400000000) 999999999);
    cbn [andb]; [left|right..]; (split; [lia|done]).
Qed.

(** [dt.timedelta(seconds=s)] returns exactly for
    -86399999913600 <= s <= 86399999999999. *)
Lemma timedelta_seconds_cases s :
  (-86399999913600 ≤ s ≤ 86399999999999
   ∧ timedelta_seconds s = Returned (s * 1000000))
  ∨ ((s < -86399999913600 ∨ 86399999999999 < s)
     ∧ timedelta_seconds s = Raised OverflowError).
Proof.
  unfold timedelta_seconds.
  destruct (timedelta_of_microseconds_cases (s * 1000000)) as [[? ->]|[? ->]];
    [left|right]; (split; [lia|done]).
Qed.

(** [dt.timedelta(minutes=m)] returns exactly for
    -1439999998560 <= m <= 1439999999999. *)
Lemma timedelta_minutes_cases m :
  (-1439999998560 ≤ m ≤ 1439999999999
   ∧ timedelta_minutes m = Returned (m * 60000000))
  ∨ ((m < -1439999998560 ∨ 1439999999999 < m)
     ∧ timedelta_minutes m = Raised OverflowError).
Proof.
  unfold timedelta_minutes.
  destruct (timedelta_of_microseconds_cases (m * 60000000)) as [[? ->]|[? ->]];
    [left|right]; (split; [lia|done]).
Qed.

(** [dt.timedelta(hours=h)] returns exactly for
    -23999999976 <= h <= 23999999999. *)
Lemma timedelta_hours_cases h :
  (-23999999976 ≤ h ≤ 23999999999
   ∧ timedelta_hours h = Returned (h * 3600000000))
  ∨ ((h < -23999999976 ∨ 23999999999 < h)
     ∧ timedelta_hours h = Raised OverflowError).
Proof.
  unfold timedelta_hours.
  destruct (timedelta_of_microseconds_cases (h * 3600000000)) as [[? ->]|[? ->]];
    [left|right]; (split; [lia|done]).
Qed.

Lemma timedelta_seconds_returned s window :
  timedelta_seconds s = Returned window →
  window = s * 1000000 ∧ -86399999913600 ≤ s ≤ 86399999999999.
Proof.
  destruct (timedelta_seconds_cases s) as [[? ->]|[? ->]]; [|discriminate].
  by intros [= <-].
Qed.

Lemma timedelta_seconds_raised s e :
  timedelta_seconds s = Raised e →
  e = OverflowError ∧ (s < -86399999913600 ∨ 86399999999999 < s).
Proof.
  destruct (timedelta_seconds_cases s) as [[? ->]|[? ->]]; [discriminate|].
  by intros [= <-].
Qed.

Lemma timedelta_minutes_returned m min_age :
  timedelta_minutes m = Returned min_age →
  min_age = m * 60000000 ∧ -1439999998560 ≤ m ≤ 1439999999999.
Proof.
  destruct (timedelta_minutes_cases m) as [[? ->]|[? ->]]; [|discriminate].
  by intros [= <-].
Qed.

(** The capacity fits a [Py_ssize_t] exactly when the limit is below
    [2 ** 62]. *)
Lemma capacity_fits_iff config :
  capacity_fits config = true ↔ spam_limit config < 4611686018427387904.
Proof.
  unfold capacity_fits, capacity. rewrite Z.leb_le.
  assert (Hmax : sys_maxsize = 9223372036854775807) by reflexivity. lia.
Qed.

Lemma capacity_at_least_20 config : 20 ≤ capacity config.
Proof. unfold capacity. lia. Qed.

Lemma deque_new_capacity config :
  Deque.new (A := MessageRecord) (Z.max (spam_limit config * 2) 20)
  = if capacity_fits config
    then Returned {| items := []; maxlen := capacity config |}
    else Raised OverflowError.
Proof.
  unfold Deque.new, capacity_fits, capacity.
  set (n := Z.max (spam_limit config * 2) 20).
  assert (20 ≤ n) by (subst n; lia).
  assert (Hmax : sys_maxsize = 9223372036854775807) by reflexivity.
  destruct (Z.ltb_spec n (- sys_maxsize - 1)); [lia|]. cbn [orb].
  destruct (Z.ltb_spec sys_maxsize n), (Z.leb_spec n sys_maxsize);
    try lia; [reflexivity|].
  destruct (Z.ltb_spec n 0); [lia|reflexivity].
Qed.

(** Lines 53 to 58, case by case. *)
Lemma update_history_eq (existing : option (deque MessageRecord))
    config now record :
  update_history existing config now record =
    if capacity_fits config then
      let working :=
        match existing with
        | Some d => d
        | None => {| items := []; maxlen := capacity config |}
        end in
      match timedelta_seconds (time_window config) with
      | Raised e => (Raised e, Some (Deque.append working record))
      | Returned window =>
          let history :=
            {| items := prune now window (items (Deque.append working record));
               maxlen := maxlen working |} in
          (Returned history, Some history)
      end
    else (Raised OverflowError, existing).
Proof.
  unfold update_history. rewrite deque_new_capacity.
  destruct (capacity_fits config); [|done].
  by destruct (timedelta_seconds (time_window config)).
Qed.

End ConstructorFacts.

(* ===================================================================== *)
(** ** The strike counter *)
(* ===================================================================== *)

Section TrackerFacts.

Implicit Types (T : ViolationTracker) (r : ViolationRecord).

Lemma decay_returns T now (o : option ViolationRecord) :
  _decay_after T ≠ 0 →
  ViolationTracker.decay T now o =
    Returned
      ((fun r => {| count := decayed_count (_decay_after T) now r;
                    last_triggered := last_triggered r;
                    last_decay_check := decay_check_after (_decay_after T) now r |})
         <$> o).
Proof.
  intros Hne. destruct o as [r|]; [|reflexivity].
  unfold ViolationTracker.decay, decayed_count, decay_check_after. cbn.
  destruct (_decay_after T <=? now - last_decay_check r) eqn:Hle.
  - apply Z.eqb_neq in Hne. rewrite Hne. reflexivity.
  - destruct r; reflexivity.
Qed.

(** Whatever the tracker holds, a count that [increment] returns is at
    least one, and so is the count it stores. *)
Lemma increment_inv T g u now c T' :
  ViolationTracker.increment T g u now = (Returned c, T') →
  1 ≤ c ∧
  ∃ r, count r = c ∧ last_triggered r = now ∧
       _records T' = <[(g, u) := r]> (_records T) ∧
       _decay_after T' = _decay_after T.
Proof.
  unfold ViolationTracker.increment.
  destruct (ViolationTracker.decay T now (_records T !! (g, u))) as [o|e];
    [|discriminate].
  intros [= <- <-]. cbn.
  split.
  - destruct o as [r|]; cbn; [|lia].
    destruct (count r <=? 0) eqn:Hc; cbn; [lia|]. apply Z.leb_gt in Hc. lia.
  - eexists. cbn. repeat split; reflexivity.
Qed.

Lemma increment_raised T g u now e T' :
  ViolationTracker.increment T g u now = (Raised e, T') → T' = T.
Proof.
  unfold ViolationTracker.increment.
  destruct (ViolationTracker.decay T now (_records T !! (g, u)));
    intros [= ]; congruence.
Qed.

Lemma increment_total T g u now :
  _decay_after T ≠ 0 →
  ∃ c T', ViolationTracker.increment T g u now = (Returned c, T').
Proof.
  intros Hne. unfold ViolationTracker.increment.
  rewrite (decay_returns _ _ _ Hne). eauto.
Qed.

Lemma increment_fresh T g u now :
  _records T !! (g, u) = None →
  ViolationTracker.increment T g u now =
    (Returned 1,
     {| _records :=
          <[(g, u) := {| count := 1; last_triggered := now;
                          last_decay_check := now |}]> (_records T);
        _decay_after := _decay_after T |}).
Proof.
  intros Hnone. unfold ViolationTracker.increment. rewrite Hnone. reflexivity.
Qed.

Lemma init_returned decay_hours T :
  ViolationTracker.init decay_hours = Returned T →
  _records T = ∅ ∧ _decay_after T = decay_hours * 3600000000
  ∧ -23999999976 ≤ decay_hours ≤ 23999999999.
Proof.
  unfold ViolationTracker.init.
  destruct (timedelta_hours_cases decay_hours) as [[? ->]|[? ->]];
    [|discriminate].
  by intros [= <-].
Qed.

Lemma counts_positive_init decay_hours T :
  ViolationTracker.init decay_hours = Returned T → counts_positive T.
Proof.
  intros (Hempty & _)%init_returned k r. rewrite Hempty, lookup_empty.
  discriminate.
Qed.

Lemma counts_positive_increment T g u now o T' :
  counts_positive T →
  ViolationTracker.increment T g u now = (o, T') →
  counts_positive T'.
Proof.
  intros HT Hinc. destruct o as [c|e].
  - apply increment_inv in Hinc as (Hc & r & Hr & _ & Hrec & _).
    intros k r'. rewrite Hrec.
    destruct (decide ((g, u) = k)) as [->|Hne].
    + rewrite lookup_insert_eq. intros [= <-]. lia.
    + rewrite lookup_insert_ne by done. apply HT.
  - apply increment_raised in Hinc. by subst.
Qed.

Lemma counts_positive_reset T g u :
  counts_positive T → counts_positive (ViolationTracker.reset T g u).
Proof.
  intros HT k r. cbn.
  destruct (decide ((g, u) = k)) as [->|Hne].
  - rewrite lookup_delete_eq. discriminate.
  - rewrite lookup_delete_ne by done. apply HT.
Qed.

End TrackerFacts.

(** C4. With a decay period that is not zero, [increment] returns for every
    key and every time [now], and does what the design lists: a record that
    exists and whose last decay check is at least one period old loses
    [floor(elapsed / decayPeriod)] strikes, not below zero, and its decay
    check becomes [now]; when there is no record, or the count after that
    step is not positive, a fresh record with count 0 replaces it; then the
    count grows by one, [last_triggered] becomes [now], the record is
    stored under the key and its count is returned. *)
Theorem increment_algorithm (T : ViolationTracker) (g u : Z) (now : datetime) :
  _decay_after T ≠ 0 →
  ∃ stored : ViolationRecord,
    ViolationTracker.increment T g u now =
      (Returned (count stored),
       {| _records := <[(g, u) := stored]> (_records T);
          _decay_after := _decay_after T |})
    ∧ last_triggered stored = now
    ∧ match _records T !! (g, u) with
      | None => count stored = 0 + 1 ∧ last_decay_check stored = now
      | Some r =>
          let elapsed := now - last_decay_check r in
          let decayed :=
            if _decay_after T <=? elapsed
            then Z.max 0 (count r - elapsed / _decay_after T)
            else count r in
          if decayed <=? 0
          then count stored = 0 + 1 ∧ last_decay_check stored = now
          else count stored = decayed + 1
               ∧ last_decay_check stored =
                   (if _decay_after T <=? elapsed then now
                    else last_decay_check r)
      end.
Proof.
  intros Hne. unfold ViolationTracker.increment.
  rewrite (decay_returns _ _ _ Hne).
  destruct (_records T !! (g, u)) as [r|]; cbn.
  - unfold decayed_count, decay_check_after.
    destruct (_decay_after T <=? now - last_decay_check r); cbn.
    + destruct (Z.max 0 (count r - (now - last_decay_check r) / _decay_after T)
                <=? 0);
        cbn; eexists (Build_ViolationRecord _ _ _);
        (split; [reflexivity|]); cbn; auto.
    + destruct (count r <=? 0);
        cbn; eexists (Build_ViolationRecord _ _ _);
        (split; [reflexivity|]); cbn; auto.
  - eexists (Build_ViolationRecord _ _ _); (split; [reflexivity|]); cbn; auto.
Qed.

(* ===================================================================== *)
(** ** The rule engine *)
(* ===================================================================== *)

(** The six reasons differ already in their first character. *)
Lemma reasons_first_chars :
  map (hd 0%N)
    [REASON_MASS_MENTION; REASON_FLOOD; REASON_MENTION_SPAM;
     REASON_DUPLICATE; REASON_AI_SIMILARITY; REASON_NEW_ACCOUNT]
  = [45824; 47700; 47704; 46041; 65; 49888]%N.
Proof. vm_compute. reflexivity. Qed.

Lemma mass_mention_not_flood : REASON_MASS_MENTION ≠ REASON_FLOOD.
Proof. intros H. apply (f_equal (hd 0%N)) in H. vm_compute in H. discriminate H. Qed.


Section DetectorFacts.

Context (rt : Runtime).

Lemma detect_first_match message history config now :
  _detect_violation rt message history config now =
    if enabled config
    then first_match (rule_table rt message history config now)
    else Returned (None, None).
Proof.
  unfold _detect_violation, rule_table, first_match.
  fold (mass_mention_rule message) (flood_rule history config)
       (mention_spam_rule message config)
       (near_duplicate_rule rt message history config).
  destruct (enabled config); [|reflexivity].
  cbv beta iota delta [negb].
  destruct (mass_mention_rule message); [reflexivity|].
  destruct (flood_rule history config); [reflexivity|].
  destruct (mention_spam_rule message config); [reflexivity|].
  destruct (_has_duplicate_content rt history); [reflexivity|].
  destruct (near_duplicate_rule rt message history config); [reflexivity|].
  unfold new_member_rule, is_new, new_member_offence, join_age, account_age.
  destruct (author message) as [member|]; [|reflexivity].
  destruct (timedelta_minutes (new_user_minutes config)); [|reflexivity].
  by destruct (_ && _).
Qed.

(** The detection raises nothing but the [OverflowError] of line 110. *)
Lemma detect_raised message history config now e :
  _detect_violation rt message history config now = Raised e →
  e = OverflowError
  ∧ (new_user_minutes config < -1439999998560
     ∨ 1439999999999 < new_user_minutes config).
Proof.
  rewrite detect_first_match. unfold rule_table, first_match.
  destruct (enabled config); [|discriminate].
  destruct (mass_mention_rule message); [discriminate|].
  destruct (flood_rule history config); [discriminate|].
  destruct (mention_spam_rule message config); [discriminate|].
  destruct (_has_duplicate_content rt history); [discriminate|].
  destruct (near_duplicate_rule rt message history config); [discriminate|].
  unfold new_member_rule.
  destruct (author message) as [member|]; [|discriminate].
  destruct (timedelta_minutes_cases (new_user_minutes config)) as [[? ->]|[? ->]].
  - by destruct (_ && _).
  - by intros [= <-].
Qed.

(** [register_message] on a message that passes its guard. *)
Lemma register_message_member self message config clock g m :
  guild message = Some g → author message = AuthorMember m →
  register_message rt self message config clock =
    let key := (g, member_id m) in
    let histories :=
      match history_stored rt self key message config clock with
      | Some d => <[key := d]> (_history self)
      | None => _history self
      end in
    match history_seen rt self key message config clock with
    | Raised e =>
        (Raised e,
         {| _violation_tracker := _violation_tracker self; _history := histories |})
    | Returned history =>
        match _detect_violation rt message history config (utcnow_detect clock) with
        | Raised e =>
            (Raised e,
             {| _violation_tracker := _violation_tracker self;
                _history := histories |})
        | Returned (None, _) =>
            (Returned None,
             {| _violation_tracker := _violation_tracker self;
                _history := histories |})
        | Returned (Some violation_reason, forced_action) =>
            match ViolationTracker.increment (_violation_tracker self)
                    g (member_id m) (utcnow_increment clock) with
            | (Raised e, tracker) =>
                (Raised e, {| _violation_tracker := tracker; _history := histories |})
            | (Returned count, tracker) =>
                (Returned (Some {| action :=
                                     forced_or forced_action (_action_for_count count);
                                   reason := violation_reason;
                                   details := Some (take 200 (content message));
                                   violation_count := count |}),
                 {| _violation_tracker := tracker; _history := histories |})
            end
        end
    end.
Proof.
  intros Hg Ha.
  unfold register_message, history_seen, history_stored, new_record.
  rewrite Hg, Ha. cbv zeta.
  by destruct (update_history _ _ _ _) as [history stored].
Qed.

Lemma register_message_skipped self message config clock :
  call_key message = None →
  register_message rt self message config clock = (Returned None, self).
Proof.
  unfold call_key, register_message.
  destruct (guild message); [|reflexivity].
  destruct (author message); [discriminate|reflexivity].
Qed.

Lemma call_key_Some message key :
  call_key message = Some key →
  ∃ m, guild message = Some key.1 ∧ author message = AuthorMember m
       ∧ member_id m = key.2.
Proof.
  unfold call_key. destruct (guild message); [|discriminate].
  destruct (author message) as [m|]; [|discriminate].
  intros [= <-]. eauto.
Qed.

(** The history a call sees is the entry it leaves for the key. *)
Lemma history_seen_stored self key message config clock history :
  history_seen rt self key message config clock = Returned history →
  history_stored rt self key message config clock = Some history.
Proof.
  unfold history_seen, history_stored. rewrite update_history_eq.
  destruct (capacity_fits config); [|discriminate]. cbv zeta.
  destruct (timedelta_seconds (time_window config)); [|discriminate].
  by intros [= <-].
Qed.

(** Lines 53 to 58 raise nothing but [OverflowError], for a limit or a
    window out of range. *)
Lemma history_seen_raised self key message config clock e :
  history_seen rt self key message config clock = Raised e →
  e = OverflowError.
Proof.
  unfold history_seen. rewrite update_history_eq.
  destruct (capacity_fits config); [|by intros [= <-]]. cbv zeta.
  destruct (timedelta_seconds (time_window config)) eqn:Hw; [discriminate|].
  apply timedelta_seconds_raised in Hw as [-> _]. by intros [= <-].
Qed.

(** The entry of the key after lines 53 to 58 is what a lookup finds. *)
Lemma history_stored_lookup self key message config clock :
  match history_stored rt self key message config clock with
  | Some d => <[key := d]> (_history self)
  | None => _history self
  end !! key
  = history_stored rt self key message config clock.
Proof.
  destruct (history_stored rt self key message config clock) as [d|] eqn:Hs;
    [apply lookup_insert_eq|].
  unfold history_stored in Hs. rewrite update_history_eq in Hs.
  destruct (capacity_fits config); [|done]. cbv zeta in Hs.
  by destruct (timedelta_seconds (time_window config)).
Qed.

(** What a call leaves behind: the tracker is untouched or went through
    one [increment]; the entry of the key is the one lines 53 to 58 leave,
    and the entries of the other keys are as before. *)
Lemma register_message_state self message config clock :
  let self' := snd (register_message rt self message config clock) in
  (_violation_tracker self' = _violation_tracker self
   ∨ ∃ g u o,
       ViolationTracker.increment (_violation_tracker self) g u
         (utcnow_increment clock) = (o, _violation_tracker self'))
  ∧ ∀ key,
      _history self' !! key =
        if decide (call_key message = Some key)
        then history_stored rt self key message config clock
        else _history self !! key.
Proof.
  destruct (call_key message) as [key|] eqn:Hkey.
  - destruct (call_key_Some _ _ Hkey) as (m & Hg & Ha & Hm).
    rewrite (register_message_member _ _ _ _ _ _ Hg Ha). cbv zeta.
    rewrite Hm, <- surjective_pairing.
    assert (Hhist : ∀ key',
      match history_stored rt self key message config clock with
      | Some d => <[key := d]> (_history self)
      | None => _history self
      end !! key'
      = if decide (Some key = Some key')
        then history_stored rt self key' message config clock
        else _history self !! key').
    { intros key'. destruct (decide (Some key = Some key')) as [[= <-]|Hne].
      - apply history_stored_lookup.
      - destruct (history_stored rt self key message config clock); [|done].
        apply lookup_insert_ne. congruence. }
    destruct (history_seen rt self key message config clock) as [history|e];
      [|cbn; auto].
    destruct (_detect_violation rt message _ config _) as [[[reason|] forced]|e];
      [|cbn; auto..].
    destruct (ViolationTracker.increment _ _ _ _) as [[c|e] T'] eqn:Hinc;
      cbn; split; eauto.
  - rewrite (register_message_skipped _ _ _ _ Hkey). cbn. split; [auto|].
    intros key. by destruct (decide (None = Some key)).
Qed.

(** A call that is not answered with an action leaves the tracker as it
    was. *)
Lemma register_message_quiet self message config clock :
  (∀ a, fst (register_message rt self message config clock) ≠ Returned (Some a)) →
  _violation_tracker (snd (register_message rt self message config clock))
  = _violation_tracker self.
Proof.
  destruct (call_key message) as [key|] eqn:Hkey.
  2: { by rewrite (register_message_skipped _ _ _ _ Hkey). }
  destruct (call_key_Some _ _ Hkey) as (m & Hg & Ha & Hm).
  rewrite (register_message_member _ _ _ _ _ _ Hg Ha). cbv zeta.
  destruct (history_seen rt self _ message config clock) as [history|e]; [|done].
  destruct (_detect_violation rt message _ config _) as [[[reason|] forced]|e];
    [|done..].
  destruct (ViolationTracker.increment _ _ _ _) as [[c|e] T'] eqn:Hinc;
    cbn [fst snd _violation_tracker]; intros Hquiet.
  - by destruct (Hquiet _ eq_refl).
  - by apply increment_raised in Hinc.
Qed.

(** A call leaves the buffers and the records of the other keys alone. *)
Lemma register_message_frame self message config clock key' :
  call_key message ≠ Some key' →
  let self' := snd (register_message rt self message config clock) in
  _history self' !! key' = _history self !! key'
  ∧ _records (_violation_tracker self') !! key'
    = _records (_violation_tracker self) !! key'.
Proof.
  intros Hother. cbv zeta. split.
  - destruct (register_message_state self message config clock) as [_ ->].
    by destruct (decide (call_key message = Some key')).
  - destruct (call_key message) as [key|] eqn:Hkey.
    2: { by rewrite (register_message_skipped _ _ _ _ Hkey). }
    destruct (call_key_Some _ _ Hkey) as (m & Hg & Ha & Hm).
    rewrite (register_message_member _ _ _ _ _ _ Hg Ha). cbv zeta.
    destruct (history_seen rt self _ message config clock) as [history|e]; [|done].
    destruct (_detect_violation rt message _ config _) as [[[vr|] fa]|e];
      [|done..].
    destruct (ViolationTracker.increment _ _ _ _) as [[c|e] T'] eqn:Hinc;
      cbn [snd _violation_tracker].
    + apply increment_inv in Hinc as (_ & r & _ & _ & -> & _).
      apply lookup_insert_ne. rewrite Hm, <- surjective_pairing. congruence.
    + apply increment_raised in Hinc. by subst.
Qed.

(** What lies behind an action that [register_message] returns. *)
Lemma register_message_returned self message config clock a self' :
  register_message rt self message config clock = (Returned (Some a), self') →
  ∃ g m history violation_reason forced_action strikes tracker,
    guild message = Some g ∧ author message = AuthorMember m
    ∧ history_seen rt self (g, member_id m) message config clock
      = Returned history
    ∧ _detect_violation rt message history config (utcnow_detect clock)
      = Returned (Some violation_reason, forced_action)
    ∧ ViolationTracker.increment (_violation_tracker self) g (member_id m)
          (utcnow_increment clock) = (Returned strikes, tracker)
    ∧ a = {| action := forced_or forced_action (_action_for_count strikes);
             reason := violation_reason;
             details := Some (take 200 (content message));
             violation_count := strikes |}.
Proof.
  intros Hreg.
  destruct (call_key message) as [key|] eqn:Hkey.
  2: { rewrite (register_message_skipped _ _ _ _ Hkey) in Hreg. discriminate. }
  destruct (call_key_Some _ _ Hkey) as (m & Hg & Ha & Hm).
  rewrite (register_message_member _ _ _ _ _ _ Hg Ha) in Hreg.
  cbv zeta in Hreg.
  destruct (history_seen rt self _ message config clock) as [history|e] eqn:Hseen;
    [|discriminate].
  destruct (_detect_violation rt message _ config _)
    as [[[violation_reason|] forced_action]|e] eqn:Hdet; [|discriminate..].
  destruct (ViolationTracker.increment _ _ _ _) as [[c|e] T'] eqn:Hinc;
    [|discriminate].
  injection Hreg as <- _.
  exists (key.1), m, history, violation_reason, forced_action, c, T'. auto 10.
Qed.

End DetectorFacts.

Lemma forced_or_timeout other : forced_or (Some TIMEOUT) other = TIMEOUT.
Proof. reflexivity. Qed.

Lemma action_for_count_cases count :
  (count ≤ 1 → _action_for_count count = WARN)
  ∧ (count = 2 → _action_for_count count = DELETE)
  ∧ (count = 3 → _action_for_count count = TIMEOUT)
  ∧ (4 ≤ count → _action_for_count count = KICK).
Proof.
  unfold _action_for_count.
  destruct (Z.leb_spec count 1); [repeat split; intros; (reflexivity || lia)|].
  destruct (Z.eqb_spec count 2); [repeat split; intros; (reflexivity || lia)|].
  destruct (Z.eqb_spec count 3); repeat split; intros; (reflexivity || lia).
Qed.

Section EngineProperties.

Context (rt : Runtime).

(** A rule forces either nothing or a timeout. *)
Lemma detect_forced message history config now violation_reason forced_action :
  _detect_violation rt message history config now
    = Returned (Some violation_reason, forced_action) →
  forced_action = Some TIMEOUT ∨ forced_action = None.
Proof.
  rewrite detect_first_match. unfold rule_table, first_match.
  destruct (enabled config); [|discriminate].
  destruct (mass_mention_rule message); [intros [= _ <-]; by left|].
  destruct (flood_rule history config); [intros [= _ <-]; by right|].
  destruct (mention_spam_rule message config); [intros [= _ <-]; by right|].
  destruct (_has_duplicate_content rt history); [intros [= _ <-]; by right|].
  destruct (near_duplicate_rule rt message history config);
    [intros [= _ <-]; by right|].
  destruct (new_member_rule rt message history config now) as [[|]|e];
    [intros [= _ <-]; by right|discriminate..].
Qed.

(** C2. A message that is a mass mention and at the same time floods the
    window (the history left by lines 53 to 58 is longer than the limit)
    is answered with one action: the mass-mention reason with the forced
    timeout, which is not the flood reason.  And for every message,
    history and settings the detection is the first match of the rule
    table: the reason and forced action given are those of the first rule,
    in the fixed order, whose test holds; the one reason of an action that
    [register_message] returns is that reason, for the history lines 53 to
    58 have left. *)
Theorem mass_mention_beats_flood self message config clock g m history :
  guild message = Some g → author message = AuthorMember m →
  history_seen rt self (g, member_id m) message config clock = Returned history →
  enabled config = true →
  mass_mention_rule message = true →
  flood_rule history config = true →
  _decay_after (_violation_tracker self) ≠ 0 →
  (∃ strikes self',
      register_message rt self message config clock =
        (Returned (Some {| action := TIMEOUT;
                           reason := REASON_MASS_MENTION;
                           details := Some (take 200 (content message));
                           violation_count := strikes |}),
         self'))
  ∧ REASON_MASS_MENTION ≠ REASON_FLOOD
  ∧ (∀ message' history' config' now,
       _detect_violation rt message' history' config' now =
         if enabled config'
         then first_match (rule_table rt message' history' config' now)
         else Returned (None, None))
  ∧ ∀ self0 message' config' clock' a self',
      register_message rt self0 message' config' clock'
        = (Returned (Some a), self') →
      ∃ key history' forced_action,
        call_key message' = Some key
        ∧ history_seen rt self0 key message' config' clock' = Returned history'
        ∧ first_match
            (rule_table rt message' history' config' (utcnow_detect clock'))
          = Returned (Some (reason a), forced_action).
Proof.
  intros Hg Ha Hseen Hen Hmass _ Hdecay. split; [|split; [|split]].
  - rewrite (register_message_member rt _ _ _ _ _ _ Hg Ha). cbv zeta.
    rewrite Hseen, detect_first_match, Hen. unfold rule_table, first_match.
    rewrite Hmass.
    destruct (increment_total (_violation_tracker self) g (member_id m)
                (utcnow_increment clock) Hdecay) as (c & T' & ->).
    rewrite forced_or_timeout. eauto.
  - exact mass_mention_not_flood.
  - intros message' history' config' now. apply detect_first_match.
  - intros self0 message' config' clock' a self'
      (g' & m' & history' & violation_reason & forced_action & c & T'
       & Hg' & Ha' & Hseen' & Hdet & _ & ->)%register_message_returned.
    exists (g', member_id m'), history', forced_action.
    split; [unfold call_key; by rewrite Hg', Ha'|]. split; [done|].
    rewrite detect_first_match in Hdet.
    by destruct (enabled config').
Qed.

(** C3. When a rule without a forced action matches, the action of the
    answer is read off the strike count that [increment] returns: 1 gives
    warn, 2 delete, 3 timeout and every count from 4 on kick. *)
Theorem escalation_by_count self message config clock g m history
    violation_reason :
  guild message = Some g → author message = AuthorMember m →
  history_seen rt self (g, member_id m) message config clock = Returned history →
  _detect_violation rt message history config (utcnow_detect clock)
    = Returned (Some violation_reason, None) →
  _decay_after (_violation_tracker self) ≠ 0 →
  ∃ strikes tracker a self',
    ViolationTracker.increment (_violation_tracker self) g (member_id m)
        (utcnow_increment clock) = (Returned strikes, tracker)
    ∧ register_message rt self message config clock = (Returned (Some a), self')
    ∧ reason a = violation_reason
    ∧ violation_count a = strikes
    ∧ 1 ≤ strikes
    ∧ (strikes = 1 → action a = WARN)
    ∧ (strikes = 2 → action a = DELETE)
    ∧ (strikes = 3 → action a = TIMEOUT)
    ∧ (4 ≤ strikes → action a = KICK).
Proof.
  intros Hg Ha Hseen Hdet Hdecay.
  destruct (increment_total (_violation_tracker self) g (member_id m)
              (utcnow_increment clock) Hdecay) as (c & T' & Hinc).
  destruct (increment_inv _ _ _ _ _ _ Hinc) as [Hc _].
  rewrite (register_message_member rt _ _ _ _ _ _ Hg Ha). cbv zeta.
  rewrite Hseen, Hdet, Hinc. cbn [forced_or].
  destruct (action_for_count_cases c) as (H1 & H2 & H3 & H4).
  eexists c, T', _, _. split; [reflexivity|]. split; [reflexivity|].
  cbn [reason violation_count action].
  repeat split; auto. intros ->. apply H1. lia.
Qed.

End EngineProperties.

Section StrikeProperties.

Context (rt : Runtime).

Lemma step_counts_positive self e :
  counts_positive (_violation_tracker self) →
  counts_positive (_violation_tracker (step rt self e)).
Proof.
  intros Hpos. destruct e as [message config clock|g u]; cbn.
  - destruct (register_message_state rt self message config clock)
      as [[-> | (g & u & o & Hinc)] _]; [done|].
    by eapply counts_positive_increment.
  - by apply counts_positive_reset.
Qed.

Lemma run_counts_positive events self :
  counts_positive (_violation_tracker self) →
  counts_positive (_violation_tracker (run rt self events)).
Proof.
  revert self. induction events as [|e events IH]; intros self Hpos; [done|].
  cbn. apply IH. by apply step_counts_positive.
Qed.

(** C9. In every state the detector reaches from its start, each stored
    violation record has a count of at least one; and an action that
    [register_message] returns carries a violation count of at least one
    and one of the kinds warn, delete, timeout or kick, never none. *)
Theorem returned_action_invariant (decay_hours : Z) (tracker : ViolationTracker)
    (events : list event) :
  ViolationTracker.init decay_hours = Returned tracker →
  let reached := run rt (SpamDetector_init tracker) events in
  (∀ key r,
      _records (_violation_tracker reached) !! key = Some r → 1 ≤ count r)
  ∧ ∀ self message config clock a self',
      register_message rt self message config clock = (Returned (Some a), self') →
      1 ≤ violation_count a
      ∧ action a ≠ NONE
      ∧ action a ∈ [WARN; DELETE; TIMEOUT; KICK].
Proof.
  intros Hinit. split.
  - eapply run_counts_positive, counts_positive_init, Hinit.
  - intros self message config clock a self'
      (g & m & history & violation_reason & forced_action & c & T'
       & _ & _ & _ & Hdet & Hinc & ->)%register_message_returned.
    cbn [violation_count action].
    destruct (increment_inv _ _ _ _ _ _ Hinc) as [Hc _].
    assert (Hact : forced_or forced_action (_action_for_count c)
                   ∈ [WARN; DELETE; TIMEOUT; KICK]).
    { destruct (detect_forced _ _ _ _ _ _ _ Hdet) as [-> | ->].
      - rewrite forced_or_timeout, !elem_of_cons. auto.
      - cbn [forced_or]. unfold _action_for_count. rewrite !elem_of_cons.
        destruct (c <=? 1), (c =? 2), (c =? 3); auto. }
    split; [done|]. split; [|done].
    intros Hnone. rewrite Hnone, !elem_of_cons, elem_of_nil in Hact.
    destruct Hact as [?|[?|[?|[?|[]]]]]; discriminate.
Qed.

(** While no call for a key is answered with an action, a key without a
    violation record stays without one. *)
Lemma quiet_keeps_absent key events :
  ∀ self,
    _records (_violation_tracker self) !! key = None →
    quiet rt key self events = true →
    _records (_violation_tracker (run rt self events)) !! key = None.
Proof.
  induction events as [|e events IH]; intros self Hnone Hquiet; [done|].
  cbn [quiet] in Hquiet. apply andb_true_iff in Hquiet as [He Hrest].
  cbn [run fold_left]. apply IH; [|done].
  destruct e as [message config clock|g u]; cbn [step].
  - destruct (decide (call_key message = Some key)) as [Hkey|Hkey].
    + rewrite register_message_quiet; [done|].
      intros a Ha. rewrite Ha in He. discriminate.
    + by rewrite (proj2 (register_message_frame rt self message config clock
                           key Hkey)).
  - cbn. destruct (decide ((g, u) = key)) as [->|Hne].
    + apply lookup_delete_eq.
    + by rewrite lookup_delete_ne.
Qed.

(** C8. After [reset_user] the key has no violation record, and it has
    none as long as the messages of the key trigger nothing, whatever the
    other members do in between.  The next message of the key that
    triggers a rule is answered with strike count 1 and, when the rule
    forces no action, with a warning: the answer a detector gives whose
    tracker has never seen the key. *)
Theorem reset_then_first_strike self g u (between : list event)
    message config clock m history violation_reason forced_action :
  let pardoned := reset_user self g u in
  let later := run rt pardoned between in
  _records (_violation_tracker pardoned) !! (g, u) = None
  ∧ (quiet rt (g, u) pardoned between = true →
     _records (_violation_tracker later) !! (g, u) = None
     ∧ (guild message = Some g → author message = AuthorMember m →
        member_id m = u →
        history_seen rt later (g, u) message config clock = Returned history →
        _detect_violation rt message history config (utcnow_detect clock)
          = Returned (Some violation_reason, forced_action) →
        ∃ a self',
          register_message rt later message config clock
            = (Returned (Some a), self')
          ∧ reason a = violation_reason
          ∧ violation_count a = 1
          ∧ (forced_action = None → action a = WARN)
          ∧ ∀ fresh : ViolationTracker,
              _records fresh !! (g, u) = None →
              fst (register_message rt
                     {| _violation_tracker := fresh;
                        _history := _history later |}
                     message config clock)
              = Returned (Some a))).
Proof.
  cbv zeta.
  assert (Hnone : _records (_violation_tracker (reset_user self g u)) !! (g, u)
                  = None) by (cbn; apply lookup_delete_eq).
  split; [done|]. intros Hquiet.
  pose proof (quiet_keeps_absent (g, u) between _ Hnone Hquiet) as Hlater.
  split; [done|].
  intros Hg Ha Hm Hseen Hdet. subst u.
  rewrite (register_message_member _ _ _ _ _ _ _ Hg Ha). cbv zeta.
  rewrite Hseen, Hdet.
  rewrite increment_fresh by done.
  eexists _, _. split; [reflexivity|]. cbn [reason violation_count action].
  repeat split.
  - by intros ->.
  - intros fresh Hfresh.
    rewrite (register_message_member _ _ _ _ _ _ _ Hg Ha). cbv zeta.
    unfold history_seen in *. cbn [_history] in *.
    rewrite Hseen, Hdet. cbn [_violation_tracker].
    rewrite increment_fresh by done.
    reflexivity.
Qed.

End StrikeProperties.

(* ===================================================================== *)
(** ** The history buffers *)
(* ===================================================================== *)

Section BufferFacts.

Implicit Types (l : list MessageRecord) (d : deque MessageRecord).

Lemma prune_drop now window l :
  ∃ n, (n ≤ length l)%nat ∧ prune now window l = drop n l.
Proof.
  induction l as [|head rest IH]; [by exists 0%nat|]. cbn.
  destruct (window <? now - timestamp head).
  - destruct IH as (n & Hn & ->). exists (S n). split; [lia|done].
  - exists 0%nat. split; [lia|done].
Qed.

Lemma nondecreasing_tail head rest :
  timestamps_nondecreasing (head :: rest) = true →
  timestamps_nondecreasing rest = true.
Proof.
  cbn. destruct rest; [done|]. by intros [_ ?]%andb_true_iff.
Qed.

Lemma nondecreasing_head head rest :
  timestamps_nondecreasing (head :: rest) = true →
  ∀ r, r ∈ rest → timestamp head ≤ timestamp r.
Proof.
  revert head. induction rest as [|b rest IH]; intros head Hs r Hr.
  - by apply elem_of_nil in Hr.
  - cbn [timestamps_nondecreasing] in Hs.
    apply andb_true_iff in Hs as [Hab%Z.leb_le Hrest].
    apply elem_of_cons in Hr as [->|Hr]; [done|].
    specialize (IH b Hrest r Hr). lia.
Qed.

Lemma nondecreasing_drop n l :
  timestamps_nondecreasing l = true →
  timestamps_nondecreasing (drop n l) = true.
Proof.
  revert l. induction n as [|n IH]; intros l Hs; [by rewrite drop_0|].
  destruct l as [|head rest]; [done|]. cbn [drop].
  apply IH. by eapply nondecreasing_tail.
Qed.

Lemma prune_in_window now window l :
  timestamps_nondecreasing l = true →
  ∀ r, r ∈ prune now window l → now - timestamp r ≤ window.
Proof.
  induction l as [|head rest IH]; intros Hs r; cbn [prune].
  - by rewrite elem_of_nil.
  - destruct (Z.ltb_spec window (now - timestamp head)) as [Hold|Hfresh].
    + apply IH. by eapply nondecreasing_tail.
    + intros [->|Hr]%elem_of_cons; [done|].
      pose proof (nondecreasing_head _ _ Hs r Hr). lia.
Qed.

Lemma append_drop d x :
  ∃ n, (n ≤ length (items d ++ [x]))%nat
       ∧ items (Deque.append d x) = drop n (items d ++ [x]).
Proof.
  unfold Deque.append. cbn.
  destruct (maxlen d <? len (items d ++ [x])).
  - exists 1%nat. split; [rewrite length_app; cbn; lia|].
    by destruct (items d ++ [x]).
  - exists 0%nat. split; [lia|done].
Qed.

Lemma append_within d x :
  len (items d) ≤ maxlen d →
  len (items (Deque.append d x)) ≤ maxlen d.
Proof.
  unfold Deque.append, len. cbn. intros Hcap.
  destruct (Z.ltb_spec (maxlen d) (Z.of_nat (length (items d ++ [x]))))
    as [Hfull|Hroom]; [|done].
  rewrite length_app in Hfull. cbn in Hfull.
  destruct (items d ++ [x]) eqn:Heq.
  - by destruct (items d).
  - apply (f_equal length) in Heq. rewrite length_app in Heq. cbn in *. lia.
Qed.

(** A full deque gives up its oldest item for the new one. *)
Lemma append_evicts_oldest d x :
  0 < maxlen d → len (items d) = maxlen d →
  items (Deque.append d x) = tail (items d) ++ [x].
Proof.
  unfold Deque.append, len. cbn. intros Hpos Hfull.
  rewrite length_app. cbn.
  destruct (Z.ltb_spec (maxlen d) (Z.of_nat (length (items d) + 1))); [|lia].
  destruct (items d); [cbn in *; lia|done].
Qed.

(** Lines 53 to 58 leave for the key what was there, extended by the
    record when line 53 returns, without some records at the left. *)
Lemma update_history_drop (existing : option (deque MessageRecord))
    config now record :
  let log := entry_items existing
             ++ (if capacity_fits config then [record] else []) in
  ∃ n, (n ≤ length log)%nat
       ∧ entry_items (snd (update_history existing config now record))
         = drop n log.
Proof.
  cbv zeta. rewrite update_history_eq.
  destruct (capacity_fits config).
  2: { exists 0%nat. rewrite app_nil_r. split; [lia|done]. }
  cbv zeta.
  set (d0 := match existing with
             | Some d => d
             | None => {| items := []; maxlen := capacity config |}
             end).
  assert (Hbefore : entry_items existing = items d0) by (by destruct existing).
  rewrite Hbefore.
  destruct (append_drop d0 record) as (n1 & Hn1 & Happ).
  destruct (timedelta_seconds (time_window config)) as [window|e];
    cbn [snd entry_items items].
  - rewrite Happ.
    destruct (prune_drop now window (drop n1 (items d0 ++ [record])))
      as (n2 & Hn2 & ->).
    rewrite drop_drop. exists (n1 + n2)%nat. split; [|done].
    rewrite length_drop in Hn2. lia.
  - exists n1. by rewrite Happ.
Qed.

(** The entry keeps the capacity it has, or gets the one of the settings;
    there is no entry afterwards only when there was none and line 53
    raised. *)
Lemma update_history_maxlen (existing : option (deque MessageRecord))
    config now record :
  match snd (update_history existing config now record) with
  | Some d' =>
      maxlen d' = match existing with
                  | Some d => maxlen d
                  | None => capacity config
                  end
      ∧ (existing = None → capacity_fits config = true)
  | None => existing = None ∧ capacity_fits config = false
  end.
Proof.
  rewrite update_history_eq. destruct (capacity_fits config) eqn:Hfits.
  - cbv zeta. destruct (timedelta_seconds (time_window config));
      cbn [snd maxlen Deque.append]; by destruct existing.
  - cbn [snd]. by destruct existing.
Qed.

Lemma update_history_within (existing : option (deque MessageRecord))
    config now record :
  match existing with Some d => len (items d) ≤ maxlen d | None => True end →
  match snd (update_history existing config now record) with
  | Some d' => len (items d') ≤ maxlen d'
  | None => True
  end.
Proof.
  intros Hcap. rewrite update_history_eq.
  destruct (capacity_fits config); [|by destruct existing].
  cbv zeta.
  set (d0 := match existing with
             | Some d => d
             | None => {| items := []; maxlen := capacity config |}
             end).
  assert (Hd0 : len (items d0) ≤ maxlen d0).
  { subst d0. destruct existing; [done|]. unfold len. cbn.
    pose proof (capacity_at_least_20 config). lia. }
  apply append_within with (x := record) in Hd0.
  destruct (timedelta_seconds (time_window config)) as [window|e];
    cbn [snd items maxlen]; [|done].
  destruct (prune_drop now window (items (Deque.append d0 record)))
    as (n & _ & ->).
  unfold len in *. rewrite length_drop. lia.
Qed.

(** In the history handed to the rules the newest record stays at the
    right end unless the history is left empty (a window below zero, or a
    capacity of zero). *)
Lemma update_history_last (existing : option (deque MessageRecord))
    config now record history :
  fst (update_history existing config now record) = Returned history →
  last (items history) = Some record ∨ items history = [].
Proof.
  intros Hseen.
  destruct (update_history_drop existing config now record) as (n & Hn & Hdrop).
  rewrite update_history_eq in Hseen, Hdrop.
  destruct (capacity_fits config); [|discriminate]. cbv zeta in Hseen, Hdrop.
  destruct (timedelta_seconds (time_window config)); [|discriminate].
  cbv beta iota delta [fst snd] in Hseen, Hdrop.
  assert (Heq : items history = drop n (entry_items existing ++ [record]))
    by (rewrite <- Hdrop; by injection Hseen as <-).
  rewrite Heq. rewrite length_app in Hn. cbn in Hn.
  destruct (decide (n ≤ length (entry_items existing))%nat) as [Hle|Hgt].
  - left. rewrite drop_app_le by done. apply last_snoc.
  - right. apply drop_ge. rewrite length_app. cbn. lia.
Qed.

End BufferFacts.

Section HistoryProperties.

Context (rt : Runtime).

Lemma step_history self e key :
  _history (step rt self e) !! key =
    match e with
    | Register message config clock =>
        if decide (call_key message = Some key)
        then history_stored rt self key message config clock
        else _history self !! key
    | Reset _ _ => _history self !! key
    end.
Proof.
  destruct e as [message config clock|g u]; [|reflexivity]. cbn [step].
  by destruct (register_message_state rt self message config clock) as [_ ->].
Qed.

Lemma appended_cons key e events :
  appended rt key (e :: events) = appended rt key [e] ++ appended rt key events.
Proof.
  destruct e as [message config clock|g u]; cbn; [|done].
  destruct (decide (call_key message = Some key)); [|done].
  by destruct (capacity_fits config).
Qed.

Lemma appended_app key events1 events2 :
  appended rt key (events1 ++ events2)
  = appended rt key events1 ++ appended rt key events2.
Proof.
  induction events1 as [|e events1 IH]; [done|].
  rewrite <- app_comm_cons, appended_cons, IH, (appended_cons _ e events1).
  by rewrite app_assoc.
Qed.

Lemma first_config_app key events1 events2 :
  first_config key (events1 ++ events2) =
    match first_config key events1 with
    | Some config => Some config
    | None => first_config key events2
    end.
Proof.
  induction events1 as [|[message config clock|g u] events1 IH]; cbn; [done| |done].
  destruct (decide (call_key message = Some key)); [|done].
  by destruct (capacity_fits config).
Qed.

Lemma run_app self events1 events2 :
  run rt self (events1 ++ events2) = run rt (run rt self events1) events2.
Proof. apply fold_left_app. Qed.

(** One event drops records from the left of the buffer extended by what
    the event appends, and nothing else. *)
Lemma step_buffer_drop self e key :
  ∃ n, (n ≤ length (buffer self key ++ appended rt key [e]))%nat
       ∧ buffer (step rt self e) key
         = drop n (buffer self key ++ appended rt key [e]).
Proof.
  unfold buffer. rewrite step_history.
  destruct e as [message config clock|g u]; cbn [appended].
  - destruct (decide (call_key message = Some key)).
    + pose proof (update_history_drop (_history self !! key) config
                    (utcnow_register clock) (new_record rt message clock))
        as Hdrop.
      cbv zeta in Hdrop. unfold history_stored, entry_items in *.
      by destruct (capacity_fits config).
    + exists 0%nat. rewrite app_nil_r. split; [lia|done].
  - exists 0%nat. rewrite app_nil_r. split; [lia|done].
Qed.

(** Along a run the buffer of a key stays a suffix of the log of the
    records appended for the key, and the number of records dropped from
    the left of the log never shrinks. *)
Lemma run_buffer_drop key events :
  ∀ self log (n0 : nat),
    (n0 ≤ length log)%nat → buffer self key = drop n0 log →
    ∃ n, (n0 ≤ n)%nat
         ∧ (n ≤ length (log ++ appended rt key events))%nat
         ∧ buffer (run rt self events) key
           = drop n (log ++ appended rt key events).
Proof.
  induction events as [|e events IH]; intros self log n0 Hn0 Hbuf.
  - exists n0. cbn. rewrite app_nil_r. auto.
  - destruct (step_buffer_drop self e key) as (n1 & Hn1 & Hstep).
    rewrite Hbuf, <- (drop_app_le log _ n0), drop_drop in Hstep by done.
    rewrite Hbuf, length_app, length_drop in Hn1.
    destruct (IH (step rt self e) (log ++ appended rt key [e]) (n0 + n1)%nat)
      as (n & Hle & Hn & Hrun); [rewrite length_app; lia|done|].
    exists n. rewrite appended_cons, app_assoc. split; [lia|]. by split.
Qed.

Lemma init_buffer T key : buffer (SpamDetector_init T) key = [].
Proof. unfold buffer. cbn. by rewrite lookup_empty. Qed.

(** The capacity of the buffer of a key is that of the settings of the
    call that created it, and the buffer never outgrows it. *)
Lemma run_capacity T key events :
  match _history (run rt (SpamDetector_init T) events) !! key with
  | Some d =>
      ∃ first, first_config key events = Some first
               ∧ maxlen d = capacity first
               ∧ len (items d) ≤ maxlen d
  | None => first_config key events = None
  end.
Proof.
  induction events as [|e events IH] using rev_ind.
  - cbn. by rewrite lookup_empty.
  - rewrite run_app, first_config_app. cbn [run fold_left].
    rewrite step_history.
    set (self := run rt (SpamDetector_init T) events) in *.
    destruct e as [message config clock|g u].
    + cbn [first_config].
      destruct (decide (call_key message = Some key)) as [Hkey|Hkey].
      * unfold history_stored.
        pose proof (update_history_within (_history self !! key) config
                      (utcnow_register clock) (new_record rt message clock))
          as Hwithin.
        pose proof (update_history_maxlen (_history self !! key) config
                      (utcnow_register clock) (new_record rt message clock))
          as Hmaxlen.
        destruct (snd (update_history _ _ _ _)) as [d'|].
        -- destruct Hmaxlen as [Hmaxlen Hfits].
           destruct (_history self !! key) as [d|].
           ++ destruct IH as (first & -> & Hmax & Hlen). exists first.
              split; [done|]. split; [congruence|]. by apply Hwithin.
           ++ rewrite IH, (Hfits eq_refl). exists config.
              split; [done|]. split; [done|]. by apply Hwithin.
        -- destruct Hmaxlen as [Hnone ->]. rewrite Hnone in IH. by rewrite IH.
      * destruct (_history self !! key); [|by rewrite IH].
        destruct IH as (first & -> & ?). by exists first.
    + cbn [first_config]. destruct (_history self !! key); [|by rewrite IH].
      destruct IH as (first & -> & ?). by exists first.
Qed.

(** C1, as the code has it.  With [enabled = false] a call is never
    answered with an action and leaves the violation tracker as it was,
    but lines 53 to 58 run all the same.  For a message with a guild and
    a member author, and a limit and a window within the range of the two
    constructors, the record is appended to the buffer of the key, the
    buffer is pruned and the call returns none.  A limit of [2 ** 62] or
    more raises [OverflowError] before anything is changed; a window
    outside -86399999913600 .. 86399999999999 seconds raises it after the
    record has been appended and before any pruning.  Only a message that
    fails the guard leaves the history untouched in every case. *)
Theorem disabled_skips_detection self message config clock :
  enabled config = false →
  let answer := fst (register_message rt self message config clock) in
  let self' := snd (register_message rt self message config clock) in
  (∀ a, answer ≠ Returned (Some a))
  ∧ _violation_tracker self' = _violation_tracker self
  ∧ match call_key message with
    | None => answer = Returned None ∧ self' = self
    | Some key =>
        let record := new_record rt message clock in
        let extended := Deque.append (working_deque self key config) record in
        if capacity_fits config then
          match timedelta_seconds (time_window config) with
          | Returned window =>
              let history :=
                {| items := prune (utcnow_register clock) window (items extended);
                   maxlen := maxlen extended |} in
              history_seen rt self key message config clock = Returned history
              ∧ answer = Returned None
              ∧ _history self' = <[key := history]> (_history self)
              ∧ (last (items history) = Some record ∨ items history = [])
          | Raised _ =>
              answer = Raised OverflowError
              ∧ _history self' = <[key := extended]> (_history self)
          end
        else answer = Raised OverflowError ∧ self' = self
    end
  ∧ (capacity_fits config = true ↔ spam_limit config < 4611686018427387904)
  ∧ ((∃ window, timedelta_seconds (time_window config) = Returned window)
     ↔ -86399999913600 ≤ time_window config ≤ 86399999999999).
Proof.
  intros Hoff. cbv zeta.
  assert (Hranges :
    (capacity_fits config = true ↔ spam_limit config < 4611686018427387904)
    ∧ ((∃ window, timedelta_seconds (time_window config) = Returned window)
       ↔ -86399999913600 ≤ time_window config ≤ 86399999999999)).
  { split; [apply capacity_fits_iff|].
    destruct (timedelta_seconds_cases (time_window config)) as [[? ->]|[? ->]].
    - split; [done|eauto].
    - split; [by intros [? [=]]|lia]. }
  destruct (call_key message) as [key|] eqn:Hkey.
  - destruct (call_key_Some _ _ Hkey) as (m & Hg & Ha & Hm).
    rewrite (register_message_member _ _ _ _ _ _ _ Hg Ha). cbv zeta.
    rewrite Hm, <- surjective_pairing.
    pose proof (update_history_last (_history self !! key) config
                  (utcnow_register clock) (new_record rt message clock))
      as Hlast.
    unfold history_seen, history_stored, working_deque in *.
    rewrite update_history_eq in *.
    destruct (capacity_fits config) eqn:Hfits.
    + cbv zeta in *.
      destruct (timedelta_seconds (time_window config)) as [window|e] eqn:Hw;
        cbn [fst snd] in *.
      * rewrite detect_first_match, Hoff. cbn [fst snd _violation_tracker _history].
        split; [done|]. split; [done|]. split; [|done].
        split; [done|]. split; [done|]. split; [done|]. by apply Hlast.
      * apply timedelta_seconds_raised in Hw as [-> _].
        cbn [fst snd _violation_tracker _history]. auto.
    + cbn [fst snd _violation_tracker _history].
      split; [done|]. split; [done|]. split; [|done]. split; [done|].
      destruct self as [T h]. cbn [_history _violation_tracker] in *. f_equal.
      destruct (h !! key) as [d|] eqn:Hd; [|done]. by apply insert_id.
  - rewrite (register_message_skipped _ _ _ _ _ Hkey). cbn. auto.
Qed.

(** C5. When the records appended for a key carry timestamps that never
    decrease, every record left in the buffer after a call for that key
    that has pruned (its limit and its window are within the range of the
    two constructors) is no older than the window of that call, measured
    from the time of the call.  The buffer is always the log of the
    appended records without its first [n] entries, and [n] never goes
    down as more events follow: a record that was pruned or evicted is in
    no later buffer. *)
Theorem window_invariant (T : ViolationTracker) (key : Z * Z)
    (earlier later : list event) message config clock window :
  let start := SpamDetector_init T in
  let call := Register message config clock in
  (call_key message = Some key →
   capacity_fits config = true →
   timedelta_seconds (time_window config) = Returned window →
   timestamps_nondecreasing (appended rt key (earlier ++ [call])) = true →
   ∀ r, r ∈ buffer (run rt start (earlier ++ [call])) key →
        utcnow_register clock - timestamp r ≤ window)
  ∧ ∃ n1 n2 : nat,
      (n1 ≤ n2)%nat
      ∧ (n1 ≤ length (appended rt key earlier))%nat
      ∧ (n2 ≤ length (appended rt key (earlier ++ later)))%nat
      ∧ buffer (run rt start earlier) key = drop n1 (appended rt key earlier)
      ∧ buffer (run rt start (earlier ++ later)) key
        = drop n2 (appended rt key (earlier ++ later))
      ∧ appended rt key (earlier ++ later)
        = appended rt key earlier ++ appended rt key later.
Proof.
  cbv zeta.
  destruct (run_buffer_drop key earlier (SpamDetector_init T) [] 0%nat)
    as (n1 & _ & Hn1 & Hbuf1); [done|by rewrite init_buffer|].
  cbn [app] in Hn1, Hbuf1.
  split.
  - intros Hkey Hfits Hwindow Hsorted r.
    rewrite run_app. cbn [run fold_left].
    set (self := run rt (SpamDetector_init T) earlier) in *.
    unfold buffer at 1. rewrite step_history.
    destruct (decide (call_key message = Some key)); [|done].
    unfold history_stored. rewrite update_history_eq, Hfits. cbv zeta.
    rewrite Hwindow. cbn [snd items].
    apply prune_in_window.
    match goal with |- context [Deque.append ?d ?x] =>
      destruct (append_drop d x) as (k & Hk & ->);
      replace (items d) with (buffer self key)
        by (unfold buffer; by destruct (_history self !! key))
    end.
    rewrite appended_app in Hsorted. cbn [appended] in Hsorted.
    destruct (decide (call_key message = Some key)); [|done].
    rewrite Hfits in Hsorted.
    rewrite Hbuf1, <- (drop_app_le _ _ n1), drop_drop by done.
    by apply nondecreasing_drop.
  - destruct (run_buffer_drop key later
                (run rt (SpamDetector_init T) earlier)
                (appended rt key earlier) n1 Hn1 Hbuf1)
      as (n2 & Hle & Hn2 & Hbuf2).
    exists n1, n2. rewrite run_app, appended_app. auto 10.
Qed.

(** C6, as the code has it.  The buffer of a key never holds more records
    than the capacity it was created with, [max(2 * spam_limit, 20)] for
    the settings of the first call for that key; later settings do not
    change it.  What the buffer holds is a suffix of the records appended
    for the key, so the records given up are always the oldest, and a
    full buffer drops its leftmost record for the new one. *)
Theorem capacity_fixed_at_creation (T : ViolationTracker) (key : Z * Z)
    (events : list event) (d : deque MessageRecord) :
  _history (run rt (SpamDetector_init T) events) !! key = Some d →
  (∃ first,
      first_config key events = Some first
      ∧ maxlen d = Z.max (spam_limit first * 2) 20
      ∧ len (items d) ≤ maxlen d)
  ∧ (∃ n : nat, items d = drop n (appended rt key events))
  ∧ ∀ x, len (items d) = maxlen d →
         items (Deque.append d x) = tail (items d) ++ [x].
Proof.
  intros Hd. pose proof (run_capacity T key events) as Hcap.
  rewrite Hd in Hcap. destruct Hcap as (first & Hfirst & Hmax & Hlen).
  split; [by exists first|]. split.
  - destruct (run_buffer_drop key events (SpamDetector_init T) [] 0%nat)
      as (n & _ & _ & Hbuf); [done|by rewrite init_buffer|].
    unfold buffer in Hbuf. rewrite Hd in Hbuf. by exists n.
  - intros x Hfull. apply append_evicts_oldest; [|done].
    rewrite Hmax. unfold capacity. lia.
Qed.

End HistoryProperties.

(* ===================================================================== *)
(** ** The near-duplicate rule and the new-member rule *)
(* ===================================================================== *)



Section RuleProperties.

Context (rt : Runtime).

Lemma is_ai_exempt_iff content keywords :
  _is_ai_exempt rt content keywords = true
  ↔ ∃ keyword, keyword ∈ keywords ∧ contains_keyword rt content keyword.
Proof.
  unfold _is_ai_exempt, contains_keyword.
  induction keywords as [|k rest IH]; cbn.
  - split; [discriminate|]. intros (kw & Hin & _). by apply elem_of_nil in Hin.
  - destruct (str_in (str_lower rt k) (str_lower rt content)) eqn:Hk.
    + split; [|done]. intros _. exists k. split; [apply list_elem_of_here|done].
    + rewrite IH. split.
      * intros (kw & Hin & Hkw). exists kw. split; [by apply list_elem_of_further|done].
      * intros (kw & Hin & Hkw). apply elem_of_cons in Hin as [->|Hin].
        -- congruence.
        -- by exists kw.
Qed.





(** The last rule, when none of the five before it matched. *)
Lemma detect_new_member message history config now m :
  author message = AuthorMember m →
  enabled config = true →
  mass_mention_rule message = false →
  flood_rule history config = false →
  mention_spam_rule message config = false →
  _has_duplicate_content rt history = false →
  near_duplicate_rule rt message history config = false →
  _detect_violation rt message history config now =
    match timedelta_minutes (new_user_minutes config) with
    | Raised e => Raised e
    | Returned min_age =>
        Returned
          (if is_new now m min_age && new_member_offence rt message history config
           then (Some REASON_NEW_ACCOUNT, None)
           else (None, None))
    end.
Proof.
  intros Ha Hen Hmass Hflood Hment Hdup Hai.
  rewrite detect_first_match, Hen. unfold rule_table, first_match.
  rewrite Hmass, Hflood, Hment, Hdup, Hai. unfold new_member_rule. rewrite Ha.
  destruct (timedelta_minutes (new_user_minutes config)); [|done].
  by destruct (_ && _).
Qed.

(** C10. For a member without a joined-at timestamp the detection is the
    one for the same member with the account's creation as joined-at: the
    membership age is the account age.  When no earlier rule matched, the
    detector answers such a member with the new-account reason exactly
    when the account is younger than [new_user_minutes] and the message
    has a link or two mentions or the history is as long as the limit;
    for a member with a joined-at the test is the same with the
    membership age next to the account age.  A [new_user_minutes] outside
    -1439999998560 .. 1439999999999 raises [OverflowError] at that
    point, with or without a joined-at. *)
Theorem absent_join_date_uses_account_age message history config now m :
  author message = AuthorMember m → joined_at m = None →
  let joined_at_creation :=
    {| guild := guild message;
       author := AuthorMember {| member_id := member_id m;
                                 created_at := created_at m;
                                 joined_at := Some (created_at m) |};
       content := content message;
       mention_everyone := mention_everyone message;
       mentions := mentions message;
       role_mentions := role_mentions message |} in
  _detect_violation rt message history config now
  = _detect_violation rt joined_at_creation history config now
  ∧ (enabled config = true →
     mass_mention_rule message = false →
     flood_rule history config = false →
     mention_spam_rule message config = false →
     _has_duplicate_content rt history = false →
     near_duplicate_rule rt message history config = false →
     (∀ min_age,
        timedelta_minutes (new_user_minutes config) = Returned min_age →
        _detect_violation rt message history config now =
          Returned
            (if (now - created_at m <? min_age)
                && (contains_link rt (content message)
                    || (2 <=? count_mentions message)
                    || (spam_limit config <=? len (items history)))
             then (Some REASON_NEW_ACCOUNT, None)
             else (None, None)))
     ∧ (new_user_minutes config < -1439999998560
        ∨ 1439999999999 < new_user_minutes config →
        _detect_violation rt message history config now = Raised OverflowError)
     ∧ ∀ other joined min_age,
         joined_at other = Some joined →
         timedelta_minutes (new_user_minutes config) = Returned min_age →
         _detect_violation rt
           {| guild := guild message;
              author := AuthorMember other;
              content := content message;
              mention_everyone := mention_everyone message;
              mentions := mentions message;
              role_mentions := role_mentions message |}
           history config now =
           Returned
             (if ((now - created_at other <? min_age) || (now - joined <? min_age))
                 && (contains_link rt (content message)
                     || (2 <=? count_mentions message)
                     || (spam_limit config <=? len (items history)))
              then (Some REASON_NEW_ACCOUNT, None)
              else (None, None))).
Proof.
  intros Ha Hj. cbv zeta. split.
  - unfold _detect_violation, count_mentions. cbn [content mention_everyone
      mentions role_mentions author created_at joined_at].
    rewrite Ha, Hj. reflexivity.
  - intros Hen Hmass Hflood Hment Hdup Hai. split; [|split].
    + intros min_age Hmin.
      rewrite (detect_new_member _ _ _ _ m) by done. rewrite Hmin.
      unfold is_new, join_age, account_age, new_member_offence.
      by rewrite Hj, orb_diag.
    + intros Hout.
      rewrite (detect_new_member _ _ _ _ m) by done.
      destruct (timedelta_minutes_cases (new_user_minutes config))
        as [[? ->]|[? ->]]; [lia|done].
    + intros other joined min_age Hjoined Hmin.
      rewrite (detect_new_member _ _ _ _ other) by done. rewrite Hmin.
      unfold is_new, join_age, account_age, new_member_offence.
      by rewrite Hjoined.
Qed.

End RuleProperties.

(* ===================================================================== *)
(** ** The statements at work on the example data *)
(* ===================================================================== *)

Section Worked.

Import Examples MoreExamples.

(** [ViolationTracker()] builds the default tracker. *)
Lemma init_default :
  ViolationTracker.init ViolationTracker.default_decay_hours
  = Returned default_tracker.
Proof. reflexivity. Qed.

(** A first strike on an empty tracker. *)
Lemma increment_algorithm_witness :
  fst (ViolationTracker.increment default_tracker 1 7 t0) = Returned 1.
Proof.
  destruct (increment_algorithm default_tracker 1 7 t0)
    as (stored & Heq & _ & Hcount & _).
  - vm_compute. discriminate.
  - rewrite Heq. cbn [fst]. f_equal. exact Hcount.
Defined.

(** The sixth message in half a second is "@everyone": a flood and a mass
    mention at once. *)
Lemma mass_mention_beats_flood_witness :
  ∃ strikes self',
    register_message rt (run rt start (burst 5 5)) (text "@everyone")
      (settings true 5) (at_ms 500)
    = (Returned (Some {| action := TIMEOUT;
                         reason := REASON_MASS_MENTION;
                         details := Some (take 200 (u8 "@everyone"));
                         violation_count := strikes |}),
       self').
Proof.
  refine (proj1 (mass_mention_beats_flood rt (run rt start (burst 5 5))
                   (text "@everyone") (settings true 5) (at_ms 500) 1 veteran
                   (returned empty_history
                      (history_seen rt (run rt start (burst 5 5)) key
                         (text "@everyone") (settings true 5) (at_ms 500)))
                   _ _ _ _ _ _ _)).
  - reflexivity.
  - reflexivity.
  - vm_compute. reflexivity.
  - reflexivity.
  - vm_compute. reflexivity.
  - vm_compute. reflexivity.
  - vm_compute. discriminate.
Defined.

(** The sixth message under limit 5 is a flood and the first strike. *)
Lemma escalation_by_count_witness :
  ∃ a self',
    register_message rt (run rt start (burst 5 5)) (text "f")
      (settings true 5) (at_ms 500) = (Returned (Some a), self')
    ∧ action a = WARN.
Proof.
  destruct (escalation_by_count rt (run rt start (burst 5 5)) (text "f")
              (settings true 5) (at_ms 500) 1 veteran six_deep REASON_FLOOD)
    as (strikes & tracker & a & self' & Hinc & Hreg & _ & _ & _ & Hwarn & _).
  - reflexivity.
  - reflexivity.
  - vm_compute. reflexivity.
  - vm_compute. reflexivity.
  - vm_compute. discriminate.
  - exists a, self'. split; [exact Hreg|]. apply Hwarn.
    vm_compute in Hinc. by injection Hinc as <- _.
Defined.

(** The answer to the sixth message: a warning with strike count 1. *)
Lemma returned_action_invariant_witness :
  let a := {| action := WARN; reason := REASON_FLOOD;
              details := Some (u8 "f"); violation_count := 1 |} in
  1 ≤ violation_count a ∧ action a ≠ NONE
  ∧ action a ∈ [WARN; DELETE; TIMEOUT; KICK].
Proof.
  refine (proj2 (returned_action_invariant rt 24 default_tracker (burst 5 5) _)
            (run rt start (burst 5 5)) (text "f") (settings true 5) (at_ms 500)
            _
            (snd (register_message rt (run rt start (burst 5 5)) (text "f")
                    (settings true 5) (at_ms 500)))
            _).
  - reflexivity.
  - vm_compute. reflexivity.
Defined.

(** A pardon after the first strike, then a message of the veteran that
    triggers nothing and one of another member: the next flood message of
    the veteran is a first strike again. *)
Lemma reset_then_first_strike_witness :
  ∃ a self',
    register_message rt
      (run rt (reset_user (run rt start (burst 6 5)) 1 7) calm)
      (text "h") (settings true 5) (at_ms 800) = (Returned (Some a), self')
    ∧ violation_count a = 1 ∧ action a = WARN.
Proof.
  destruct (proj2 (reset_then_first_strike rt (run rt start (burst 6 5)) 1 7
                     calm (text "h") (settings true 5) (at_ms 800) veteran
                     (returned empty_history
                        (history_seen rt
                           (run rt (reset_user (run rt start (burst 6 5)) 1 7)
                              calm)
                           key (text "h") (settings true 5) (at_ms 800)))
                     REASON_FLOOD None))
    as (_ & Hnext).
  - vm_compute. reflexivity.
  - destruct Hnext as (a & self' & Hreg & _ & Hcount & Hwarn & _).
    + reflexivity.
    + reflexivity.
    + reflexivity.
    + vm_compute. reflexivity.
    + vm_compute. reflexivity.
    + exists a, self'. auto.
Defined.

(** A disabled guild: the call answers none, yet the buffer has the
    record; with a window of [10 ** 14] seconds the call raises. *)
Lemma disabled_skips_detection_witness :
  (fst (register_message rt start (text "hello") (settings false 5) (at_ms 0))
     = Returned None
   ∧ _violation_tracker
       (snd (register_message rt start (text "hello") (settings false 5) (at_ms 0)))
     = _violation_tracker start)
  ∧ fst (register_message rt start (text "hello")
           (settings_sized 5 100000000000000) (at_ms 0))
    = Raised OverflowError.
Proof.
  split.
  - destruct (disabled_skips_detection rt start (text "hello") (settings false 5)
                (at_ms 0)) as (_ & Htracker & Hcase & _).
    + reflexivity.
    + split; [|exact Htracker].
      change (call_key (text "hello")) with (Some key) in Hcase.
      cbv beta iota zeta in Hcase.
      change (capacity_fits (settings false 5)) with true in Hcase.
      change (timedelta_seconds (time_window (settings false 5)))
        with (Returned (A := timedelta) 7000000) in Hcase.
      cbv beta iota in Hcase. exact (proj1 (proj2 Hcase)).
  - destruct (disabled_skips_detection rt start (text "hello")
                (settings_sized 5 100000000000000) (at_ms 0))
      as (_ & _ & Hcase & _).
    + reflexivity.
    + change (call_key (text "hello")) with (Some key) in Hcase.
      cbv beta iota zeta in Hcase.
      change (capacity_fits (settings_sized 5 100000000000000)) with true in Hcase.
      change (timedelta_seconds
                (time_window (settings_sized 5 100000000000000)))
        with (Raised (A := timedelta) OverflowError) in Hcase.
      cbv beta iota in Hcase. exact (proj1 Hcase).
Defined.

(** C1, the claim as stated, fails: a call with [enabled = false] on a
    detector without any history leaves a record in the buffer of the
    key. *)
Lemma disabled_call_mutates_history :
  ¬ (∀ (rt : Runtime) self message config clock,
        enabled config = false →
        register_message rt self message config clock = (Returned None, self)).
Proof.
  intros Hclaim.
  specialize (Hclaim rt start (text "hello") (settings false 5) (at_ms 0) eq_refl).
  apply (f_equal (fun p => length (buffer (snd p) key))) in Hclaim.
  vm_compute in Hclaim. discriminate Hclaim.
Qed.

(** Six messages in half a second: the first is still in the buffer and
    within the window of seven seconds. *)
Lemma window_invariant_witness :
  utcnow_register (at_ms 500) - timestamp (new_record rt (text "a") (at_ms 0))
    ≤ 7000000.
Proof.
  refine (proj1 (window_invariant rt default_tracker
                   key (burst 5 5) [] (text "f") (settings true 5) (at_ms 500)
                   7000000)
            _ _ _ _ (new_record rt (text "a") (at_ms 0)) _).
  - reflexivity.
  - reflexivity.
  - reflexivity.
  - vm_compute. reflexivity.
  - vm_compute. apply list_elem_of_here.
Defined.

(** The buffer of the veteran was created under limit 5: capacity 20. *)
Lemma capacity_fixed_at_creation_witness :
  maxlen six_deep = 20 ∧ len (items six_deep) ≤ maxlen six_deep.
Proof.
  destruct (capacity_fixed_at_creation rt default_tracker key
              (burst 5 5 ++ [Register (text "f") (settings true 5) (at_ms 500)])
              six_deep)
    as ((first & Hfirst & Hmax & Hlen) & _).
  - vm_compute. reflexivity.
  - split; [|exact Hlen]. rewrite Hmax.
    vm_compute in Hfirst. by injection Hfirst as <-.
Defined.

(** C6, the claim as stated, fails: a buffer created under limit 11 has
    capacity 22, and still holds 22 records after a call whose settings
    have limit 5, which would allow 20. *)
Lemma capacity_ignores_later_settings :
  ¬ (∀ (rt : Runtime) T events message config clock key d,
        call_key message = Some key →
        _history (run rt (SpamDetector_init T)
                    (events ++ [Register message config clock])) !! key = Some d →
        len (items d) ≤ Z.max (2 * spam_limit config) 20).
Proof.
  intros Hclaim.
  pose (final := run rt start
                   (burst 21 11 ++ [Register (text "z") (settings true 5) (at_ms 2100)])).
  assert (Hlen : (fun d => len (items d)) <$> (_history final !! key) = Some 22)
    by (vm_compute; reflexivity).
  destruct (_history final !! key) as [d|] eqn:Hd; [|discriminate].
  injection Hlen as Hlen.
  specialize (Hclaim rt default_tracker
                (burst 21 11) (text "z") (settings true 5) (at_ms 2100) key d
                eq_refl Hd).
  rewrite Hlen in Hclaim. vm_compute in Hclaim. by apply Hclaim.
Qed.


(** A link from an account created a minute ago, without a joined-at:
    the account is younger than the ten minutes of the settings. *)
Lemma absent_join_date_uses_account_age_witness :
  _detect_violation rt (text_from new_account "see http://x.y") empty_history
    (settings true 5) t0
  = Returned (Some REASON_NEW_ACCOUNT, None).
Proof.
  refine (eq_trans
            (proj1 (proj2 (absent_join_date_uses_account_age rt
                             (text_from new_account "see http://x.y")
                             empty_history (settings true 5) t0 new_account
                             _ _)
                      _ _ _ _ _ _)
               600000000 _)
            _).
  - reflexivity.
  - reflexivity.
  - reflexivity.
  - vm_compute. reflexivity.
  - vm_compute. reflexivity.
  - vm_compute. reflexivity.
  - vm_compute. reflexivity.
  - vm_compute. reflexivity.
  - reflexivity.
  - vm_compute. reflexivity.
Defined.

End Worked.

(* ===================================================================== *)
(** ** More on the strike counter *)
(* ===================================================================== *)

Section TrackerSequences.

Implicit Types (T : ViolationTracker) (r : ViolationRecord).

(** Within the decay period a positive count goes up by one and the decay
    check stays where it was; no division takes place. *)
Lemma increment_no_decay T g u now r :
  _records T !! (g, u) = Some r →
  now - last_decay_check r < _decay_after T →
  1 ≤ count r →
  ViolationTracker.increment T g u now =
    (Returned (count r + 1),
     {| _records :=
          <[(g, u) := {| count := count r + 1; last_triggered := now;
                          last_decay_check := last_decay_check r |}]>
            (_records T);
        _decay_after := _decay_after T |}).
Proof.
  intros Hr Hsoon Hpos. unfold ViolationTracker.increment, ViolationTracker.decay.
  rewrite Hr.
  destruct (Z.leb_spec (_decay_after T) (now - last_decay_check r)); [lia|].
  destruct (Z.leb_spec (count r) 0); [lia|]. reflexivity.
Qed.

(** After a whole period, with a period above zero. *)
Lemma increment_decayed T g u now r :
  0 < _decay_after T →
  _records T !! (g, u) = Some r →
  _decay_after T ≤ now - last_decay_check r →
  let left := Z.max 0 (count r - (now - last_decay_check r) / _decay_after T) in
  ViolationTracker.increment T g u now =
    (Returned (left + 1),
     {| _records :=
          <[(g, u) := {| count := left + 1; last_triggered := now;
                          last_decay_check := now |}]> (_records T);
        _decay_after := _decay_after T |}).
Proof.
  intros HP Hr Hlate. cbv zeta.
  unfold ViolationTracker.increment, ViolationTracker.decay. rewrite Hr.
  destruct (Z.leb_spec (_decay_after T) (now - last_decay_check r)); [|lia].
  destruct (Z.eqb_spec (_decay_after T) 0); [lia|]. cbn [count last_decay_check].
  destruct (Z.leb_spec
              (Z.max 0 (count r - (now - last_decay_check r) / _decay_after T)) 0)
    as [Hzero|Hpos]; cbn [count last_decay_check]; [|reflexivity].
  replace (Z.max 0 (count r - (now - last_decay_check r) / _decay_after T))
    with 0 by lia.
  reflexivity.
Qed.

Lemma strikes_from T g u times :
  ∀ T r,
    _records T !! (g, u) = Some r → 1 ≤ count r →
    (∀ t, t ∈ times → t - last_decay_check r < _decay_after T) →
    fst (increments T g u times)
    = Returned <$> seqZ (count r + 1) (len times).
Proof.
  induction times as [|now rest IH]; intros T' r Hr Hpos Hsoon; [done|].
  cbn [increments].
  rewrite (increment_no_decay T' g u now r Hr) by (auto using list_elem_of_here).
  set (T1 := {| _records := _; _decay_after := _ |}).
  specialize (IH T1 {| count := count r + 1; last_triggered := now;
                       last_decay_check := last_decay_check r |}).
  destruct (increments T1 g u rest) as [results T2] eqn:Hrest.
  cbn [fst] in *. rewrite IH.
  - unfold len. cbn [length count].
    rewrite (seqZ_cons (count r + 1) (Z.of_nat (S (length rest)))) by lia.
    cbn [fmap list_fmap]. do 3 f_equal; unfold datetime in *; lia.
  - subst T1. cbn. apply lookup_insert_eq.
  - cbn. lia.
  - intros t Ht. cbn. apply Hsoon. by apply list_elem_of_further.
Qed.

(** X1. Strikes for a key without a record, all less than one decay period
    after the first, count 1, 2, 3, ...: each call returns one more than
    the call before, so the actions climb warn, delete, timeout and then
    stay at kick. *)
Theorem strikes_count_up T g u first rest :
  _records T !! (g, u) = None →
  (∀ t, t ∈ rest → t - first < _decay_after T) →
  fst (increments T g u (first :: rest))
    = Returned <$> seqZ 1 (len (first :: rest))
  ∧ ∀ (i : nat) strikes,
      fst (increments T g u (first :: rest)) !! i = Some (Returned strikes) →
      strikes = Z.of_nat i + 1
      ∧ _action_for_count strikes
        = match i with
          | 0%nat => WARN | 1%nat => DELETE | 2%nat => TIMEOUT | _ => KICK
          end.
Proof.
  intros Hnone Hsoon.
  assert (Hall : fst (increments T g u (first :: rest))
                 = Returned <$> seqZ 1 (len (first :: rest))).
  { cbn [increments]. rewrite (increment_fresh T g u first Hnone).
    set (T1 := {| _records := _; _decay_after := _ |}).
    pose proof (strikes_from T g u rest T1
                  {| count := 1; last_triggered := first;
                     last_decay_check := first |}) as Hrest.
    destruct (increments T1 g u rest) as [results T2].
    cbn [fst] in *. rewrite Hrest.
    - unfold len. cbn [length count].
      rewrite (seqZ_cons 1 (Z.of_nat (S (length rest)))) by lia.
      cbn [fmap list_fmap]. do 3 f_equal; unfold datetime in *; lia.
    - subst T1. cbn. apply lookup_insert_eq.
    - cbn. lia.
    - intros t Ht. cbn. by apply Hsoon. }
  split; [done|]. intros i strikes. rewrite Hall, list_lookup_fmap.
  intros Hi. destruct (seqZ 1 (len (first :: rest)) !! i) as [n|] eqn:Hn;
    [|discriminate].
  injection Hi as ->. apply lookup_seqZ in Hn as [-> _].
  split; [lia|].
  destruct i as [|[|[|i]]]; [reflexivity..|].
  unfold _action_for_count.
  destruct (Z.leb_spec (1 + Z.of_nat (S (S (S i)))) 1); [lia|].
  destruct (Z.eqb_spec (1 + Z.of_nat (S (S (S i)))) 2); [lia|].
  destruct (Z.eqb_spec (1 + Z.of_nat (S (S (S i)))) 3); [lia|done].
Qed.

(** X2. With a decay period above zero, a strike that comes at least one
    period after the last decay check never returns more than the count
    that was stored (and at least one); it returns exactly one when as
    many periods have passed as there were strikes.  The decay check moves
    to the time of the call. *)
Theorem decay_lowers_strikes T g u now r :
  0 < _decay_after T →
  _records T !! (g, u) = Some r →
  1 ≤ count r →
  _decay_after T ≤ now - last_decay_check r →
  ∃ strikes T',
    ViolationTracker.increment T g u now = (Returned strikes, T')
    ∧ 1 ≤ strikes ≤ count r
    ∧ (count r * _decay_after T ≤ now - last_decay_check r → strikes = 1)
    ∧ _records T' !! (g, u)
      = Some {| count := strikes; last_triggered := now;
                last_decay_check := now |}.
Proof.
  intros HP Hr Hpos Hlate.
  rewrite (increment_decayed T g u now r HP Hr Hlate).
  eexists _, _. split; [reflexivity|].
  assert (Hsteps : 1 ≤ (now - last_decay_check r) / _decay_after T)
    by (apply Z.div_le_lower_bound; lia).
  split; [lia|]. split.
  - intros Hfull.
    assert (count r ≤ (now - last_decay_check r) / _decay_after T)
      by (apply Z.div_le_lower_bound; lia).
    lia.
  - cbn. apply lookup_insert_eq.
Qed.

(** X3. A tracker with decay period zero (as [ViolationTracker(0)] makes
    it) cannot count a second strike: for a key that has a record whose
    decay check is not in the future, [increment] raises
    [ZeroDivisionError] and leaves the tracker as it was; in
    [register_message] the error comes after the history has been
    updated. *)
Theorem zero_decay_period_raises (rt : Runtime) self message config clock
    g m r history violation_reason forced_action :
  _decay_after (_violation_tracker self) = 0 →
  _records (_violation_tracker self) !! (g, member_id m) = Some r →
  last_decay_check r ≤ utcnow_increment clock →
  ViolationTracker.increment (_violation_tracker self) g (member_id m)
      (utcnow_increment clock)
    = (Raised ZeroDivisionError, _violation_tracker self)
  ∧ (guild message = Some g → author message = AuthorMember m →
     history_seen rt self (g, member_id m) message config clock
       = Returned history →
     _detect_violation rt message history config (utcnow_detect clock)
       = Returned (Some violation_reason, forced_action) →
     register_message rt self message config clock
       = (Raised ZeroDivisionError,
          {| _violation_tracker := _violation_tracker self;
             _history := <[(g, member_id m) := history]> (_history self) |})).
Proof.
  intros Hzero Hr Hpast.
  assert (Hinc : ViolationTracker.increment (_violation_tracker self) g
                   (member_id m) (utcnow_increment clock)
                 = (Raised ZeroDivisionError, _violation_tracker self)).
  { unfold ViolationTracker.increment, ViolationTracker.decay.
    rewrite Hr, Hzero.
    destruct (Z.leb_spec 0 (utcnow_increment clock - last_decay_check r)); [|lia].
    reflexivity. }
  split; [done|]. intros Hg Ha Hseen Hdet.
  rewrite (register_message_member rt _ _ _ _ _ _ Hg Ha). cbv zeta.
  by rewrite (history_seen_stored _ _ _ _ _ _ _ Hseen), Hseen, Hdet, Hinc.
Qed.

End TrackerSequences.

(* ===================================================================== *)
(** ** More on the rule engine *)
(* ===================================================================== *)

Lemma other_reasons_not_mass r :
  r ∈ [REASON_FLOOD; REASON_MENTION_SPAM; REASON_DUPLICATE;
       REASON_AI_SIMILARITY; REASON_NEW_ACCOUNT] →
  r ≠ REASON_MASS_MENTION.
Proof.
  rewrite !elem_of_cons, elem_of_nil.
  intros [->|[->|[->|[->|[->|[]]]]]] H;
    apply (f_equal (hd 0%N)) in H; vm_compute in H; discriminate H.
Qed.

Lemma count_from_nonneg needle hay skip : 0 ≤ count_from needle hay skip.
Proof.
  revert skip. induction hay as [|c hay IH]; intros skip; cbn [count_from].
  - destruct needle, skip; lia.
  - destruct skip; [|apply IH].
    destruct (startswith (c :: hay) needle); [|apply IH].
    specialize (IH (length needle - 1)%nat). lia.
Qed.

Lemma str_in_count needle hay :
  needle ≠ [] → str_in needle hay = true → 1 ≤ str_count hay needle.
Proof.
  intros Hne. unfold str_count.
  induction hay as [|c hay IH]; cbn [str_in count_from].
  - destruct needle; [done|discriminate].
  - destruct (startswith (c :: hay) needle) eqn:Hstart.
    + intros _. pose proof (count_from_nonneg needle hay (length needle - 1)).
      lia.
    + cbn [orb]. apply IH.
Qed.

Lemma count_mentions_nonneg message : 0 ≤ count_mentions message.
Proof.
  unfold count_mentions, str_count, len.
  pose proof (count_from_nonneg (u8 "@everyone") (content message) 0).
  pose proof (count_from_nonneg (u8 "@here") (content message) 0).
  destruct (mention_everyone message); lia.
Qed.

Lemma last_three {A} (l : list A) :
  (3 ≤ length l)%nat → ∃ older r1 r2 newest, l = older ++ [r1; r2; newest].
Proof.
  intros Hlen. exists (take (length l - 3) l).
  pose proof (length_drop l (length l - 3)) as Hdrop.
  destruct (drop (length l - 3) l) as [|r1 [|r2 [|newest [|]]]] eqn:Heq;
    cbn in Hdrop; try lia.
  exists r1, r2, newest. by rewrite <- Heq, take_drop.
Qed.

(** The reasons are compared by name in this section. *)
Opaque REASON_MASS_MENTION REASON_FLOOD REASON_MENTION_SPAM REASON_DUPLICATE
  REASON_AI_SIMILARITY REASON_NEW_ACCOUNT.

Section MoreRuleProperties.

Context (rt : Runtime).

(** Which reason comes with which forced action. *)
Lemma detect_reason message history config now violation_reason forced_action :
  _detect_violation rt message history config now
    = Returned (Some violation_reason, forced_action) →
  (violation_reason = REASON_MASS_MENTION ∧ forced_action = Some TIMEOUT)
  ∨ (violation_reason ∈ [REASON_FLOOD; REASON_MENTION_SPAM; REASON_DUPLICATE;
                         REASON_AI_SIMILARITY; REASON_NEW_ACCOUNT]
     ∧ forced_action = None).
Proof.
  rewrite detect_first_match. unfold rule_table, first_match.
  destruct (enabled config); [|discriminate].
  destruct (mass_mention_rule message); [intros [= <- <-]; by left|].
  rewrite !elem_of_cons.
  destruct (flood_rule history config);
    [intros [= <- <-]; right; split; [left|]; reflexivity|].
  destruct (mention_spam_rule message config);
    [intros [= <- <-]; right; split; [do 1 right; left|]; reflexivity|].
  destruct (_has_duplicate_content rt history);
    [intros [= <- <-]; right; split; [do 2 right; left|]; reflexivity|].
  destruct (near_duplicate_rule rt message history config);
    [intros [= <- <-]; right; split; [do 3 right; left|]; reflexivity|].
  destruct (new_member_rule rt message history config now) as [[|]|e];
    [intros [= <- <-]; right; split; [do 4 right; left|]; reflexivity
    |discriminate..].
Qed.

(** X4. An action that [register_message] returns names one of the six
    reasons and carries the first 200 characters of the content as its
    details; with the mass-mention reason its kind is timeout, with every
    other reason the kind is the one the escalation gives for its
    violation count. *)
Theorem returned_action_shape self message config clock a self' :
  register_message rt self message config clock = (Returned (Some a), self') →
  reason a ∈ [REASON_MASS_MENTION; REASON_FLOOD; REASON_MENTION_SPAM;
              REASON_DUPLICATE; REASON_AI_SIMILARITY; REASON_NEW_ACCOUNT]
  ∧ details a = Some (take 200 (content message))
  ∧ len (take 200 (content message)) ≤ 200
  ∧ (len (content message) ≤ 200 → details a = Some (content message))
  ∧ (reason a = REASON_MASS_MENTION → action a = TIMEOUT)
  ∧ (reason a ≠ REASON_MASS_MENTION →
     action a = _action_for_count (violation_count a)).
Proof.
  intros (g & m & history & vr & fa & c & T'
          & _ & _ & _ & Hdet & _ & ->)%register_message_returned.
  cbn [reason details action violation_count].
  split; [|split; [done|split; [|split]]].
  - destruct (detect_reason _ _ _ _ _ _ Hdet) as [[-> _]|[Hin _]].
    + apply list_elem_of_here.
    + by apply list_elem_of_further.
  - unfold len. rewrite length_take. lia.
  - unfold len. intros Hshort. by rewrite take_ge by lia.
  - destruct (detect_reason _ _ _ _ _ _ Hdet) as [[-> ->]|[Hin ->]]; split.
    + intros _. apply forced_or_timeout.
    + done.
    + intros Hmass. by destruct (other_reasons_not_mass _ Hin).
    + done.
Qed.

(** X5. The points logged for the escalation never go down as the count
    goes up, and an action that [register_message] returns is logged with
    1, 3 or 5 points, never with 0. *)
Theorem points_follow_strikes :
  (∀ c1 c2, c1 ≤ c2 →
     _points_for_action (_action_for_count c1)
       ≤ _points_for_action (_action_for_count c2))
  ∧ ∀ self message config clock a self',
      register_message rt self message config clock = (Returned (Some a), self') →
      _points_for_action (action a) ∈ [1; 3; 5].
Proof.
  split.
  - intros c1 c2 Hle. unfold _action_for_count.
    destruct (Z.leb_spec c1 1), (Z.eqb_spec c1 2), (Z.eqb_spec c1 3),
      (Z.leb_spec c2 1), (Z.eqb_spec c2 2), (Z.eqb_spec c2 3); cbn; lia.
  - intros self message config clock a self'
      (g & m & history & vr & fa & c & T'
       & _ & _ & _ & Hdet & _ & ->)%register_message_returned.
    cbn [action]. rewrite !elem_of_cons.
    destruct (detect_reason _ _ _ _ _ _ Hdet) as [[_ ->]|[_ ->]].
    + rewrite forced_or_timeout. cbn. auto.
    + cbn [forced_or]. unfold _action_for_count.
      destruct (c <=? 1), (c =? 2), (c =? 3); cbn; auto.
Qed.

(** X6. A call touches the buffer and the violation record of its own key
    only: for every other key both are as before.  [reset_user] leaves
    the whole history alone, the one of its own key too, and the records
    of the other keys. *)
Theorem other_keys_untouched self message config clock key' :
  call_key message ≠ Some key' →
  let self' := snd (register_message rt self message config clock) in
  _history self' !! key' = _history self !! key'
  ∧ _records (_violation_tracker self') !! key'
    = _records (_violation_tracker self) !! key'
  ∧ ∀ g u,
      _history (reset_user self g u) = _history self
      ∧ ((g, u) ≠ key' →
         _records (_violation_tracker (reset_user self g u)) !! key'
         = _records (_violation_tracker self) !! key').
Proof.
  intros Hother. cbv zeta.
  destruct (register_message_frame rt self message config clock key' Hother)
    as [Hhist Hrec].
  split; [done|]. split; [done|].
  intros g u. split; [done|]. intros Hne. cbn. by apply lookup_delete_ne.
Qed.

(** X7. [count_mentions] never counts too little: it is at least the
    number of user and role mentions, at least one for every message the
    mass-mention rule catches, and at least two when the broadcast flag
    comes with the literal "@everyone" (the token is counted twice). *)
Theorem count_mentions_never_undercounts message :
  len (mentions message) + len (role_mentions message) ≤ count_mentions message
  ∧ (mass_mention_rule message = true → 1 ≤ count_mentions message)
  ∧ (mention_everyone message = true →
     str_in (u8 "@everyone") (content message) = true →
     2 ≤ count_mentions message).
Proof.
  pose proof (count_from_nonneg (u8 "@everyone") (content message) 0) as He.
  pose proof (count_from_nonneg (u8 "@here") (content message) 0) as Hh.
  assert (Hne1 : u8 "@everyone" ≠ []) by (vm_compute; discriminate).
  assert (Hne2 : u8 "@here" ≠ []) by (vm_compute; discriminate).
  unfold count_mentions, mass_mention_rule. fold (str_count (content message) (u8 "@everyone")) in He.
  fold (str_count (content message) (u8 "@here")) in Hh.
  assert (0 ≤ len (mentions message)) by (unfold len; lia).
  assert (0 ≤ len (role_mentions message)) by (unfold len; lia).
  split; [destruct (mention_everyone message); lia|]. split.
  - destruct (mention_everyone message); [lia|]. cbn [orb].
    intros [Hin|Hin]%orb_true_iff.
    + pose proof (str_in_count _ _ Hne1 Hin). lia.
    + pose proof (str_in_count _ _ Hne2 Hin). lia.
  - intros -> Hin. pose proof (str_in_count _ _ Hne1 Hin). lia.
Qed.

(** X8. The mention limit at its edges: a limit of 0 switches the
    mention-spam rule off; a limit below 0 makes it hold for every
    message, so that an enabled detector answers every message that is no
    mass mention and no flood with the mention-spam reason; a limit above
    0 is compared with [count_mentions]. *)
Theorem mention_limit_edges message history config now :
  (mention_limit config = 0 → mention_spam_rule message config = false)
  ∧ (mention_limit config < 0 → mention_spam_rule message config = true)
  ∧ (0 < mention_limit config →
     (mention_spam_rule message config = true
      ↔ mention_limit config ≤ count_mentions message))
  ∧ (mention_limit config < 0 → enabled config = true →
     mass_mention_rule message = false → flood_rule history config = false →
     _detect_violation rt message history config now
       = Returned (Some REASON_MENTION_SPAM, None)).
Proof.
  pose proof (count_mentions_nonneg message) as Hnn.
  assert (Hneg : mention_limit config < 0 → mention_spam_rule message config = true).
  { intros Hlt. unfold mention_spam_rule, truthy.
    destruct (Z.eqb_spec (mention_limit config) 0); [lia|].
    destruct (Z.leb_spec (mention_limit config) (count_mentions message)); [done|lia]. }
  split; [|split; [done|split]].
  - intros Hzero. unfold mention_spam_rule, truthy. by rewrite Hzero.
  - intros Hpos. unfold mention_spam_rule, truthy.
    destruct (Z.eqb_spec (mention_limit config) 0); [lia|]. cbn [negb andb].
    apply Z.leb_le.
  - intros Hlt Hen Hmass Hflood.
    rewrite detect_first_match, Hen. unfold rule_table, first_match.
    by rewrite Hmass, Hflood, (Hneg Hlt).
Qed.

Lemma has_duplicate_content_last3 older r1 r2 newest cap :
  _has_duplicate_content rt
    {| items := older ++ [r1; r2; newest]; maxlen := cap |}
  = similar_0_9 rt newest r1 && similar_0_9 rt newest r2.
Proof.
  unfold _has_duplicate_content, len, last_n, but_last. cbn [items].
  destruct (Z.ltb_spec (Z.of_nat (length (older ++ [r1; r2; newest]))) 3)
    as [Hshort|_]; [rewrite length_app in Hshort; cbn in Hshort; lia|].
  replace (length (older ++ [r1; r2; newest]) - 3)%nat with (length older)
    by (rewrite length_app; cbn; lia).
  rewrite drop_app_length. cbn [last length Nat.sub take List.filter].
  unfold is_similar, similar_0_9.
  destruct (PrimFloat.leb _ (SequenceMatcher_ratio rt _ (normalized r1)));
    destruct (PrimFloat.leb _ (SequenceMatcher_ratio rt _ (normalized r2)));
    reflexivity.
Qed.

(** X9. The duplicate rule holds exactly when the history has at least
    three records and both records before the newest one are similar to
    it at 0.9; a history of one or two records never counts as
    repetition. *)
Theorem duplicate_rule_exact history :
  (_has_duplicate_content rt history = true
   ↔ ∃ older r1 r2 newest,
       items history = older ++ [r1; r2; newest]
       ∧ similar_0_9 rt newest r1 = true
       ∧ similar_0_9 rt newest r2 = true)
  ∧ ((length (items history) < 3)%nat →
     _has_duplicate_content rt history = false).
Proof.
  assert (Hshort : (length (items history) < 3)%nat →
                   _has_duplicate_content rt history = false).
  { intros Hlt. unfold _has_duplicate_content, len.
    destruct (Z.ltb_spec (Z.of_nat (length (items history))) 3); [done|lia]. }
  split; [|done]. split.
  - intros Hdup.
    destruct (decide (3 ≤ length (items history))%nat) as [Hlen|];
      [|rewrite Hshort in Hdup by lia; discriminate].
    destruct (last_three _ Hlen) as (older & r1 & r2 & newest & Heq).
    exists older, r1, r2, newest. split; [done|].
    destruct history as [its cap]. cbn [items] in Heq. subst its.
    rewrite has_duplicate_content_last3 in Hdup.
    by apply andb_true_iff in Hdup.
  - intros (older & r1 & r2 & newest & Heq & H1 & H2).
    destruct history as [its cap]. cbn [items] in Heq. subst its.
    by rewrite has_duplicate_content_last3, H1, H2.
Qed.

End MoreRuleProperties.

Transparent REASON_MASS_MENTION REASON_FLOOD REASON_MENTION_SPAM
  REASON_DUPLICATE REASON_AI_SIMILARITY REASON_NEW_ACCOUNT.

(* ===================================================================== *)
(** ** More on the history buffers *)
(* ===================================================================== *)

Section WindowFacts.

Implicit Types (l log : list MessageRecord) (d : deque MessageRecord).

Lemma prune_expired_prefix now window l :
  prune now window l = drop (expired_prefix now window l) l.
Proof.
  induction l as [|head rest IH]; [done|]. cbn [prune expired_prefix].
  by destruct (window <? now - timestamp head).
Qed.

Lemma expired_prefix_le now window l :
  (expired_prefix now window l ≤ length l)%nat.
Proof.
  induction l as [|head rest IH]; cbn [expired_prefix length]; [lia|].
  destruct (window <? now - timestamp head); lia.
Qed.

(** In a list with timestamps that never decrease, a head inside the
    window means that nothing is pruned. *)
Lemma expired_prefix_fresh_head now window head rest :
  timestamps_nondecreasing (head :: rest) = true →
  (window <? now - timestamp head) = false →
  expired_prefix now window rest = 0%nat.
Proof.
  intros Hs Hfresh%Z.ltb_ge. destruct rest as [|b rest]; [done|].
  cbn [expired_prefix].
  pose proof (nondecreasing_head _ _ Hs b (list_elem_of_here _ _)).
  destruct (Z.ltb_spec window (now - timestamp b)); [lia|done].
Qed.

Lemma prune_drop_sorted now window l :
  timestamps_nondecreasing l = true →
  ∀ i : nat,
    prune now window (drop i l) = drop (i `max` expired_prefix now window l) l.
Proof.
  induction l as [|head rest IH]; intros Hs i.
  - by rewrite !drop_nil.
  - destruct i as [|i].
    + rewrite drop_0, Nat.max_0_l. apply prune_expired_prefix.
    + cbn [drop]. rewrite IH by (by eapply nondecreasing_tail).
      cbn [expired_prefix].
      destruct (window <? now - timestamp head) eqn:Hhead.
      * by rewrite <- Nat.succ_max_distr.
      * rewrite (expired_prefix_fresh_head _ _ _ _ Hs Hhead).
        by rewrite !Nat.max_0_r.
Qed.

(** For such a list the loop keeps exactly the records inside the
    window. *)
Lemma prune_is_filter now window l :
  timestamps_nondecreasing l = true →
  prune now window l = List.filter (in_window now window) l.
Proof.
  induction l as [|head rest IH]; intros Hs; [done|].
  cbn [prune List.filter]. unfold in_window at 1.
  destruct (Z.ltb_spec window (now - timestamp head)) as [Hold|Hfresh].
  - destruct (Z.leb_spec (now - timestamp head) window); [lia|].
    apply IH. by eapply nondecreasing_tail.
  - destruct (Z.leb_spec (now - timestamp head) window); [|lia].
    f_equal. symmetry. apply forallb_filter_id, forallb_forall.
    intros r Hr%list_elem_of_In. unfold in_window. apply Z.leb_le.
    pose proof (nondecreasing_head _ _ Hs r Hr). lia.
Qed.

Lemma expired_prefix_mono now now' window l r :
  now ≤ now' →
  (expired_prefix now window l ≤ expired_prefix now' window (l ++ [r]))%nat.
Proof.
  intros Hle. induction l as [|head rest IH]; cbn [expired_prefix app]; [lia|].
  destruct (Z.ltb_spec window (now - timestamp head)); [|lia].
  destruct (Z.ltb_spec window (now' - timestamp head)); lia.
Qed.

Lemma last_n_drop {A} (c k : nat) (l : list A) :
  last_n c (drop k l) = drop (k `max` (length l - c)) l.
Proof.
  unfold last_n. rewrite drop_drop, length_drop. f_equal. lia.
Qed.

Lemma last_n_all {A} (c : nat) (l : list A) : last_n c l = drop (length l - c) l.
Proof. done. Qed.

Lemma append_is_last_n d x :
  len (items d) ≤ maxlen d →
  items (Deque.append d x) = last_n (Z.to_nat (maxlen d)) (items d ++ [x]).
Proof.
  unfold Deque.append, len, last_n. cbn [items]. intros Hcap.
  rewrite length_app. cbn [length].
  destruct (Z.ltb_spec (maxlen d) (Z.of_nat (length (items d) + 1))).
  - replace (length (items d) + 1 - Z.to_nat (maxlen d))%nat with 1%nat by lia.
    by destruct (items d ++ [x]).
  - by replace (length (items d) + 1 - Z.to_nat (maxlen d))%nat with 0%nat by lia.
Qed.

Lemma newest_time_snoc log r : newest_time (log ++ [r]) = timestamp r.
Proof. unfold newest_time. by rewrite last_snoc. Qed.

Lemma nondecreasing_newest log r :
  timestamps_nondecreasing (log ++ [r]) = true →
  log = [] ∨ newest_time log ≤ timestamp r.
Proof.
  intros Hs. destruct (last log) as [x|] eqn:Hlast.
  - right. unfold newest_time. rewrite Hlast.
    apply last_Some in Hlast as [l' ->].
    rewrite <- app_assoc in Hs. cbn [app] in Hs.
    pose proof (nondecreasing_drop (length l') _ Hs) as Hd.
    rewrite drop_app_length in Hd. cbn in Hd.
    apply andb_true_iff in Hd as [Hd _]. by apply Z.leb_le.
  - left. by apply last_None.
Qed.

Lemma nondecreasing_prefix log r :
  timestamps_nondecreasing (log ++ [r]) = true →
  timestamps_nondecreasing log = true.
Proof.
  induction log as [|a [|b rest] IH]; [done..|].
  cbn [app timestamps_nondecreasing] in *.
  intros [? ?]%andb_true_iff. apply andb_true_iff. auto.
Qed.

(** One call, seen from the log: when the buffer holds the [c] most
    recent records of those the loop leaves of the log, it does so again
    after the new record has been appended and the loop has run at the
    time of the new record. *)
Lemma window_step (c : nat) window log r before :
  (1 ≤ c)%nat →
  timestamps_nondecreasing (log ++ [r]) = true →
  before = last_n c (prune (newest_time log) window log) →
  prune (timestamp r) window (last_n c (before ++ [r]))
  = last_n c (prune (timestamp r) window (log ++ [r])).
Proof.
  intros Hc Hs ->.
  rewrite !prune_expired_prefix.
  set (k := expired_prefix (newest_time log) window log).
  set (k' := expired_prefix (timestamp r) window (log ++ [r])).
  assert (Hk : (k ≤ length log)%nat) by apply expired_prefix_le.
  assert (Hkk : (k ≤ k')%nat).
  { destruct (nondecreasing_newest _ _ Hs) as [->|Hle]; [subst k; cbn; lia|].
    by apply expired_prefix_mono. }
  rewrite last_n_drop.
  rewrite <- (drop_app_le log [r]) by lia.
  rewrite last_n_drop, length_app. cbn [length].
  rewrite <- prune_expired_prefix, prune_drop_sorted by done.
  fold k'. rewrite last_n_drop, length_app. cbn [length].
  f_equal. lia.
Qed.

Lemma prune_all_expired now window l :
  (∀ r, r ∈ l → window < now - timestamp r) → prune now window l = [].
Proof.
  induction l as [|a l IH]; intros Hall; [done|]. cbn [prune].
  pose proof (Hall a (list_elem_of_here _ _)).
  destruct (Z.ltb_spec window (now - timestamp a)); [|lia].
  apply IH. intros r Hr. apply Hall. by apply list_elem_of_further.
Qed.

Lemma append_elems d x r :
  r ∈ items (Deque.append d x) → r ∈ items d ++ [x].
Proof.
  destruct (append_drop d x) as (n & _ & ->). apply subseteq_drop.
Qed.

End WindowFacts.

Section WindowProperties.

Context (rt : Runtime).

Lemma constant_window_app key seconds events1 events2 :
  constant_window key seconds (events1 ++ events2)
  = constant_window key seconds events1 && constant_window key seconds events2.
Proof.
  induction events1 as [|[message config clock|g u] events1 IH];
    cbn [app constant_window]; [done| |done].
  by rewrite IH, andb_assoc.
Qed.

Lemma nondecreasing_app_l (l1 l2 : list MessageRecord) :
  timestamps_nondecreasing (l1 ++ l2) = true →
  timestamps_nondecreasing l1 = true.
Proof.
  induction l2 as [|x l2 IH] using rev_ind; [by rewrite app_nil_r|].
  rewrite app_assoc. intros Hs. by apply IH, nondecreasing_prefix with x.
Qed.

Lemma prune_keeps_last now window (l : list MessageRecord) x :
  last l = Some x → now - timestamp x ≤ window →
  last (prune now window l) = Some x.
Proof.
  intros Hlast Hfresh. induction l as [|a l IH]; [done|].
  cbn [prune]. destruct (window <? now - timestamp a) eqn:Hold; [|done].
  destruct l as [|b l].
  - injection Hlast as ->. apply Z.ltb_lt in Hold. lia.
  - apply IH. by rewrite last_cons_cons in Hlast.
Qed.

Lemma append_last (d : deque MessageRecord) x :
  len (items d) ≤ maxlen d → 1 ≤ maxlen d →
  last (items (Deque.append d x)) = Some x.
Proof.
  intros Hcap Hpos. rewrite append_is_last_n by done.
  unfold last_n, len in *. rewrite length_app. cbn [length].
  rewrite drop_app_le by lia. apply last_snoc.
Qed.

(** The deque that a call works on, in a state reached from the start:
    its capacity is at least 20 and it is not over-full. *)
Lemma working_deque_sound T key events config :
  let self := run rt (SpamDetector_init T) events in
  let d0 := working_deque self key config in
  len (items d0) ≤ maxlen d0 ∧ 20 ≤ maxlen d0
  ∧ buffer self key = items d0.
Proof.
  cbv zeta. pose proof (run_capacity rt T key events) as Hcap.
  unfold buffer, working_deque.
  destruct (_history (run rt (SpamDetector_init T) events) !! key) as [d|].
  - destruct Hcap as (first & _ & Hmax & Hlen).
    pose proof (capacity_at_least_20 first). split; [done|]. split; [lia|done].
  - unfold len. cbn. pose proof (capacity_at_least_20 config).
    split; [lia|]. split; [lia|done].
Qed.

(** The history a call sees, when lines 53 to 58 return. *)
Lemma history_seen_returned self key message config clock history :
  history_seen rt self key message config clock = Returned history →
  capacity_fits config = true
  ∧ ∃ window,
      timedelta_seconds (time_window config) = Returned window
      ∧ history =
          {| items :=
               prune (utcnow_register clock) window
                 (items (Deque.append (working_deque self key config)
                           (new_record rt message clock)));
             maxlen := maxlen (working_deque self key config) |}.
Proof.
  unfold history_seen, working_deque. rewrite update_history_eq.
  destruct (capacity_fits config); [|discriminate]. cbv zeta.
  destruct (timedelta_seconds (time_window config)) as [window|e];
    [|discriminate].
  intros [= <-]. eauto.
Qed.

(** Lines 53 to 58 return exactly when the limit and the window are in
    the range of the two constructors. *)
Lemma history_seen_in_range self key message config clock :
  spam_limit config < 4611686018427387904 →
  -86399999913600 ≤ time_window config ≤ 86399999999999 →
  ∃ history, history_seen rt self key message config clock = Returned history.
Proof.
  intros Hlimit%capacity_fits_iff Hwindow.
  unfold history_seen. rewrite update_history_eq, Hlimit. cbv zeta.
  destruct (timedelta_seconds_cases (time_window config)) as [[_ ->]|[? _]];
    [eauto|lia].
Qed.

Lemma history_seen_out_of_range self key message config clock e :
  history_seen rt self key message config clock = Raised e →
  e = OverflowError
  ∧ (4611686018427387904 ≤ spam_limit config
     ∨ time_window config < -86399999913600
     ∨ 86399999999999 < time_window config).
Proof.
  intros Hseen. split; [by eapply history_seen_raised|].
  destruct (Z.lt_ge_cases (spam_limit config) 4611686018427387904)
    as [Hlimit|?]; [|auto].
  destruct (Z.lt_ge_cases (time_window config) (-86399999913600)); [auto|].
  destruct (Z.lt_ge_cases 86399999999999 (time_window config)); [auto|].
  destruct (history_seen_in_range self key message config clock Hlimit)
    as [history Hret]; [lia|congruence].
Qed.

(** X10. With a window of zero seconds or more, the history that the
    rules of a call see always ends with the record of the message of that
    call: in every state reached from the start the current message is
    part of what is counted.  The rules see a history whenever the limit
    is below [2 ** 62] and the window at most 86399999999999 seconds;
    otherwise the call has raised [OverflowError] before any rule is
    tested. *)
Theorem newest_record_is_seen T key events message config clock :
  0 ≤ time_window config →
  let self := run rt (SpamDetector_init T) events in
  match history_seen rt self key message config clock with
  | Returned history =>
      last (items history) = Some (new_record rt message clock)
      ∧ 1 ≤ len (items history)
  | Raised e =>
      e = OverflowError
      ∧ (4611686018427387904 ≤ spam_limit config
         ∨ 86399999999999 < time_window config)
  end
  ∧ (spam_limit config < 4611686018427387904 →
     time_window config ≤ 86399999999999 →
     ∃ history, history_seen rt self key message config clock = Returned history).
Proof.
  intros Hwin. cbv zeta. split.
  - destruct (history_seen rt _ key message config clock) as [history|e]
      eqn:Hseen.
    + apply history_seen_returned in Hseen as (_ & window & Hw & ->).
      cbn [items].
      apply timedelta_seconds_returned in Hw as [-> _].
      destruct (working_deque_sound T key events config) as (Hlen & Hmax & _).
      assert (Hlast :
        last (prune (utcnow_register clock) (time_window config * 1000000)
                (items (Deque.append
                          (working_deque (run rt (SpamDetector_init T) events)
                             key config)
                          (new_record rt message clock))))
        = Some (new_record rt message clock)).
      { apply prune_keeps_last.
        - apply append_last; [done|lia].
        - cbn [timestamp new_record]. lia. }
      split; [done|]. unfold len.
      destruct (prune _ _ _); [discriminate|cbn; lia].
    + apply history_seen_out_of_range in Hseen as [-> Hout].
      split; [done|]. lia.
  - intros Hlimit Hmax. apply history_seen_in_range; [done|lia].
Qed.

(** X11. With a window below zero seconds, but within the range of
    [dt.timedelta], the history handed to the rules is empty, provided no
    record of the buffer is dated after the call: the loop removes the
    record of the call itself.  The rules then see no duplicate and no
    near-duplicate, and a flood only for a limit below zero.  With a
    window below -86399999913600 seconds the call raises [OverflowError]
    after the record has been appended and before the loop: the buffer
    keeps the record and whatever was in it. *)
Theorem negative_window_empties_history self key message config clock :
  time_window config < 0 →
  spam_limit config < 4611686018427387904 →
  (∀ r, r ∈ buffer self key → timestamp r ≤ utcnow_register clock) →
  (-86399999913600 ≤ time_window config →
   ∃ history,
     history_seen rt self key message config clock = Returned history
     ∧ items history = []
     ∧ flood_rule history config = (spam_limit config <? 0)
     ∧ _has_duplicate_content rt history = false
     ∧ _has_ai_like_similarity rt history = false)
  ∧ (time_window config < -86399999913600 →
     call_key message = Some key →
     register_message rt self message config clock
     = (Raised OverflowError,
        {| _violation_tracker := _violation_tracker self;
           _history :=
             <[key := Deque.append (working_deque self key config)
                        (new_record rt message clock)]> (_history self) |})).
Proof.
  intros Hneg Hlimit%capacity_fits_iff Hpast. split.
  - intros Hrange.
    destruct (history_seen_in_range self key message config clock)
      as [history Hseen]; [by apply capacity_fits_iff|lia|].
    exists history. split; [done|].
    apply history_seen_returned in Hseen as (_ & window & Hw & ->).
    apply timedelta_seconds_returned in Hw as [-> _].
    assert (Hempty :
      prune (utcnow_register clock) (time_window config * 1000000)
        (items (Deque.append (working_deque self key config)
                  (new_record rt message clock))) = []).
    { apply prune_all_expired. intros r Hr%append_elems.
      assert (Hin : r ∈ buffer self key ++ [new_record rt message clock])
        by (unfold buffer, working_deque in *;
            by destruct (_history self !! key)).
      apply elem_of_app in Hin as [Hin|Hin%list_elem_of_singleton].
      - specialize (Hpast r Hin). lia.
      - subst r. cbn [timestamp new_record]. lia. }
    unfold flood_rule, _has_duplicate_content, _has_ai_like_similarity, len.
    cbn [items]. rewrite Hempty. cbn [length]. done.
  - intros Hout Hkey.
    destruct (call_key_Some _ _ Hkey) as (m & Hg & Ha & Hm).
    rewrite (register_message_member _ _ _ _ _ _ _ Hg Ha). cbv zeta.
    rewrite Hm, <- surjective_pairing.
    unfold history_seen, history_stored, working_deque.
    rewrite update_history_eq, Hlimit. cbv zeta.
    destruct (timedelta_seconds_cases (time_window config)) as [[? _]|[_ ->]];
      [lia|done].
Qed.

(** Along a run with one window length for a key and timestamps that
    never decrease, the buffer is what the loop leaves of the whole log,
    cut to the capacity. *)
Lemma run_window_view T key seconds window events :
  constant_window key seconds events = true →
  timedelta_seconds seconds = Returned window →
  timestamps_nondecreasing (appended rt key events) = true →
  match _history (run rt (SpamDetector_init T) events) !! key with
  | Some d =>
      items d
      = last_n (Z.to_nat (maxlen d))
          (prune (newest_time (appended rt key events)) window
             (appended rt key events))
  | None => appended rt key events = []
  end.
Proof.
  intros Hconst Hwindow.
  induction events as [|e events IH] using rev_ind; intros Hsorted.
  - cbn. by rewrite lookup_empty.
  - rewrite constant_window_app in Hconst.
    apply andb_true_iff in Hconst as [Hconst He].
    rewrite appended_app in Hsorted |- *.
    specialize (IH Hconst (nondecreasing_app_l _ _ Hsorted)).
    rewrite run_app. cbn [run fold_left]. rewrite step_history.
    destruct e as [message config clock|g u]; cbn [appended] in *.
    2: { by rewrite app_nil_r. }
    destruct (decide (call_key message = Some key)) as [Hkey|Hkey].
    2: { by rewrite app_nil_r. }
    destruct (working_deque_sound T key events config) as (Hlen & Hmax & _).
    set (self := run rt (SpamDetector_init T) events) in *.
    cbn [constant_window] in He.
    destruct (decide (call_key message = Some key)); [|done].
    rewrite andb_true_r in He. apply Z.eqb_eq in He. subst seconds.
    unfold history_stored, working_deque in *. rewrite update_history_eq.
    destruct (capacity_fits config).
    2: { cbn [snd]. by rewrite app_nil_r. }
    cbv zeta. rewrite Hwindow. cbn [snd items maxlen].
    set (d0 := match _history self !! key with
               | Some d => d
               | None => {| items := []; maxlen := capacity config |}
               end) in *.
    rewrite append_is_last_n by done.
    rewrite newest_time_snoc.
    change (utcnow_register clock)
      with (timestamp (new_record rt message clock)).
    apply window_step; [lia|done|].
    subst d0. destruct (_history self !! key) as [d|]; [done|].
    by rewrite IH.
Qed.

(** X12. When every call for a key comes with the same window length, one
    that [dt.timedelta] accepts, and the timestamps of the key's records
    never decrease, the buffer of the key is exactly this: the records of
    the key's log that lie within the window ending at the newest record,
    cut down to the most recent ones that fit the capacity the buffer was
    created with. *)
Theorem buffer_is_window_view T key seconds window events first :
  first_config key events = Some first →
  constant_window key seconds events = true →
  timedelta_seconds seconds = Returned window →
  timestamps_nondecreasing (appended rt key events) = true →
  buffer (run rt (SpamDetector_init T) events) key
  = window_view (capacity first) window (appended rt key events).
Proof.
  intros Hfirst Hconst Hwindow Hsorted.
  pose proof (run_window_view T key seconds window events Hconst Hwindow Hsorted)
    as Hview.
  pose proof (run_capacity rt T key events) as Hcap.
  unfold buffer, window_view.
  destruct (_history (run rt (SpamDetector_init T) events) !! key) as [d|].
  - destruct Hcap as (first' & Hfirst' & Hmax & _).
    rewrite Hfirst in Hfirst'. injection Hfirst' as <-.
    rewrite Hview, Hmax. unfold newest_time.
    destruct (last (appended rt key events)) as [newest|] eqn:Hlast.
    + by rewrite prune_is_filter.
    + apply last_None in Hlast. by rewrite Hlast.
  - by rewrite Hview.
Qed.

(** X13. Under the same conditions, and with a limit below the capacity
    of the buffer, the flood rule of a call holds exactly when more than
    [spam_limit] records of the member, the current one included, lie
    within the window that ends at the call. *)
Theorem flood_counts_the_window T key events message config clock first
    window history :
  let all := events ++ [Register message config clock] in
  call_key message = Some key →
  first_config key all = Some first →
  spam_limit config < capacity first →
  constant_window key (time_window config) all = true →
  timestamps_nondecreasing (appended rt key all) = true →
  timedelta_seconds (time_window config) = Returned window →
  history_seen rt (run rt (SpamDetector_init T) events) key message config clock
    = Returned history →
  flood_rule history config = true
  ↔ spam_limit config
    < len (List.filter (in_window (utcnow_register clock) window)
             (appended rt key all)).
Proof.
  cbv zeta. intros Hkey Hfirst Hlimit Hconst Hsorted Hwindow Hseen.
  pose proof (run_window_view T key
                (time_window config) window _ Hconst Hwindow Hsorted) as Hview.
  pose proof (run_capacity rt T key (events ++ [Register message config clock]))
    as Hcap.
  rewrite run_app in Hview, Hcap.
  cbn [run fold_left] in Hview, Hcap.
  rewrite step_history in Hview, Hcap.
  destruct (decide (call_key message = Some key)); [|done].
  rewrite (history_seen_stored _ _ _ _ _ _ _ Hseen) in Hview, Hcap.
  apply history_seen_returned in Hseen as (Hfits & _).
  destruct Hcap as (first' & Hfirst' & Hmax & _).
  rewrite Hfirst in Hfirst'. injection Hfirst' as <-.
  unfold flood_rule. rewrite Hview, Hmax.
  rewrite prune_is_filter by done.
  rewrite appended_app. cbn [appended].
  destruct (decide (call_key message = Some key)); [|done].
  rewrite Hfits.
  rewrite newest_time_snoc. cbn [timestamp new_record].
  rewrite Z.ltb_lt. unfold len, last_n. rewrite length_drop.
  pose proof (capacity_at_least_20 first). lia.
Qed.

(** X14. A buffer created under small settings blinds the flood rule for
    larger ones: when the limit of a call is not below the capacity the
    buffer of the key was created with, the flood rule cannot hold for the
    history the call sees, however many messages arrive. *)
Theorem flood_needs_room T key events message config clock first history :
  first_config key events = Some first →
  capacity first ≤ spam_limit config →
  history_seen rt (run rt (SpamDetector_init T) events) key message config clock
    = Returned history →
  flood_rule history config = false.
Proof.
  intros Hfirst Hlimit Hseen.
  pose proof (run_capacity rt T key events) as Hcap.
  apply history_seen_stored in Hseen. unfold history_stored in Hseen.
  pose proof (update_history_within
                (_history (run rt (SpamDetector_init T) events) !! key) config
                (utcnow_register clock) (new_record rt message clock)) as Hwithin.
  pose proof (update_history_maxlen
                (_history (run rt (SpamDetector_init T) events) !! key) config
                (utcnow_register clock) (new_record rt message clock)) as Hmaxlen.
  rewrite Hseen in Hwithin, Hmaxlen. destruct Hmaxlen as [Hmaxlen _].
  unfold flood_rule.
  destruct (_history (run rt (SpamDetector_init T) events) !! key) as [d|].
  - destruct Hcap as (first' & Hfirst' & Hmax & Hlen).
    rewrite Hfirst in Hfirst'. injection Hfirst' as <-.
    specialize (Hwithin Hlen). apply Z.ltb_ge. lia.
  - congruence.
Qed.

End WindowProperties.


(* ===================================================================== *)
(** ** The caller and the settings *)
(* ===================================================================== *)

Lemma str_in_nil hay : str_in [] hay = true.
Proof. by destruct hay. Qed.

Lemma split_from_skip sep (p s acc : str) :
  sep ∉ p → split_from sep (p ++ s) acc = split_from sep s (rev p ++ acc).
Proof.
  revert acc. induction p as [|c p IH]; intros acc Hfree; [done|].
  apply not_elem_of_cons in Hfree as [Hc Hp].
  cbn [app split_from]. destruct (N.eqb_spec c sep); [congruence|].
  rewrite IH by done. cbn [rev]. by rewrite <- app_assoc.
Qed.

Lemma split_from_join sep (p : str) (ps : list str) acc :
  (∀ k, k ∈ p :: ps → sep ∉ k) →
  split_from sep (str_join [sep] (p :: ps)) acc = (rev acc ++ p) :: ps.
Proof.
  revert p acc. induction ps as [|q qs IH]; intros p acc Hfree.
  - cbn [str_join]. rewrite <- (app_nil_r p) at 1.
    rewrite split_from_skip by (apply Hfree, list_elem_of_here).
    cbn [split_from]. by rewrite rev_app_distr, rev_involutive.
  - change (str_join [sep] (p :: q :: qs))
      with (p ++ sep :: str_join [sep] (q :: qs)).
    rewrite split_from_skip by (apply Hfree, list_elem_of_here).
    cbn [split_from]. rewrite N.eqb_refl, rev_app_distr, rev_involutive.
    f_equal. rewrite IH; [done|].
    intros k Hk. apply Hfree. by apply list_elem_of_further.
Qed.

Lemma elem_of_rev_iff {A} (x : A) (l : list A) : x ∈ rev l ↔ x ∈ l.
Proof. rewrite !list_elem_of_In. symmetry. apply in_rev. Qed.

Lemma split_from_free sep (s acc part : str) :
  sep ∉ acc → part ∈ split_from sep s acc → sep ∉ part.
Proof.
  revert acc. induction s as [|c s IH]; intros acc Hacc; cbn [split_from].
  - intros ->%list_elem_of_singleton. by rewrite elem_of_rev_iff.
  - destruct (N.eqb_spec c sep) as [->|Hne].
    + intros [->|Hin]%elem_of_cons.
      * by rewrite elem_of_rev_iff.
      * apply (IH []); [apply not_elem_of_nil|done].
    + apply IH. apply not_elem_of_cons. split; [congruence|done].
Qed.

Section CallerProperties.

Context (rt : Runtime).

Lemma deliver_frame detector d key :
  (call_key (d_message d) = Some key →
   bot (d_context d) = true
   ∨ ∃ m, author (d_message d) = AuthorMember m
          ∧ is_privileged m (d_context d) = true) →
  _history (deliver rt detector d) !! key = _history detector !! key
  ∧ _records (_violation_tracker (deliver rt detector d)) !! key
    = _records (_violation_tracker detector) !! key.
Proof.
  intros Hguard. unfold deliver, _process_message.
  destruct (guild (d_message d)) as [g|] eqn:Hg; [|done].
  destruct (bot (d_context d)) eqn:Hbot; [done|]. cbn [orb].
  destruct (author (d_message d)) as [m|] eqn:Ha; [|done].
  destruct (is_privileged m (d_context d)) eqn:Hpriv; [done|].
  apply register_message_frame. intros Hkey.
  destruct (Hguard Hkey) as [?|(m' & Hm' & Hp)]; [done|].
  injection Hm' as <-. congruence.
Qed.

(** X15. A member whose messages all arrive from a bot account or with a
    privileged author (the guild owner, or one with the administrator,
    manage-guild, manage-messages or kick-members permission) is never
    tracked: however many messages [_process_message] handles, the member
    has no history buffer and the violation record of the key is the one
    the tracker started with. *)
Theorem privileged_members_are_never_tracked T key (ds : list delivery) :
  (∀ d, d ∈ ds → call_key (d_message d) = Some key →
        bot (d_context d) = true
        ∨ ∃ m, author (d_message d) = AuthorMember m
               ∧ is_privileged m (d_context d) = true) →
  let reached := deliver_all rt (SpamDetector_init T) ds in
  _history reached !! key = None
  ∧ _records (_violation_tracker reached) !! key = _records T !! key.
Proof.
  intros Hguard. cbv zeta.
  assert (Hgen : ∀ detector,
    _history (deliver_all rt detector ds) !! key = _history detector !! key
    ∧ _records (_violation_tracker (deliver_all rt detector ds)) !! key
      = _records (_violation_tracker detector) !! key).
  { induction ds as [|d ds IH]; intros detector; [done|].
    change (deliver_all rt detector (d :: ds))
      with (deliver_all rt (deliver rt detector d) ds).
    destruct (IH (fun d' Hd' => Hguard d' (list_elem_of_further _ _ _ Hd'))
                (deliver rt detector d)) as [-> ->].
    apply deliver_frame, Hguard, list_elem_of_here. }
  destruct (Hgen (SpamDetector_init T)) as [-> ->]. split; [|done].
  cbn. apply lookup_empty.
Qed.

(** X16. Keywords that are not empty, are already stripped and hold no
    comma survive being stored: joining them as [update_settings] does
    and splitting the stored text as [from_model] does gives the same
    list back. *)
Theorem keywords_round_trip (keywords : list str) :
  (∀ k, k ∈ keywords → k ≠ [] ∧ str_strip rt k = k ∧ comma ∉ k) →
  _split_keywords rt (Some (_join_keywords rt (KeywordsSeq keywords)))
    = keywords
  ∧ ∀ model,
      Model.exception_keywords model
        = Some (_join_keywords rt (KeywordsSeq keywords)) →
      exception_keywords (from_model rt model) = keywords.
Proof.
  intros Hclean.
  assert (Hkeep : ∀ l : list str,
            (∀ k, k ∈ l → k ≠ [] ∧ str_strip rt k = k ∧ comma ∉ k) →
            map (str_strip rt)
              (List.filter (fun k => str_bool (str_strip rt k)) l) = l).
  { induction l as [|k l IH]; intros Hl; [done|]. cbn [List.filter].
    destruct (Hl k (list_elem_of_here _ _)) as (Hne & Hstrip & _).
    rewrite Hstrip. destruct k as [|c k]; [done|]. cbn [str_bool map].
    rewrite Hstrip, IH; [done|].
    intros k' Hk'. apply Hl. by apply list_elem_of_further. }
  assert (Hround : _split_keywords rt
                     (Some (_join_keywords rt (KeywordsSeq keywords)))
                   = keywords).
  { unfold _split_keywords, _join_keywords. rewrite (Hkeep _ Hclean).
    destruct keywords as [|p ps]; [done|].
    destruct (Hclean p (list_elem_of_here _ _)) as (Hne & _ & _).
    assert (Hbool : str_bool (str_join [comma] (p :: ps)) = true).
    { destruct p as [|c p]; [done|]. by destruct ps. }
    rewrite Hbool. cbn [negb]. unfold str_split.
    rewrite split_from_join by (intros k Hk; by apply Hclean).
    cbn [rev app]. by apply Hkeep. }
  split; [done|]. intros model Hmodel. cbn. by rewrite Hmodel.
Qed.

(** X17. What [_split_keywords] returns: nothing for a missing or empty
    text, and otherwise only keywords that are not empty, each the stripped
    form of a piece of the text between two commas. *)
Theorem split_keywords_clean (raw : option str) :
  (raw = None ∨ raw = Some [] → _split_keywords rt raw = [])
  ∧ ∀ k, k ∈ _split_keywords rt raw →
         k ≠ []
         ∧ ∃ text part,
             raw = Some text ∧ part ∈ str_split text comma
             ∧ (comma ∉ part) ∧ k = str_strip rt part.
Proof.
  split; [by intros [->| ->]|].
  intros k. unfold _split_keywords.
  destruct raw as [text|]; [|by intros ?%elem_of_nil].
  destruct (str_bool text); cbn [negb]; [|by intros ?%elem_of_nil].
  rewrite list_elem_of_In, in_map_iff.
  intros (part & <- & [Hpart Htrue]%filter_In).
  split; [by destruct (str_strip rt part)|].
  exists text, part. rewrite list_elem_of_In. repeat split; [done|].
  apply (split_from_free comma text []); [apply not_elem_of_nil|].
  by apply list_elem_of_In.
Qed.

(** X18. A keyword whose lower-case form is the empty string occurs in
    every content: with such a keyword among the exception keywords every
    message is exempt and the near-duplicate rule never holds. *)
Theorem empty_keyword_exempts_everything message history config keyword :
  keyword ∈ exception_keywords config →
  str_lower rt keyword = [] →
  _is_ai_exempt rt (content message) (exception_keywords config) = true
  ∧ near_duplicate_rule rt message history config = false.
Proof.
  intros Hin Hlower.
  assert (Hex : _is_ai_exempt rt (content message) (exception_keywords config)
                = true).
  { apply is_ai_exempt_iff. exists keyword. split; [done|].
    unfold contains_keyword. rewrite Hlower. apply str_in_nil. }
  split; [done|]. unfold near_duplicate_rule. by rewrite Hex.
Qed.

(** X19. The new-member test at its edges, for a member with a joined-at
    and a message that no earlier rule catches.  With [new_user_minutes]
    at zero or below, down to -1439999998560, a member whose account and
    membership are not dated after the call is never new: the detector
    answers with no violation.  Below -1439999998560 and above
    1439999999999 the detection raises [OverflowError].  For a member who
    joined no earlier than the account was created, the membership age
    alone decides. *)
Theorem new_member_test_edges message history config now m joined :
  author message = AuthorMember m → joined_at m = Some joined →
  enabled config = true →
  mass_mention_rule message = false →
  flood_rule history config = false →
  mention_spam_rule message config = false →
  _has_duplicate_content rt history = false →
  near_duplicate_rule rt message history config = false →
  (-1439999998560 ≤ new_user_minutes config ≤ 0 →
   created_at m ≤ now → joined ≤ now →
   _detect_violation rt message history config now = Returned (None, None))
  ∧ (new_user_minutes config < -1439999998560
     ∨ 1439999999999 < new_user_minutes config →
     _detect_violation rt message history config now = Raised OverflowError)
  ∧ (created_at m ≤ joined →
     ∀ min_age,
       timedelta_minutes (new_user_minutes config) = Returned min_age →
       _detect_violation rt message history config now =
         Returned
           (if (now - joined <? min_age)
               && new_member_offence rt message history config
            then (Some REASON_NEW_ACCOUNT, None)
            else (None, None))).
Proof.
  intros Ha Hj Hen Hmass Hflood Hment Hdup Hai.
  rewrite (detect_new_member rt _ _ _ _ m) by done.
  unfold is_new, join_age, account_age. rewrite Hj.
  split; [|split].
  - intros Hmin Hc Hjn.
    destruct (timedelta_minutes_cases (new_user_minutes config))
      as [[_ ->]|[? _]]; [|lia].
    destruct (Z.ltb_spec (now - created_at m) (new_user_minutes config * 60000000));
      [lia|].
    destruct (Z.ltb_spec (now - joined) (new_user_minutes config * 60000000));
      [lia|done].
  - intros Hout.
    destruct (timedelta_minutes_cases (new_user_minutes config))
      as [[? _]|[_ ->]]; [lia|done].
  - intros Hle min_age ->.
    destruct (Z.ltb_spec (now - created_at m) min_age),
      (Z.ltb_spec (now - joined) min_age); cbn [orb]; (done || lia).
Qed.

End CallerProperties.

(* ===================================================================== *)
(** ** The further statements at work on the example data *)
(* ===================================================================== *)

Section MoreWorked.

Import Examples MoreExamples.

(** Three strikes within two hours. *)
Lemma strikes_count_up_witness :
  fst (increments default_tracker 1 7 [t0; t0 + hour; t0 + 2 * hour])
  = [Returned 1; Returned 2; Returned 3].
Proof.
  refine (proj1 (strikes_count_up default_tracker 1 7 t0
                   [t0 + hour; t0 + 2 * hour] _ _)).
  - reflexivity.
  - intros t Ht. rewrite !elem_of_cons, elem_of_nil in Ht.
    destruct Ht as [->|[->|[]]]; vm_compute; reflexivity.
Defined.

(** A second strike 25 hours after the first. *)
Lemma decay_lowers_strikes_witness :
  ∃ strikes T',
    ViolationTracker.increment one_strike 1 7 (t0 + 25 * hour)
      = (Returned strikes, T')
    ∧ 1 ≤ strikes ≤ 1.
Proof.
  destruct (decay_lowers_strikes one_strike 1 7 (t0 + 25 * hour)
              {| count := 1; last_triggered := t0; last_decay_check := t0 |})
    as (strikes & T' & Hinc & Hbound & _).
  - vm_compute. reflexivity.
  - vm_compute. reflexivity.
  - vm_compute. discriminate.
  - vm_compute. discriminate.
  - exists strikes, T'. split; [exact Hinc|exact Hbound].
Defined.

(** The seventh message of a flood, with decay period zero. *)
Lemma zero_decay_period_raises_witness :
  fst (register_message rt zero_period (text "g") (settings true 5) (at_ms 600))
  = Raised ZeroDivisionError.
Proof.
  destruct (zero_decay_period_raises rt zero_period (text "g") (settings true 5)
              (at_ms 600) 1 veteran
              {| count := 1; last_triggered := t0 + 500000;
                 last_decay_check := t0 + 500000 |}
              (returned empty_history
                 (history_seen rt zero_period key (text "g") (settings true 5)
                    (at_ms 600)))
              REASON_FLOOD None) as [_ Hreg].
  - reflexivity.
  - vm_compute. reflexivity.
  - vm_compute. discriminate.
  - rewrite Hreg; [reflexivity|reflexivity|reflexivity| |].
    + vm_compute. reflexivity.
    + vm_compute. reflexivity.
Defined.

Lemma returned_action_shape_witness :
  details flood_answer = Some (take 200 (u8 "f"))
  ∧ len (take 200 (u8 "f")) ≤ 200.
Proof.
  destruct (returned_action_shape rt five_deep (text "f") (settings true 5)
              (at_ms 500) flood_answer
              (snd (register_message rt five_deep (text "f") (settings true 5)
                      (at_ms 500))))
    as (_ & Hdetails & Hlen & _).
  - vm_compute. reflexivity.
  - split; [exact Hdetails|exact Hlen].
Defined.

Lemma points_follow_strikes_witness :
  _points_for_action (_action_for_count 1)
    ≤ _points_for_action (_action_for_count 4).
Proof.
  refine (proj1 (points_follow_strikes rt) 1 4 _). vm_compute. discriminate.
Defined.

(** A message of the veteran leaves member 8 alone. *)
Lemma other_keys_untouched_witness :
  _history (snd (register_message rt five_deep (text "f") (settings true 5)
                   (at_ms 500))) !! (1, 8)
  = _history five_deep !! (1, 8).
Proof.
  refine (proj1 (other_keys_untouched rt five_deep (text "f") (settings true 5)
                   (at_ms 500) (1, 8) _)).
  vm_compute. discriminate.
Defined.

Lemma count_mentions_never_undercounts_witness : 2 ≤ count_mentions shout.
Proof.
  refine (proj2 (proj2 (count_mentions_never_undercounts shout)) _ _).
  - reflexivity.
  - vm_compute. reflexivity.
Defined.

(** A mention limit of -1. *)
Lemma mention_limit_edges_witness :
  mention_spam_rule (text "hello") (settings_with (-1) 7 []) = true.
Proof.
  refine (proj1 (proj2 (mention_limit_edges rt (text "hello") empty_history
                          (settings_with (-1) 7 []) t0)) _).
  reflexivity.
Defined.

Lemma duplicate_rule_exact_witness :
  _has_duplicate_content rt empty_history = false.
Proof.
  refine (proj2 (duplicate_rule_exact rt empty_history) _). cbn. lia.
Defined.

(** The sixth message of the burst is the last record the rules see. *)
Lemma newest_record_is_seen_witness :
  ∃ history,
    history_seen rt (run rt (SpamDetector_init default_tracker) (burst 5 5))
      key (text "f") (settings true 5) (at_ms 500) = Returned history.
Proof.
  refine (proj2 (newest_record_is_seen rt default_tracker key (burst 5 5)
                   (text "f") (settings true 5) (at_ms 500) _) _ _).
  - vm_compute. discriminate.
  - vm_compute. reflexivity.
  - vm_compute. discriminate.
Defined.

(** A window of -1 second on a detector without history. *)
Lemma negative_window_empties_history_witness :
  ∃ history,
    history_seen rt start key (text "a") (settings_with 5 (-1) []) (at_ms 0)
      = Returned history
    ∧ items history = [].
Proof.
  destruct (negative_window_empties_history rt start key (text "a")
              (settings_with 5 (-1) []) (at_ms 0)) as [Hin _].
  - reflexivity.
  - reflexivity.
  - intros r Hr. vm_compute in Hr. by apply elem_of_nil in Hr.
  - destruct Hin as (history & Hseen & Hempty & _).
    + vm_compute. discriminate.
    + exists history. split; [exact Hseen|exact Hempty].
Defined.

Lemma buffer_is_window_view_witness :
  buffer (run rt (SpamDetector_init default_tracker) (burst 6 5)) key
  = window_view (capacity (settings true 5)) 7000000
      (appended rt key (burst 6 5)).
Proof.
  refine (buffer_is_window_view rt default_tracker key 7 7000000 (burst 6 5)
            (settings true 5) _ _ _ _).
  - vm_compute. reflexivity.
  - vm_compute. reflexivity.
  - reflexivity.
  - vm_compute. reflexivity.
Defined.

(** The sixth message in half a second: six records in the window. *)
Lemma flood_counts_the_window_witness :
  flood_rule six_deep (settings true 5) = true
  ↔ spam_limit (settings true 5)
    < len (List.filter
             (in_window (utcnow_register (at_ms 500)) 7000000)
             (appended rt key
                (burst 5 5 ++ [Register (text "f") (settings true 5) (at_ms 500)]))).
Proof.
  refine (flood_counts_the_window rt default_tracker key (burst 5 5)
            (text "f") (settings true 5) (at_ms 500) (settings true 5)
            7000000 six_deep _ _ _ _ _ _ _).
  - reflexivity.
  - vm_compute. reflexivity.
  - vm_compute. reflexivity.
  - vm_compute. reflexivity.
  - vm_compute. reflexivity.
  - reflexivity.
  - vm_compute. reflexivity.
Defined.

(** A buffer created under limit 5 and a later limit of 20. *)
Lemma flood_needs_room_witness :
  flood_rule
    (returned empty_history
       (history_seen rt (run rt (SpamDetector_init default_tracker) (burst 6 5))
          key (text "g") (settings true 20) (at_ms 600)))
    (settings true 20) = false.
Proof.
  refine (flood_needs_room rt default_tracker key (burst 6 5)
            (text "g") (settings true 20) (at_ms 600) (settings true 5) _ _ _ _).
  - vm_compute. reflexivity.
  - vm_compute. discriminate.
  - vm_compute. reflexivity.
Defined.

(** The moderating veteran after six messages. *)
Lemma privileged_members_are_never_tracked_witness :
  _history (deliver_all rt (SpamDetector_init default_tracker)
              moderated) !! key = None.
Proof.
  refine (proj1 (privileged_members_are_never_tracked rt
                   default_tracker key moderated _)).
  intros d Hd Hkey. right. exists veteran.
  unfold moderated in Hd. rewrite elem_of_app in Hd. cbn [map seq] in Hd.
  rewrite !elem_of_cons, !elem_of_nil in Hd.
  destruct Hd as [[->|[->|[->|[->|[->|[->|[]]]]]]]|[->|[]]];
    try (split; reflexivity).
  vm_compute in Hkey. discriminate Hkey.
Defined.

Lemma keywords_round_trip_witness :
  exception_keywords (from_model rt stored_row) = two_keywords.
Proof.
  refine (proj2 (keywords_round_trip rt two_keywords _) stored_row _).
  - intros k Hk. unfold two_keywords in Hk.
    rewrite !elem_of_cons, elem_of_nil in Hk.
    destruct Hk as [->|[->|[]]]; (split; [vm_compute; discriminate|]);
      (split; [vm_compute; reflexivity|]);
      intros Hin%list_elem_of_In; vm_compute in Hin;
      repeat (destruct Hin as [Hin|Hin]; [discriminate Hin|]);
      exact Hin.
  - reflexivity.
Defined.

Lemma split_keywords_clean_witness : _split_keywords rt (Some []) = [].
Proof.
  refine (proj1 (split_keywords_clean rt (Some [])) _). by right.
Defined.

(** The empty keyword. *)
Lemma empty_keyword_exempts_everything_witness :
  near_duplicate_rule rt (text "aaa") echo_history (settings_with 5 7 [[]])
  = false.
Proof.
  refine (proj2 (empty_keyword_exempts_everything rt (text "aaa") echo_history
                   (settings_with 5 7 [[]]) [] _ _)).
  - apply list_elem_of_here.
  - reflexivity.
Defined.

(** A link from a member who joined a minute ago, under the ten minutes
    of the settings. *)
Lemma new_member_test_edges_witness :
  _detect_violation rt (text_from newcomer "see http://x.y") empty_history
    (settings true 5) t0
  = Returned (Some REASON_NEW_ACCOUNT, None).
Proof.
  refine (eq_trans
            (proj2 (proj2 (new_member_test_edges rt
                             (text_from newcomer "see http://x.y")
                             empty_history (settings true 5) t0 newcomer
                             (t0 - 60000000) _ _ _ _ _ _ _ _))
               _ 600000000 _)
            _).
  - reflexivity.
  - reflexivity.
  - reflexivity.
  - vm_compute. reflexivity.
  - vm_compute. reflexivity.
  - vm_compute. reflexivity.
  - vm_compute. reflexivity.
  - vm_compute. reflexivity.
  - vm_compute. discriminate.
  - reflexivity.
  - vm_compute. reflexivity.
Defined.

End MoreWorked.

(* ===================================================================== *)
(** ** The daily schedule *)
(* ===================================================================== *)

Section ScheduleSorting.

Import Schedule.

Context {tzinfo : Type}.

Implicit Types (t a b : time tzinfo) (l : list (time tzinfo)).

Lemma key_lt_minutes a b :
  time_valid a → time_valid b →
  key_lt (time_key a) (time_key b) = (minute_of_day a <? minute_of_day b).
Proof.
  unfold time_valid, key_lt, time_key, minute_of_day. cbn [fst snd].
  intros [? ?] [? ?].
  destruct (Z.ltb_spec (t_hour a) (t_hour b)), (Z.eqb_spec (t_hour a) (t_hour b)),
    (Z.ltb_spec (t_minute a) (t_minute b)),
    (Z.ltb_spec (t_hour a * 60 + t_minute a) (t_hour b * 60 + t_minute b));
    cbn; (done || lia).
Qed.

Lemma time_valid_eq a b :
  time_valid a → time_valid b → t_tzinfo a = t_tzinfo b →
  minute_of_day a = minute_of_day b → a = b.
Proof.
  unfold time_valid, minute_of_day. destruct a, b. cbn.
  intros [? ?] [? ?] -> Heq.
  assert (t_hour0 = t_hour1) by lia. assert (t_minute0 = t_minute1) by lia.
  by subst.
Qed.

Lemma insert_time_perm t l : insert_time t l ≡ₚ t :: l.
Proof.
  induction l as [|y l IH]; cbn [insert_time]; [done|].
  destruct (key_lt (time_key t) (time_key y)); [done|].
  rewrite IH. apply Permutation_swap.
Qed.

Lemma sort_times_perm l : sort_times l ≡ₚ l.
Proof.
  unfold sort_times.
  assert (Hgen : ∀ acc, fold_left (fun sorted t => insert_time t sorted) l acc
                        ≡ₚ acc ++ l).
  { induction l as [|t l IH]; intros acc; cbn [fold_left].
    - by rewrite app_nil_r.
    - rewrite IH, insert_time_perm. cbn [app]. apply Permutation_middle. }
  by rewrite Hgen.
Qed.

Lemma insert_time_sorted t l :
  time_valid t → Forall time_valid l →
  StronglySorted (fun a b => minute_of_day a ≤ minute_of_day b) l →
  StronglySorted (fun a b => minute_of_day a ≤ minute_of_day b)
    (insert_time t l).
Proof.
  intros Ht Hvalid Hsorted.
  induction Hsorted as [|y l Hsorted IH Hy]; cbn [insert_time].
  - repeat constructor.
  - apply Forall_cons in Hvalid as [Hvy Hvl].
    rewrite (key_lt_minutes t y Ht Hvy).
    destruct (Z.ltb_spec (minute_of_day t) (minute_of_day y)).
    + constructor; [by constructor|].
      constructor; [lia|].
      eapply Forall_impl; [exact Hy|]. cbn. intros; lia.
    + constructor; [by apply IH|].
      rewrite insert_time_perm. constructor; [lia|done].
Qed.

Lemma sort_times_sorted l :
  Forall time_valid l →
  StronglySorted (fun a b => minute_of_day a ≤ minute_of_day b) (sort_times l).
Proof.
  unfold sort_times. intros Hvalid.
  assert (Hgen : ∀ acc,
    Forall time_valid acc →
    StronglySorted (fun a b => minute_of_day a ≤ minute_of_day b) acc →
    StronglySorted (fun a b => minute_of_day a ≤ minute_of_day b)
      (fold_left (fun sorted t => insert_time t sorted) l acc)).
  { induction Hvalid as [|t l Ht Hl IH]; intros acc Hacc Hs; [done|].
    cbn [fold_left]. apply IH.
    - rewrite insert_time_perm. by constructor.
    - by apply insert_time_sorted. }
  apply Hgen; constructor.
Qed.

(** A sorted list without two items at the same minute is strictly
    sorted. *)
Lemma sorted_strict l :
  NoDup (minute_of_day <$> l) →
  StronglySorted (fun a b => minute_of_day a ≤ minute_of_day b) l →
  StronglySorted (fun a b => minute_of_day a < minute_of_day b) l.
Proof.
  intros Hnd Hs. induction Hs as [|y l Hs IH Hy]; [constructor|].
  cbn [fmap list_fmap] in Hnd. apply NoDup_cons in Hnd as [Hy' Hnd].
  constructor; [by apply IH|].
  apply Forall_forall. intros x Hx.
  rewrite Forall_forall in Hy. specialize (Hy x Hx).
  assert (minute_of_day x ≠ minute_of_day y); [|lia].
  intros Heq. apply Hy'. rewrite <- Heq. by apply list_elem_of_fmap_2.
Qed.

End ScheduleSorting.

Section ScheduleLoop.

Import Schedule.

Context {tzinfo : Type} (library : TimezoneLibrary tzinfo).

(** An exception of [ZoneInfo] other than [ZoneInfoNotFoundError] is the
    only way in which [_resolve_timezone] does not return. *)
Lemma resolve_timezone_cases tz_name :
  match ZoneInfo library tz_name with
  | Zone tz => _resolve_timezone library tz_name = Done tz
  | ZoneInfoNotFoundError =>
      _resolve_timezone library tz_name
      = Done (fixed_offset library
                (if bool_decide (tz_name ∈ [u8 "Asia/Seoul"; u8 "KST"])
                 then 32400000000 else 0))
  | ZoneInfoRaised e => _resolve_timezone library tz_name = Failed e
  end.
Proof.
  unfold _resolve_timezone.
  destruct (ZoneInfo library tz_name); [done| |done].
  by destruct (bool_decide _).
Qed.

Lemma schedule_point_range s iv k : 0 ≤ schedule_point s iv k < 1440.
Proof. unfold schedule_point. apply Z.mod_pos_bound. lia. Qed.

Lemma schedule_point_0 s iv : 0 ≤ s < 1440 → schedule_point s iv 0 = s.
Proof.
  intros Hs. unfold schedule_point. rewrite Z.mul_0_l, Z.add_0_r.
  by apply Z.mod_small.
Qed.

Lemma schedule_point_S s iv k :
  schedule_point s iv (S k) = (schedule_point s iv k + iv) mod 1440.
Proof.
  unfold schedule_point. rewrite Zplus_mod_idemp_l. f_equal. lia.
Qed.

Lemma schedule_orbit_S s iv n :
  schedule_orbit s iv (S n) = schedule_orbit s iv n ++ [schedule_point s iv n].
Proof. unfold schedule_orbit. by rewrite seq_S, fmap_app. Qed.

Lemma schedule_orbit_length s iv n : length (schedule_orbit s iv n) = n.
Proof. unfold schedule_orbit. by rewrite length_fmap, length_seq. Qed.

Lemma elem_of_schedule_orbit s iv n x :
  x ∈ schedule_orbit s iv n ↔ ∃ k : nat, (k < n)%nat ∧ x = schedule_point s iv k.
Proof.
  unfold schedule_orbit. rewrite list_elem_of_fmap. split.
  - intros (k & -> & Hk%elem_of_seq). exists k. split; [lia|done].
  - intros (k & Hk & ->). exists k. split; [done|]. apply elem_of_seq. lia.
Qed.

(** Distinct minutes of one day are at most 1440. *)
Lemma schedule_orbit_bound s iv n :
  NoDup (schedule_orbit s iv n) → (n ≤ 1440)%nat.
Proof.
  intros Hnd.
  assert (Hsub : schedule_orbit s iv n ⊆+ seqZ 0 1440).
  { apply NoDup_submseteq; [done|].
    intros x (k & _ & ->)%elem_of_schedule_orbit.
    apply elem_of_seqZ. pose proof (schedule_point_range s iv k). lia. }
  apply submseteq_length in Hsub.
  rewrite schedule_orbit_length, length_seqZ in Hsub. lia.
Qed.

Lemma dt_time_at (tz : tzinfo) m :
  0 ≤ m < 1440 → dt_time (m / 60) (m mod 60) tz = Done (time_at tz m).
Proof.
  intros Hm. unfold dt_time, time_at.
  assert (0 ≤ m / 60 < 24)
    by (split; [apply Z.div_pos; lia|apply Z.div_lt_upper_bound; lia]).
  pose proof (Z.mod_pos_bound m 60).
  destruct (Z.leb_spec 0 (m / 60)); [|lia].
  destruct (Z.ltb_spec (m / 60) 24); [|lia].
  destruct (Z.leb_spec 0 (m mod 60)); [|lia].
  destruct (Z.ltb_spec (m mod 60) 60); [|lia]. done.
Qed.

Lemma time_at_valid (tz : tzinfo) m : 0 ≤ m < 1440 → time_valid (time_at tz m).
Proof.
  intros Hm. unfold time_valid, time_at. cbn.
  pose proof (Z.mod_pos_bound m 60).
  split; [|lia]. split; [apply Z.div_pos; lia|apply Z.div_lt_upper_bound; lia].
Qed.

Lemma minute_of_day_time_at (tz : tzinfo) m :
  minute_of_day (time_at tz m) = m.
Proof.
  unfold minute_of_day, time_at. cbn. pose proof (Z.div_mod m 60). lia.
Qed.

Lemma normalize_minutes_range hour minute :
  0 ≤ _normalize_minutes hour minute < 1440.
Proof.
  unfold _normalize_minutes.
  pose proof (Z.mod_pos_bound hour 24). pose proof (Z.mod_pos_bound minute 60).
  lia.
Qed.

(** The loop, started after [n] iterations with everything it has seen
    so far distinct, ends with the first [n'] minutes of the orbit. *)
Lemma schedule_loop_spec (tz : tzinfo) s iv :
  ∀ (fuel n : nat),
    (1441 ≤ fuel + n)%nat →
    NoDup (schedule_orbit s iv n) →
    ∃ n' : nat,
      (n ≤ n')%nat
      ∧ NoDup (schedule_orbit s iv n')
      ∧ schedule_loop fuel tz iv (schedule_point s iv n)
          (list_to_set (schedule_orbit s iv n))
          (time_at tz <$> schedule_orbit s iv n)
        = Done (time_at tz <$> schedule_orbit s iv n')
      ∧ ((schedule_point s iv n' ∈ schedule_orbit s iv n'
          ∧ (1440 ≤ iv → n' = n))
         ∨ (1440 ≤ iv ∧ n' = S n)).
Proof.
  induction fuel as [|fuel IH]; intros n Hfuel Hnd.
  - apply schedule_orbit_bound in Hnd. lia.
  - cbn [schedule_loop].
    destruct (decide (schedule_point s iv n
                      ∈ (list_to_set (schedule_orbit s iv n) : gset Z)))
      as [Hseen|Hnew].
    + exists n. rewrite elem_of_list_to_set in Hseen. auto 10.
    + rewrite elem_of_list_to_set in Hnew.
      rewrite (dt_time_at tz) by apply schedule_point_range.
      cbn [mbind result_bind].
      assert (Hnd' : NoDup (schedule_orbit s iv (S n))).
      { rewrite schedule_orbit_S. apply NoDup_app. split; [done|]. split.
        - intros x Hx ->%list_elem_of_singleton. done.
        - apply NoDup_singleton. }
      assert (Htimes : (time_at tz <$> schedule_orbit s iv n)
                        ++ [time_at tz (schedule_point s iv n)]
                       = time_at tz <$> schedule_orbit s iv (S n))
        by (by rewrite schedule_orbit_S, fmap_app).
      rewrite Htimes.
      destruct (Z.leb_spec (24 * 60) iv) as [Hbig|Hsmall].
      * exists (S n). split; [lia|]. split; [done|]. split; [done|].
        right. split; [lia|done].
      * rewrite <- schedule_point_S, <- list_to_set_snoc_L, <- schedule_orbit_S.
        destruct (IH (S n)) as (n' & Hle & Hnd'' & Hloop & Hexit);
          [lia|done|].
        exists n'. split; [lia|]. split; [done|]. split; [done|].
        destruct Hexit as [[Hin _]|[Hbig _]]; [|lia].
        left. split; [done|lia].
Qed.

(** Once the orbit has come back to a minute it has seen, it never
    leaves what it has seen. *)
Lemma schedule_orbit_closed s iv (n : nat) :
  schedule_point s iv n ∈ schedule_orbit s iv n →
  ∀ k : nat, schedule_point s iv k ∈ schedule_orbit s iv n.
Proof.
  intros Hback k. induction k as [|k IH].
  - destruct n as [|n]; [by apply elem_of_nil in Hback|].
    apply elem_of_schedule_orbit. exists 0%nat. split; [lia|done].
  - apply elem_of_schedule_orbit in IH as (j & Hj & Heq).
    rewrite schedule_point_S, Heq, <- schedule_point_S.
    destruct (decide (S j = n)) as [<-|Hne]; [done|].
    apply elem_of_schedule_orbit. exists (S j). split; [lia|done].
Qed.

(** What [generate_schedule_times] returns, before the properties are
    read off: the sorted times of the first [n] minutes of the orbit. *)
Lemma generate_schedule_times_orbit (fuel : nat) config (tz : tzinfo) :
  (enough_fuel ≤ fuel)%nat →
  _resolve_timezone library (timezone config) = Done tz →
  let iv := Z.max 1 (interval_minutes config) in
  let s := _normalize_minutes (hour config) (minute config) in
  ∃ n : nat,
    (1 ≤ n)%nat
    ∧ NoDup (schedule_orbit s iv n)
    ∧ generate_schedule_times library fuel config
      = Done (sort_times (time_at tz <$> schedule_orbit s iv n))
    ∧ ((iv < 1440 ∧ schedule_point s iv n ∈ schedule_orbit s iv n)
       ∨ (1440 ≤ iv ∧ n = 1%nat)).
Proof.
  intros Hfuel Htz. cbv zeta. unfold generate_schedule_times. rewrite Htz.
  cbn [mbind result_bind].
  set (iv := Z.max 1 (interval_minutes config)).
  set (s := _normalize_minutes (hour config) (minute config)).
  pose proof (normalize_minutes_range (hour config) (minute config)) as Hs.
  fold s in Hs.
  destruct (schedule_loop_spec tz s iv fuel 0) as (n & _ & Hnd & Hloop & Hexit).
  { unfold enough_fuel in Hfuel. lia. }
  { constructor. }
  rewrite schedule_point_0 in Hloop by done.
  change (schedule_orbit s iv 0) with (@nil Z) in Hloop.
  rewrite list_to_set_nil in Hloop. cbn [fmap list_fmap] in Hloop.
  rewrite Hloop.
  assert (Hn : (1 ≤ n)%nat).
  { destruct Hexit as [[Hin _]|[_ ->]]; [|lia].
    destruct n; [by apply elem_of_nil in Hin|lia]. }
  exists n. split; [done|]. split; [done|]. split.
  - destruct n as [|n]; [lia|]. rewrite schedule_orbit_S.
    rewrite fmap_app. by destruct (time_at tz <$> schedule_orbit s iv n).
  - destruct Hexit as [[Hin Hbig]|[Hbig ->]].
    + destruct (Z.lt_ge_cases iv 1440) as [Hlt|Hge]; [by left|].
      specialize (Hbig Hge). lia.
    + by right.
Qed.

(** The resolution of the time zone comes first. *)
Lemma generate_schedule_times_resolved (fuel : nat) config times :
  generate_schedule_times library fuel config = Done times →
  ∃ tz, _resolve_timezone library (timezone config) = Done tz.
Proof.
  unfold generate_schedule_times.
  destruct (_resolve_timezone library (timezone config)) as [tz| |];
    [eauto|discriminate..].
Qed.

End ScheduleLoop.

Section ScheduleProperties.

Import Schedule.

Context {tzinfo : Type} (library : TimezoneLibrary tzinfo).

Lemma strongly_sorted_weaken {A} (R1 R2 : A → A → Prop) (P : A → Prop) l :
  (∀ a b, P a → P b → R1 a b → R2 a b) →
  Forall P l → StronglySorted R1 l → StronglySorted R2 l.
Proof.
  intros Himpl Hall Hs. induction Hs as [|y l Hs IH Hy]; [constructor|].
  apply Forall_cons in Hall as [Hpy Hpl].
  constructor; [by apply IH|].
  rewrite Forall_forall in Hy, Hpl |- *. intros x Hx.
  apply Himpl; [done|by apply Hpl|by apply Hy].
Qed.

Lemma orbit_times_valid (tz : tzinfo) s iv n :
  Forall time_valid (time_at tz <$> schedule_orbit s iv n).
Proof.
  apply Forall_forall. intros t (m & -> & Hm)%list_elem_of_fmap.
  apply elem_of_schedule_orbit in Hm as (k & _ & ->).
  apply time_at_valid, schedule_point_range.
Qed.

Lemma orbit_times_minutes (tz : tzinfo) s iv n :
  minute_of_day <$> (time_at tz <$> schedule_orbit s iv n)
  = schedule_orbit s iv n.
Proof.
  rewrite <- list_fmap_compose. rewrite <- (list_fmap_id (schedule_orbit s iv n)) at 2.
  apply list_fmap_ext. intros i m _. cbn. apply minute_of_day_time_at.
Qed.

Lemma start_time_fields (tz : tzinfo) hour minute :
  time_at tz (_normalize_minutes hour minute)
  = {| t_hour := hour mod 24; t_minute := minute mod 60; t_tzinfo := tz |}.
Proof.
  unfold time_at, _normalize_minutes.
  pose proof (Z.mod_pos_bound hour 24). pose proof (Z.mod_pos_bound minute 60).
  f_equal.
  - symmetry. apply (Z.div_unique _ _ _ (minute mod 60)); lia.
  - symmetry. apply (Z.mod_unique _ _ (hour mod 24)); lia.
Qed.

(** X20. [generate_schedule_times] comes to an end for every
    configuration: with fuel for one day of minutes the loop stops by
    itself.  When [ZoneInfo] raises something other than
    [ZoneInfoNotFoundError] for the configured key (a [ValueError] for a
    malformed key), the function raises it.  In every other case the
    time zone is resolved, to the zone found or to the fixed offset of
    the fallback (nine hours for "Asia/Seoul" and "KST", else none), and
    the list returned is not empty, holds only times with an hour below
    24, a minute below 60 and that time zone, is strictly increasing in
    [(hour, minute)], so that no time occurs twice, and contains the
    configured start time, taken modulo one day. *)
Theorem schedule_times_well_formed (fuel : nat) config :
  (enough_fuel ≤ fuel)%nat →
  match ZoneInfo library (timezone config) with
  | ZoneInfoRaised e => generate_schedule_times library fuel config = Failed e
  | found =>
      ∃ tz times,
        tz = match found with
             | Zone tz => tz
             | _ => fixed_offset library
                      (if bool_decide
                            (timezone config ∈ [u8 "Asia/Seoul"; u8 "KST"])
                       then 32400000000 else 0)
             end
        ∧ _resolve_timezone library (timezone config) = Done tz
        ∧ generate_schedule_times library fuel config = Done times
        ∧ times ≠ []
        ∧ (∀ t, t ∈ times →
             0 ≤ t_hour t < 24 ∧ 0 ≤ t_minute t < 60 ∧ t_tzinfo t = tz)
        ∧ StronglySorted
            (fun a b => key_lt (time_key a) (time_key b) = true) times
        ∧ {| t_hour := hour config mod 24; t_minute := minute config mod 60;
             t_tzinfo := tz |} ∈ times
  end.
Proof.
  intros Hfuel.
  assert (Hwell : ∀ tz,
    _resolve_timezone library (timezone config) = Done tz →
    ∃ times,
      generate_schedule_times library fuel config = Done times
      ∧ times ≠ []
      ∧ (∀ t, t ∈ times →
           0 ≤ t_hour t < 24 ∧ 0 ≤ t_minute t < 60 ∧ t_tzinfo t = tz)
      ∧ StronglySorted
          (fun a b => key_lt (time_key a) (time_key b) = true) times
      ∧ {| t_hour := hour config mod 24; t_minute := minute config mod 60;
           t_tzinfo := tz |} ∈ times).
  { intros tz Htz.
    destruct (generate_schedule_times_orbit library fuel config tz Hfuel Htz)
      as (n & Hn & Hnd & Hgen & _).
    set (iv := Z.max 1 (interval_minutes config)) in *.
    set (s := _normalize_minutes (hour config) (minute config)) in *.
    set (raw := time_at tz <$> schedule_orbit s iv n) in *.
    pose proof (sort_times_perm raw) as Hperm.
    pose proof (orbit_times_valid tz s iv n) as Hvalid. fold raw in Hvalid.
    assert (Hvalid' : Forall time_valid (sort_times raw)) by (by rewrite Hperm).
    exists (sort_times raw). split; [done|]. split; [|split; [|split]].
    - intros Hnil. rewrite Hnil in Hperm. symmetry in Hperm.
      apply Permutation_nil_r in Hperm. subst raw.
      apply fmap_nil_inv in Hperm. apply (f_equal length) in Hperm.
      rewrite schedule_orbit_length in Hperm. cbn in Hperm. lia.
    - intros t Ht. rewrite Hperm in Ht.
      apply list_elem_of_fmap in Ht as (m & -> & Hm).
      apply elem_of_schedule_orbit in Hm as (k & _ & ->).
      destruct (time_at_valid tz _ (schedule_point_range s iv k)) as [? ?].
      done.
    - apply (strongly_sorted_weaken
               (fun a b => minute_of_day a < minute_of_day b) _ time_valid);
        [|done|].
      + intros a b Ha Hb Hlt. rewrite key_lt_minutes by done. by apply Z.ltb_lt.
      + apply sorted_strict; [|by apply sort_times_sorted].
        rewrite Hperm. unfold raw. by rewrite orbit_times_minutes.
    - rewrite <- start_time_fields. fold s. rewrite Hperm.
      apply list_elem_of_fmap. exists s. split; [done|].
      apply elem_of_schedule_orbit. exists 0%nat. split; [lia|].
      symmetry. apply schedule_point_0. apply normalize_minutes_range. }
  pose proof (resolve_timezone_cases library (timezone config)) as Hcases.
  destruct (ZoneInfo library (timezone config)) as [tz| |e].
  - destruct (Hwell tz Hcases) as (times & ?). by exists tz, times.
  - destruct (Hwell _ Hcases) as (times & ?). by eexists _, times.
  - unfold generate_schedule_times. by rewrite Hcases.
Qed.

(** X21. Which times are scheduled.  With an interval below one day
    (after the floor of one minute), a time is in the list exactly when
    its minute of the day is the start plus a multiple of the interval,
    modulo 1440: the list holds the whole orbit, also where it does not
    divide the day.  With an interval of a day or more the list holds the
    start time alone.  The times carry the resolved time zone. *)
Theorem schedule_times_exact (fuel : nat) config times :
  (enough_fuel ≤ fuel)%nat →
  generate_schedule_times library fuel config = Done times →
  let iv := Z.max 1 (interval_minutes config) in
  let s := _normalize_minutes (hour config) (minute config) in
  ∃ tz,
    _resolve_timezone library (timezone config) = Done tz
    ∧ (iv < 1440 →
       ∀ t, t ∈ times
            ↔ ∃ k : nat, t = time_at tz ((s + Z.of_nat k * iv) mod 1440))
    ∧ (1440 ≤ iv → times = [time_at tz s]).
Proof.
  intros Hfuel Hdone. cbv zeta.
  destruct (generate_schedule_times_resolved library fuel config times Hdone)
    as [tz Htz].
  exists tz. split; [done|].
  destruct (generate_schedule_times_orbit library fuel config tz Hfuel Htz)
    as (n & Hn & Hnd & Hgen & Hexit).
  set (iv := Z.max 1 (interval_minutes config)) in *.
  set (s := _normalize_minutes (hour config) (minute config)) in *.
  rewrite Hgen in Hdone. injection Hdone as <-.
  split.
  - intros Hsmall t. rewrite sort_times_perm, list_elem_of_fmap.
    destruct Hexit as [[_ Hback]|[Hbig _]]; [|lia]. split.
    + intros (m & -> & (k & _ & ->)%elem_of_schedule_orbit). by exists k.
    + intros (k & ->). exists (schedule_point s iv k). split; [done|].
      by apply schedule_orbit_closed.
  - intros Hbig. destruct Hexit as [[Hsmall _]|[_ ->]]; [lia|].
    change (schedule_orbit s iv 1) with [schedule_point s iv 0].
    rewrite schedule_point_0 by apply normalize_minutes_range. done.
Qed.

End ScheduleProperties.

Section NextRun.

Import Schedule.

Context {tzinfo : Type} (library : TimezoneLibrary tzinfo).

Implicit Types (now run c : wall tzinfo) (t : time tzinfo).

Lemma wall_gt_micros (a b : wall tzinfo) :
  wall_valid a → wall_valid b →
  wall_gt a b = (wall_micros b <? wall_micros a).
Proof.
  unfold wall_valid, wall_gt, wall_micros.
  intros (_ & ? & ? & ? & ? & _) (_ & ? & ? & ? & ? & _).
  destruct (Z.ltb_spec (w_date b) (w_date a)), (Z.eqb_spec (w_date b) (w_date a)),
    (Z.ltb_spec (w_hour b) (w_hour a)), (Z.eqb_spec (w_hour b) (w_hour a)),
    (Z.ltb_spec (w_minute b) (w_minute a)),
    (Z.eqb_spec (w_minute b) (w_minute a)),
    (Z.ltb_spec (w_second b) (w_second a)),
    (Z.eqb_spec (w_second b) (w_second a)),
    (Z.ltb_spec (w_microsecond b) (w_microsecond a));
    cbn [orb andb]; symmetry; (apply Z.ltb_lt || apply Z.ltb_ge); lia.
Qed.

Lemma combine_valid date t (tz : tzinfo) :
  time_valid t →
  combine date (t_hour t) (t_minute t) tz
  = Done {| w_date := date; w_hour := t_hour t; w_minute := t_minute t;
            w_second := 0; w_microsecond := 0; w_fold := 0; w_tzinfo := tz |}.
Proof.
  unfold time_valid, combine, dt_time. intros [? ?].
  destruct (Z.leb_spec 0 (t_hour t)); [|lia].
  destruct (Z.ltb_spec (t_hour t) 24); [|lia].
  destruct (Z.leb_spec 0 (t_minute t)); [|lia].
  destruct (Z.ltb_spec (t_minute t) 60); [|lia]. done.
Qed.

Lemma candidate_valid date t (tz : tzinfo) :
  0 < date ≤ date_max →
  time_valid t →
  wall_valid {| w_date := date; w_hour := t_hour t; w_minute := t_minute t;
                w_second := 0; w_microsecond := 0; w_fold := 0;
                w_tzinfo := tz |}.
Proof. unfold time_valid, wall_valid. cbn. lia. Qed.

Lemma candidate_micros date t (tz : tzinfo) :
  wall_micros {| w_date := date; w_hour := t_hour t; w_minute := t_minute t;
                 w_second := 0; w_microsecond := 0; w_fold := 0;
                 w_tzinfo := tz |}
  = occurrence date (minute_of_day t).
Proof. unfold wall_micros, occurrence, minute_of_day. cbn. lia. Qed.

(** The [for] loop over sorted times: the first time of the day of [now]
    that lies after [now] on the wall clock, which is the earliest one, or
    none. *)
Lemma first_candidate_spec now (tz : tzinfo) times :
  wall_valid now →
  Forall time_valid times →
  StronglySorted (fun a b => minute_of_day a ≤ minute_of_day b) times →
  ∃ r,
    first_candidate now tz times = Done r
    ∧ match r with
      | Some c =>
          (∃ t, t ∈ times
                ∧ c = {| w_date := w_date now; w_hour := t_hour t;
                         w_minute := t_minute t; w_second := 0;
                         w_microsecond := 0; w_fold := 0; w_tzinfo := tz |})
          ∧ wall_micros now < wall_micros c
          ∧ ∀ t', t' ∈ times →
                  wall_micros now < occurrence (w_date now) (minute_of_day t') →
                  wall_micros c ≤ occurrence (w_date now) (minute_of_day t')
      | None =>
          ∀ t', t' ∈ times →
                occurrence (w_date now) (minute_of_day t') ≤ wall_micros now
      end.
Proof.
  intros Hnow Hvalid Hsorted.
  assert (Hdate : 0 < w_date now ≤ date_max) by apply Hnow.
  induction Hsorted as [|y l Hsorted IH Hy]; cbn [first_candidate].
  - exists None. split; [done|]. by intros t' ?%elem_of_nil.
  - apply Forall_cons in Hvalid as [Hvy Hvl].
    rewrite (combine_valid _ _ _ Hvy). cbn [mbind result_bind].
    rewrite wall_gt_micros by (done || by apply candidate_valid).
    rewrite candidate_micros.
    destruct (Z.ltb_spec (wall_micros now)
                (occurrence (w_date now) (minute_of_day y))) as [Hafter|Hnot].
    + eexists (Some _). split; [done|]. split; [|split].
      * exists y. split; [apply list_elem_of_here|done].
      * by rewrite candidate_micros.
      * intros t' [->|Ht']%elem_of_cons _; rewrite candidate_micros; [done|].
        rewrite Forall_forall in Hy. specialize (Hy t' Ht').
        unfold occurrence. lia.
    + destruct (IH Hvl) as (r & -> & Hr). exists r. split; [done|].
      destruct r as [c|].
      * destruct Hr as ((t & Ht & ->) & Hgt & Hmin). split; [|split; [done|]].
        -- exists t. split; [by apply list_elem_of_further|done].
        -- intros t' [->|Ht']%elem_of_cons Hlt; [lia|by apply Hmin].
      * intros t' [->|Ht']%elem_of_cons; [done|by apply Hr].
Qed.

Lemma min_time_spec times :
  times ≠ [] → Forall time_valid times →
  ∃ m, min_time times = Done m ∧ m ∈ times
       ∧ ∀ t, t ∈ times → minute_of_day m ≤ minute_of_day t.
Proof.
  induction times as [|t rest IH]; [done|]. intros _ Hvalid.
  apply Forall_cons in Hvalid as [Hvt Hvr]. cbn [min_time].
  destruct rest as [|t2 rest].
  - exists t. split; [done|]. split; [apply list_elem_of_here|].
    by intros t' ->%list_elem_of_singleton.
  - destruct IH as (m & -> & Hm & Hmin); [done..|]. cbn [mbind result_bind].
    assert (Hvm : time_valid m) by (rewrite Forall_forall in Hvr; by apply Hvr).
    rewrite (key_lt_minutes m t Hvm Hvt).
    destruct (Z.ltb_spec (minute_of_day m) (minute_of_day t)).
    + exists m. split; [done|]. split; [by apply list_elem_of_further|].
      intros t' [->|Ht']%elem_of_cons; [lia|by apply Hmin].
    + exists t. split; [done|]. split; [apply list_elem_of_here|].
      intros t' [->|Ht']%elem_of_cons; [lia|].
      specialize (Hmin t' Ht'). lia.
Qed.

(** X22. [compute_next_run] returns the next occurrence of the schedule on
    the wall clock of the resolved zone.  For every valid [now] of that
    zone before the last day of the calendar, the result is a datetime of
    the zone with [fold = 0], on the day of [now] or the day after, at
    second zero of one of the times of [generate_schedule_times]; it is
    greater than [now] in the comparison the source makes, that of the
    naive datetimes, and no scheduled time of any day lies between the two
    on that wall clock.  As instants the result is later than [now] when
    all datetimes of the zone have the same UTC offset; across a change of
    the offset the wall clock says nothing about the instants.  When the
    resolution of the time zone raises (as [ZoneInfo] does for a malformed
    key), or the conversion of line 47 does, the function raises the
    same. *)
Theorem next_run_is_the_next_occurrence (fuel : nat) config
    (now_in : tzinfo → outcome (wall tzinfo)) :
  (enough_fuel ≤ fuel)%nat →
  _resolve_timezone library (timezone config) ≠ OutOfFuel
  ∧ (∀ e, _resolve_timezone library (timezone config) = Failed e →
          compute_next_run library fuel config now_in = Failed e)
  ∧ (∀ tz e,
       _resolve_timezone library (timezone config) = Done tz →
       now_in tz = Raised e →
       compute_next_run library fuel config now_in = Failed e)
  ∧ ∀ tz now,
      _resolve_timezone library (timezone config) = Done tz →
      now_in tz = Returned now →
      wall_valid now → w_tzinfo now = tz → w_date now < date_max →
      ∃ times run,
        generate_schedule_times library fuel config = Done times
        ∧ compute_next_run library fuel config now_in = Done run
        ∧ wall_gt run now = true
        ∧ (w_date run = w_date now ∨ w_date run = w_date now + 1)
        ∧ w_second run = 0 ∧ w_microsecond run = 0 ∧ w_fold run = 0
        ∧ w_tzinfo run = tz
        ∧ (∃ t, t ∈ times ∧ w_hour run = t_hour t ∧ w_minute run = t_minute t)
        ∧ (∀ t date,
             t ∈ times →
             wall_micros now < occurrence date (minute_of_day t) →
             wall_micros run ≤ occurrence date (minute_of_day t))
        ∧ ((∀ a b : wall tzinfo,
              w_tzinfo a = tz → w_tzinfo b = tz →
              utcoffset library a = utcoffset library b) →
           instant library now < instant library run).
Proof.
  intros Hfuel. split; [|split; [|split]].
  { pose proof (resolve_timezone_cases library (timezone config)) as Hc.
    destruct (ZoneInfo library (timezone config)); congruence. }
  { intros e Htz. unfold compute_next_run. by rewrite Htz. }
  { intros tz e Htz Hnow. unfold compute_next_run.
    rewrite Htz. cbn [mbind result_bind]. by rewrite Hnow. }
  intros tz now Htz Hclock Hnow Hzone Hlast.
  destruct (generate_schedule_times_orbit library fuel config tz Hfuel Htz)
    as (n & Hn & Hnd & Hgen & _).
  set (iv := Z.max 1 (interval_minutes config)) in *.
  set (s := _normalize_minutes (hour config) (minute config)) in *.
  set (raw := time_at tz <$> schedule_orbit s iv n) in *.
  pose proof (sort_times_perm raw) as Hperm.
  pose proof (orbit_times_valid tz s iv n) as Hvraw. fold raw in Hvraw.
  assert (Hvalid : Forall time_valid (sort_times raw)) by (by rewrite Hperm).
  pose proof (sort_times_sorted raw Hvraw) as Hsorted.
  assert (Hne : sort_times raw ≠ []).
  { intros Hnil. rewrite Hnil in Hperm. symmetry in Hperm.
    apply Permutation_nil_r in Hperm. subst raw.
    apply fmap_nil_inv in Hperm. apply (f_equal length) in Hperm.
    rewrite schedule_orbit_length in Hperm. cbn in Hperm. lia. }
  assert (Hday : ∀ t, t ∈ sort_times raw → 0 ≤ minute_of_day t < 1440).
  { intros t Ht. rewrite Forall_forall in Hvalid.
    destruct (Hvalid t Ht) as [? ?]. unfold minute_of_day. lia. }
  assert (Hdate : 0 < w_date now ≤ date_max) by apply Hnow.
  assert (Hnow_day : occurrence (w_date now) 0 ≤ wall_micros now
                     < occurrence (w_date now + 1) 0).
  { destruct Hnow as (_ & ? & ? & ? & ? & _). unfold occurrence, wall_micros. lia. }
  assert (Hinstant : ∀ run : wall tzinfo,
    w_tzinfo run = tz → wall_micros now < wall_micros run →
    (∀ a b : wall tzinfo,
       w_tzinfo a = tz → w_tzinfo b = tz →
       utcoffset library a = utcoffset library b) →
    instant library now < instant library run).
  { intros run Hrun Hlt Hfixed. unfold instant.
    rewrite (Hfixed now run Hzone Hrun). lia. }
  exists (sort_times raw). unfold compute_next_run. rewrite Htz.
  cbn [mbind result_bind]. rewrite Hclock, Hgen. cbn [mbind result_bind].
  destruct (first_candidate_spec now tz (sort_times raw) Hnow Hvalid Hsorted)
    as (r & -> & Hr).
  cbn [mbind result_bind].
  destruct r as [c|].
  - destruct Hr as ((t & Ht & ->) & Hgt & Hmin).
    assert (Hvt : time_valid t) by (rewrite Forall_forall in Hvalid; by apply Hvalid).
    eexists. split; [done|]. split; [done|]. cbn [w_date w_second w_microsecond
      w_fold w_tzinfo w_hour w_minute].
    split; [|split; [by left|]].
    { rewrite wall_gt_micros by (done || by apply candidate_valid).
      by apply Z.ltb_lt. }
    do 4 (split; [done|]). split; [by exists t|]. split.
    + intros t' date Ht' Hlt. pose proof (Hday t' Ht'). pose proof (Hday t Ht).
      rewrite candidate_micros in *.
      destruct (Z.lt_trichotomy date (w_date now)) as [?|[->|?]].
      * unfold occurrence in *. lia.
      * by apply Hmin.
      * unfold occurrence in *. lia.
    + by apply Hinstant.
  - destruct (min_time_spec (sort_times raw) Hne Hvalid)
      as (m & -> & Hm & Hmin).
    cbn [mbind result_bind].
    assert (Hvm : time_valid m) by (rewrite Forall_forall in Hvalid; by apply Hvalid).
    unfold date_add_days. cbv zeta.
    destruct (Z.ltb_spec 0 (w_date now + 1)); [|lia].
    destruct (Z.leb_spec (w_date now + 1) date_max); [|lia].
    cbn [andb mbind result_bind].
    rewrite (combine_valid _ _ _ Hvm).
    eexists. split; [done|]. split; [done|]. cbn [w_date w_second w_microsecond
      w_fold w_tzinfo w_hour w_minute].
    pose proof (Hday m Hm).
    assert (Hlater : wall_micros now
                     < wall_micros
                         {| w_date := w_date now + 1; w_hour := t_hour m;
                            w_minute := t_minute m; w_second := 0;
                            w_microsecond := 0; w_fold := 0; w_tzinfo := tz |}).
    { rewrite candidate_micros. unfold occurrence in *. lia. }
    split; [|split; [by right|]].
    { rewrite wall_gt_micros by (done || apply candidate_valid; (done || lia)).
      by apply Z.ltb_lt. }
    do 4 (split; [done|]). split; [by exists m|]. split.
    + intros t' date Ht' Hlt. pose proof (Hday t' Ht').
      specialize (Hr t' Ht'). specialize (Hmin t' Ht').
      rewrite candidate_micros.
      destruct (Z.le_gt_cases date (w_date now)).
      * unfold occurrence in *. lia.
      * unfold occurrence in *. lia.
    + by apply Hinstant.
Qed.

End NextRun.

Section ScheduleWorked.

Import Schedule ScheduleExamples.

(** The default configuration in Seoul; and with the empty key, which
    [ZoneInfo] rejects, the function raises. *)
Lemma schedule_times_well_formed_witness :
  (∃ times,
     generate_schedule_times library enough_fuel default_config = Done times
     ∧ times ≠ [])
  ∧ generate_schedule_times library enough_fuel (config_in [])
    = Failed ValueError.
Proof.
  split.
  - assert (H := schedule_times_well_formed library enough_fuel default_config).
    change (ZoneInfo library (timezone default_config)) with (Zone seoul) in H.
    destruct H as (tz & times & _ & _ & Hdone & Hne & _).
    + unfold enough_fuel. lia.
    + exists times. split; [exact Hdone|exact Hne].
  - assert (H := schedule_times_well_formed library enough_fuel (config_in [])).
    change (ZoneInfo library (timezone (config_in [])))
      with (ZoneInfoRaised (tzinfo := str) ValueError) in H.
    apply H. unfold enough_fuel. lia.
Defined.

(** 13:00 is two intervals after 09:00. *)
Lemma schedule_times_exact_witness :
  ∃ tz,
    _resolve_timezone library (timezone default_config) = Done tz
    ∧ ({| t_hour := 13; t_minute := 0; t_tzinfo := seoul |} ∈ odd_hours
       ↔ ∃ k : nat,
           {| t_hour := 13; t_minute := 0; t_tzinfo := seoul |}
           = time_at tz
               ((_normalize_minutes (hour default_config) (minute default_config)
                 + Z.of_nat k * Z.max 1 (interval_minutes default_config))
                mod 1440)).
Proof.
  destruct (schedule_times_exact library enough_fuel default_config odd_hours)
    as (tz & Htz & Hsmall & _).
  - unfold enough_fuel. lia.
  - vm_compute. reflexivity.
  - exists tz. split; [exact Htz|]. apply Hsmall. vm_compute. reflexivity.
Defined.

(** After 23:30 the next run is 01:00 of the next day. *)
Lemma next_run_is_the_next_occurrence_witness :
  ∃ run,
    compute_next_run library enough_fuel default_config clock_late_evening
      = Done run
    ∧ wall_gt run (late_evening seoul) = true.
Proof.
  destruct (next_run_is_the_next_occurrence library enough_fuel default_config
              clock_late_evening) as (_ & _ & _ & Hnext).
  - unfold enough_fuel. lia.
  - destruct (Hnext seoul (late_evening seoul))
      as (times & run & _ & Hrun & Hgt & _).
    + reflexivity.
    + reflexivity.
    + unfold wall_valid, date_max. cbn. lia.
    + reflexivity.
    + unfold date_max. cbn. lia.
    + exists run. split; [exact Hrun|exact Hgt].
Defined.

End ScheduleWorked.
